(** * Leaderboard backend of the gesture shooter: authentication, validation
      and scoring routes

    A shallow embedding of [server/middleware/telegramAuth.js],
    [server/middleware/validation.js], [server/routes/scores.js],
    [server/routes/auth.js] and [server/config/constants.js], followed by
    the properties proved of them.

    - [Host] models the builtins of the runtime that the code calls:
      HMAC-SHA256, [Buffer.from(_, 'hex')], [crypto.timingSafeEqual],
      [URLSearchParams], [Array.prototype.sort], [JSON.parse], property
      reads and truthiness.
    - [TelegramAuth], [Validation], [Scores] and [Auth] follow the source
      files of those names, function by function.
    - [Database] models the two tables of [config/database.js] and the SQL
      statements the routers send; a handler is a program over these
      statements, so that two requests can be interleaved statement by
      statement.
    - [Props] holds the vocabulary of the properties and the stores and
      requests of the examples.

    Conventions.  A JavaScript string is represented by the bytes of its
    UTF-8 encoding (a Rocq [string]), which is exact for text that
    percent-decodes to well-formed UTF-8; a missing, [undefined] or [null]
    argument is [None].  Integers that the validators have parsed are [Z].
    The two quotients of the anti-cheat check are IEEE binary64 values, as in
    JavaScript.  [String.prototype.localeCompare] depends on the collation of
    the runtime and is a parameter ([Locale]). *)

From Stdlib Require Import ZArith List String Ascii Bool Lia Permutation.
From Stdlib Require Import Floats Uint63 Sorted.
Import ListNotations.
Set Warnings "-register-all".
Local Open Scope string_scope.
Local Open Scope list_scope.
Local Open Scope Z_scope.

(* ================================================================== *)
(** * The runtime's builtins *)
(* ================================================================== *)

Module Host.

(** ** Bytes *)

Definition byte_of_ascii (c : ascii) : Z := Z.of_N (N_of_ascii c).
Definition ascii_of_byte (b : Z) : ascii := ascii_of_N (Z.to_N (b mod 256)).

Fixpoint bytes_of_string (s : string) : list Z :=
  match s with
  | EmptyString => []
  | String c r => byte_of_ascii c :: bytes_of_string r
  end.

Fixpoint string_of_bytes (l : list Z) : string :=
  match l with
  | [] => EmptyString
  | b :: r => String (ascii_of_byte b) (string_of_bytes r)
  end.

(** [s.toLowerCase()] on the letters of ASCII; other characters are kept. *)
Definition lower_case (c : ascii) : ascii :=
  let n := byte_of_ascii c in
  if (65 <=? n) && (n <=? 90) then ascii_of_byte (n + 32) else c.

Fixpoint toLowerCase (s : string) : string :=
  match s with
  | EmptyString => EmptyString
  | String c r => String (lower_case c) (toLowerCase r)
  end.

(** ** SHA-256 (FIPS 180-4) on 32-bit words held in [Z] *)

Definition w32 (x : Z) : Z := x mod 4294967296.
Definition add32 (x y : Z) : Z := w32 (x + y).
Definition rotr (n x : Z) : Z :=
  Z.lor (Z.shiftr x n) (w32 (Z.shiftl x (32 - n))).
Definition not32 (x : Z) : Z := Z.lxor x 4294967295.

Definition Ch (x y z : Z) : Z := Z.lxor (Z.land x y) (Z.land (not32 x) z).
Definition Maj (x y z : Z) : Z :=
  Z.lxor (Z.lxor (Z.land x y) (Z.land x z)) (Z.land y z).
Definition Sigma0 (x : Z) : Z := Z.lxor (Z.lxor (rotr 2 x) (rotr 13 x)) (rotr 22 x).
Definition Sigma1 (x : Z) : Z := Z.lxor (Z.lxor (rotr 6 x) (rotr 11 x)) (rotr 25 x).
Definition sigma0 (x : Z) : Z := Z.lxor (Z.lxor (rotr 7 x) (rotr 18 x)) (Z.shiftr x 3).
Definition sigma1 (x : Z) : Z := Z.lxor (Z.lxor (rotr 17 x) (rotr 19 x)) (Z.shiftr x 10).

Definition K256 : list Z :=
  [ 1116352408; 1899447441; 3049323471; 3921009573; 961987163; 1508970993;
    2453635748; 2870763221; 3624381080; 310598401; 607225278; 1426881987;
    1925078388; 2162078206; 2614888103; 3248222580; 3835390401; 4022224774;
    264347078; 604807628; 770255983; 1249150122; 1555081692; 1996064986;
    2554220882; 2821834349; 2952996808; 3210313671; 3336571891; 3584528711;
    113926993; 338241895; 666307205; 773529912; 1294757372; 1396182291;
    1695183700; 1986661051; 2177026350; 2456956037; 2730485921; 2820302411;
    3259730800; 3345764771; 3516065817; 3600352804; 4094571909; 275423344;
    430227734; 506948616; 659060556; 883997877; 958139571; 1322822218;
    1537002063; 1747873779; 1955562222; 2024104815; 2227730452; 2361852424;
    2428436474; 2756734187; 3204031479; 3329325298 ].

(** Big-endian packing of bytes into words and back. *)
Fixpoint words_of_bytes (l : list Z) : list Z :=
  match l with
  | a :: b :: c :: d :: r =>
      (a * 16777216 + b * 65536 + c * 256 + d) :: words_of_bytes r
  | _ => []
  end.

Definition bytes_of_word (w : Z) : list Z :=
  [ (w / 16777216) mod 256; (w / 65536) mod 256; (w / 256) mod 256; w mod 256 ].

(** The message schedule, kept newest word first while it is extended. *)
Fixpoint extend_schedule (n : nat) (rev_w : list Z) : list Z :=
  match n with
  | O => rev_w
  | S n' =>
      let w := add32 (add32 (sigma1 (nth 1 rev_w 0)) (nth 6 rev_w 0))
                     (add32 (sigma0 (nth 14 rev_w 0)) (nth 15 rev_w 0)) in
      extend_schedule n' (w :: rev_w)
  end.

Definition schedule (block : list Z) : list Z :=
  rev (extend_schedule 48 (rev (words_of_bytes block))).

Record regs := Regs { ra : Z; rb : Z; rc : Z; rd : Z; re : Z; rf : Z; rg : Z; rh : Z }.

Definition round (s : regs) (kw : Z * Z) : regs :=
  let t1 := add32 (add32 (add32 (rh s) (Sigma1 (re s)))
                         (add32 (Ch (re s) (rf s) (rg s)) (fst kw))) (snd kw) in
  let t2 := add32 (Sigma0 (ra s)) (Maj (ra s) (rb s) (rc s)) in
  Regs (add32 t1 t2) (ra s) (rb s) (rc s) (add32 (rd s) t1) (re s) (rf s) (rg s).

Definition compress (h : regs) (block : list Z) : regs :=
  let s := fold_left round (combine K256 (schedule block)) h in
  Regs (add32 (ra h) (ra s)) (add32 (rb h) (rb s)) (add32 (rc h) (rc s))
       (add32 (rd h) (rd s)) (add32 (re h) (re s)) (add32 (rf h) (rf s))
       (add32 (rg h) (rg s)) (add32 (rh h) (rh s)).

Definition pad (msg : list Z) : list Z :=
  let len := Z.of_nat (List.length msg) in
  let zeros := Z.to_nat ((55 - len) mod 64) in
  let bits := len * 8 in
  msg ++ [128] ++ repeat 0 zeros
      ++ bytes_of_word (bits / 4294967296) ++ bytes_of_word (w32 bits).

Fixpoint blocks (n : nat) (l : list Z) : list (list Z) :=
  match n with
  | O => []
  | S n' => firstn 64 l :: blocks n' (skipn 64 l)
  end.

Definition sha256 (msg : list Z) : list Z :=
  let p := pad msg in
  let h0 := Regs 1779033703 3144134277 1013904242 2773480762
                 1359893119 2600822924 528734635 1541459225 in
  let h := fold_left compress (blocks (List.length p / 64) p) h0 in
  flat_map bytes_of_word
    [ra h; rb h; rc h; rd h; re h; rf h; rg h; rh h].

(** ** HMAC (RFC 2104) with SHA-256:
       [crypto.createHmac('sha256', key).update(msg).digest()] *)

Definition hmac_block_key (key : list Z) : list Z :=
  let k := if (64 <? Z.of_nat (List.length key)) then sha256 key else key in
  k ++ repeat 0 (64 - List.length k).

Definition hmac_sha256 (key msg : list Z) : list Z :=
  let k := hmac_block_key key in
  let ikey := map (fun b => Z.lxor b 54) k in
  let okey := map (fun b => Z.lxor b 92) k in
  sha256 (okey ++ sha256 (ikey ++ msg)).

(** ** Hexadecimal: [Buffer.from(s, 'hex')] and [digest('hex')] *)

Definition unhex (c : ascii) : option Z :=
  let n := byte_of_ascii c in
  if (48 <=? n) && (n <=? 57) then Some (n - 48)
  else if (65 <=? n) && (n <=? 70) then Some (n - 55)
  else if (97 <=? n) && (n <=? 102) then Some (n - 87)
  else None.

(** Decoding reads two characters at a time and stops, keeping what it has,
    at the first pair that is not two hexadecimal digits; a last single
    character is dropped.  It never raises. *)
Fixpoint hex_decode (s : string) : list Z :=
  match s with
  | String a (String b r) =>
      match unhex a, unhex b with
      | Some x, Some y => (16 * x + y) :: hex_decode r
      | _, _ => []
      end
  | _ => []
  end.

Definition hex_digit (n : Z) : ascii :=
  ascii_of_byte (if n <? 10 then 48 + n else 87 + n).

Fixpoint hex_encode (l : list Z) : string :=
  match l with
  | [] => EmptyString
  | b :: r => String (hex_digit (b / 16)) (String (hex_digit (b mod 16)) (hex_encode r))
  end.

(** ** Exceptions *)

Inductive js_error := RangeError | TypeError | SyntaxError.

Inductive result (A : Type) :=
| Ok (a : A)
| Throw (e : js_error).
Arguments Ok {A} a.
Arguments Throw {A} e.

Definition rbind {A B} (r : result A) (f : A -> result B) : result B :=
  match r with
  | Ok a => f a
  | Throw e => Throw e
  end.

Fixpoint bytes_eqb (a b : list Z) : bool :=
  match a, b with
  | [], [] => true
  | x :: a', y :: b' => (x =? y) && bytes_eqb a' b'
  | _, _ => false
  end.

(** [crypto.timingSafeEqual]: raises when the two buffers differ in length. *)
Definition timingSafeEqual (a b : list Z) : result bool :=
  if Nat.eqb (List.length a) (List.length b) then Ok (bytes_eqb a b)
  else Throw RangeError.

(** ** [URLSearchParams] built from a string *)

Fixpoint split_on (sep : ascii) (s : string) : list string :=
  match s with
  | EmptyString => [EmptyString]
  | String c r =>
      if Ascii.eqb c sep then EmptyString :: split_on sep r
      else match split_on sep r with
           | [] => [String c EmptyString]
           | h :: t => String c h :: t
           end
  end.

(** A sequence is cut at its first [=]; without one the value is empty. *)
Fixpoint cut_at (sep : ascii) (s : string) : string * string :=
  match s with
  | EmptyString => (EmptyString, EmptyString)
  | String c r =>
      if Ascii.eqb c sep then (EmptyString, r)
      else let (k, v) := cut_at sep r in (String c k, v)
  end.

Fixpoint plus_to_space (s : string) : string :=
  match s with
  | EmptyString => EmptyString
  | String c r =>
      String (if Ascii.eqb c "+"%char then " "%char else c) (plus_to_space r)
  end.

(** Percent-decoding: [%XY] with two hexadecimal digits is one byte, any
    other [%] stands for itself.  [skip] counts the digits already used. *)
Fixpoint percent_decode_from (skip : nat) (s : string) : string :=
  match s with
  | EmptyString => EmptyString
  | String c r =>
      match skip with
      | S k => percent_decode_from k r
      | O =>
          if Ascii.eqb c "%"%char then
            match r with
            | String a (String b _) =>
                match unhex a, unhex b with
                | Some x, Some y =>
                    String (ascii_of_byte (16 * x + y)) (percent_decode_from 2 r)
                | _, _ => String c (percent_decode_from 0 r)
                end
            | _ => String c (percent_decode_from 0 r)
            end
          else String c (percent_decode_from 0 r)
      end
  end.

Definition percent_decode (s : string) : string := percent_decode_from 0 s.

(** The bytes after percent-decoding are decoded as UTF-8, and the text is
    kept here as UTF-8 again: a well-formed sequence stays as it is, and
    every ill-formed part becomes U+FFFD, the three bytes [EF BF BD].
    [pending] holds the bytes of the sequence being read, [needed] counts
    those still to come, and the next one has to lie between [lo] and
    [hi]; a byte that does not is read again as the start of a sequence. *)
Definition replacement_character : string :=
  String (ascii_of_byte 239)
    (String (ascii_of_byte 191) (String (ascii_of_byte 189) EmptyString)).

Fixpoint utf8_decode_from (pending : string) (needed : nat) (lo hi : Z)
    (s : string) : string :=
  match s with
  | EmptyString =>
      match needed with
      | O => EmptyString
      | S _ => replacement_character
      end
  | String c r =>
      let b := byte_of_ascii c in
      let first_byte :=
        if b <? 128 then String c (utf8_decode_from EmptyString 0 128 191 r)
        else if (194 <=? b) && (b <=? 223) then
          utf8_decode_from (String c EmptyString) 1 128 191 r
        else if (224 <=? b) && (b <=? 239) then
          utf8_decode_from (String c EmptyString) 2
            (if b =? 224 then 160 else 128) (if b =? 237 then 159 else 191) r
        else if (240 <=? b) && (b <=? 244) then
          utf8_decode_from (String c EmptyString) 3
            (if b =? 240 then 144 else 128) (if b =? 244 then 143 else 191) r
        else (replacement_character ++ utf8_decode_from EmptyString 0 128 191 r)%string in
      match needed with
      | O => first_byte
      | S n =>
          if (lo <=? b) && (b <=? hi) then
            match n with
            | O => (pending ++ String c (utf8_decode_from EmptyString 0 128 191 r))%string
            | S _ => utf8_decode_from (pending ++ String c EmptyString) n 128 191 r
            end
          else (replacement_character ++ first_byte)%string
      end
  end.

Definition utf8_decode (s : string) : string :=
  utf8_decode_from EmptyString 0 128 191 s.

Definition form_decode (s : string) : string :=
  utf8_decode (percent_decode (plus_to_space s)).

Definition is_empty (s : string) : bool :=
  match s with EmptyString => true | _ => false end.

Definition URLSearchParams (init : string) : list (string * string) :=
  let query := match init with
               | String c r => if Ascii.eqb c "?"%char then r else init
               | EmptyString => init
               end in
  map (fun seq => let (k, v) := cut_at "="%char seq in (form_decode k, form_decode v))
      (filter (fun seq => negb (is_empty seq)) (split_on "&"%char query)).

(** [get] is the value of the first pair of that name, [delete] drops every
    pair of that name, [entries] is the list itself. *)
Fixpoint get (params : list (string * string)) (name : string) : option string :=
  match params with
  | [] => None
  | (k, v) :: r => if String.eqb k name then Some v else get r name
  end.

Definition delete (params : list (string * string)) (name : string)
  : list (string * string) :=
  filter (fun kv => negb (String.eqb (fst kv) name)) params.

(** ** [Array.prototype.sort] with a comparator: a stable sort *)

Section Sort.
Context {A : Type} (cmp : A -> A -> Z).

Fixpoint insert_sorted (x : A) (l : list A) : list A :=
  match l with
  | [] => [x]
  | y :: r => if cmp x y <=? 0 then x :: l else y :: insert_sorted x r
  end.

Fixpoint sort (l : list A) : list A :=
  match l with
  | [] => []
  | x :: r => insert_sorted x (sort r)
  end.
End Sort.

Fixpoint join (sep : string) (l : list string) : string :=
  match l with
  | [] => EmptyString
  | [x] => x
  | x :: r => (x ++ sep ++ join sep r)%string
  end.

(** ** JSON values and [JSON.parse] *)

(** A number keeps its decimal reading: [JNum neg m e] is
    [(-1)^neg * m * 10^e], not the binary64 value that the runtime rounds it
    to, so that two texts of one binary64 value are two values here.  The
    code under study looks at a number in one way only, its truthiness,
    which [truthy] below decides as binary64 does. *)
Inductive jsval :=
| JUndefined
| JNull
| JBool (b : bool)
| JNum (neg : bool) (mant : Z) (exp10 : Z)
| JStr (s : string)
| JArr (items : list jsval)
| JObj (members : list (string * jsval)).

Definition chr (n : Z) : ascii := ascii_of_byte n.
Definition is_chr (c : ascii) (n : Z) : bool := byte_of_ascii c =? n.

Definition is_ws (c : ascii) : bool :=
  is_chr c 32 || is_chr c 9 || is_chr c 10 || is_chr c 13.

Fixpoint skip_ws (s : string) : string :=
  match s with
  | String c r => if is_ws c then skip_ws r else s
  | EmptyString => s
  end.

Definition is_digit (c : ascii) : bool :=
  (48 <=? byte_of_ascii c) && (byte_of_ascii c <=? 57).

(** Reads a run of digits onto [acc]; also returns how many were read. *)
Fixpoint take_digits (s : string) (acc n : Z) : Z * Z * string :=
  match s with
  | String c r =>
      if is_digit c then take_digits r (10 * acc + (byte_of_ascii c - 48)) (n + 1)
      else (acc, n, s)
  | EmptyString => (acc, n, s)
  end.

Definition parse_exponent (neg : bool) (m n : Z) (s : string)
  : option (jsval * string) :=
  match s with
  | String e r =>
      if is_chr e 101 || is_chr e 69 then
        let '(eneg, s1) :=
          match r with
          | String sg r1 =>
              if is_chr sg 43 then (false, r1)
              else if is_chr sg 45 then (true, r1) else (false, r)
          | EmptyString => (false, r)
          end in
        let '(ev, en, s2) := take_digits s1 0 0 in
        if en =? 0 then None
        else Some (JNum neg m ((if eneg then - ev else ev) - n), s2)
      else Some (JNum neg m (- n), s)
  | EmptyString => Some (JNum neg m (- n), s)
  end.

Definition parse_fraction (neg : bool) (i : Z) (s : string)
  : option (jsval * string) :=
  match s with
  | String d r =>
      if is_chr d 46 then
        let '(m, n, s1) := take_digits r i 0 in
        if n =? 0 then None else parse_exponent neg m n s1
      else parse_exponent neg i 0 s
  | EmptyString => parse_exponent neg i 0 s
  end.

Definition parse_number (s : string) : option (jsval * string) :=
  let '(neg, s1) :=
    match s with
    | String c r => if is_chr c 45 then (true, r) else (false, s)
    | EmptyString => (false, s)
    end in
  match s1 with
  | String c r =>
      if is_chr c 48 then parse_fraction neg 0 r
      else if is_digit c then
        let '(i, _, s2) := take_digits s1 0 0 in parse_fraction neg i s2
      else None
  | EmptyString => None
  end.

Definition utf8_encode (cp : Z) : string :=
  if cp <? 128 then String (chr cp) EmptyString
  else if cp <? 2048 then
    String (chr (192 + cp / 64)) (String (chr (128 + cp mod 64)) EmptyString)
  else if cp <? 65536 then
    String (chr (224 + cp / 4096))
      (String (chr (128 + (cp / 64) mod 64))
         (String (chr (128 + cp mod 64)) EmptyString))
  else
    String (chr (240 + cp / 262144))
      (String (chr (128 + (cp / 4096) mod 64))
         (String (chr (128 + (cp / 64) mod 64))
            (String (chr (128 + cp mod 64)) EmptyString))).

Definition hex4 (s : string) : option (Z * string) :=
  match s with
  | String a (String b (String c (String d r))) =>
      match unhex a, unhex b, unhex c, unhex d with
      | Some x, Some y, Some z, Some w => Some (4096 * x + 256 * y + 16 * z + w, r)
      | _, _, _, _ => None
      end
  | _ => None
  end.

(** After [\uXXXX] with a high surrogate, a following [\uYYYY] low surrogate
    completes one code point. *)
Definition low_surrogate_after (s : string) : option (Z * string) :=
  match s with
  | String b (String u r) =>
      if is_chr b 92 && is_chr u 117 then
        match hex4 r with
        | Some (lo, r') =>
            if (56320 <=? lo) && (lo <=? 57343) then Some (lo, r') else None
        | None => None
        end
      else None
  | _ => None
  end.

Definition simple_escape (e : ascii) : option ascii :=
  if is_chr e 34 || is_chr e 92 || is_chr e 47 then Some e
  else if is_chr e 98 then Some (chr 8)
  else if is_chr e 102 then Some (chr 12)
  else if is_chr e 110 then Some (chr 10)
  else if is_chr e 114 then Some (chr 13)
  else if is_chr e 116 then Some (chr 9)
  else None.

Definition prepend (pre : string) (r : option (string * string))
  : option (string * string) :=
  match r with
  | Some (body, rest) => Some ((pre ++ body)%string, rest)
  | None => None
  end.

(** The characters of a string literal after its opening quote, up to the
    closing one; returns the decoded text and what follows the literal. *)
Fixpoint parse_chars (fuel : nat) (s : string) : option (string * string) :=
  match fuel with
  | O => None
  | S fuel' =>
      match s with
      | EmptyString => None
      | String c r =>
          if is_chr c 34 then Some (EmptyString, r)
          else if is_chr c 92 then
            match r with
            | EmptyString => None
            | String e r1 =>
                if is_chr e 117 then
                  match hex4 r1 with
                  | None => None
                  | Some (u, r2) =>
                      if (55296 <=? u) && (u <=? 56319) then
                        match low_surrogate_after r2 with
                        | Some (lo, r3) =>
                            prepend
                              (utf8_encode (65536 + (u - 55296) * 1024 + (lo - 56320)))
                              (parse_chars fuel' r3)
                        | None => prepend (utf8_encode u) (parse_chars fuel' r2)
                        end
                      else prepend (utf8_encode u) (parse_chars fuel' r2)
                  end
                else
                  match simple_escape e with
                  | Some x => prepend (String x EmptyString) (parse_chars fuel' r1)
                  | None => None
                  end
            end
          else if byte_of_ascii c <? 32 then None
          else prepend (String c EmptyString) (parse_chars fuel' r)
      end
  end.

Definition parse_string (s : string) : option (string * string) :=
  parse_chars (S (String.length s)) s.

Fixpoint strip_prefix (pre s : string) : option string :=
  match pre, s with
  | EmptyString, _ => Some s
  | String a p, String b r => if Ascii.eqb a b then strip_prefix p r else None
  | _, EmptyString => None
  end.

Fixpoint parse_value (fuel : nat) (s : string) : option (jsval * string) :=
  match fuel with
  | O => None
  | S fuel' =>
      match skip_ws s with
      | EmptyString => None
      | String c r as s0 =>
          if is_chr c 123 then
            match skip_ws r with
            | EmptyString => None
            | String c1 r1 as r0 =>
                if is_chr c1 125 then Some (JObj [], r1)
                else parse_members fuel' r0 []
            end
          else if is_chr c 91 then
            match skip_ws r with
            | EmptyString => None
            | String c1 r1 as r0 =>
                if is_chr c1 93 then Some (JArr [], r1)
                else parse_elements fuel' r0 []
            end
          else if is_chr c 34 then
            match parse_string r with
            | Some (str, r1) => Some (JStr str, r1)
            | None => None
            end
          else
            match strip_prefix "true" s0, strip_prefix "false" s0,
                  strip_prefix "null" s0 with
            | Some r1, _, _ => Some (JBool true, r1)
            | _, Some r1, _ => Some (JBool false, r1)
            | _, _, Some r1 => Some (JNull, r1)
            | None, None, None => parse_number s0
            end
      end
  end
with parse_elements (fuel : nat) (s : string) (acc : list jsval)
  : option (jsval * string) :=
  match fuel with
  | O => None
  | S fuel' =>
      match parse_value fuel' s with
      | None => None
      | Some (v, r) =>
          match skip_ws r with
          | EmptyString => None
          | String c r1 =>
              if is_chr c 44 then parse_elements fuel' r1 (v :: acc)
              else if is_chr c 93 then Some (JArr (rev (v :: acc)), r1)
              else None
          end
      end
  end
with parse_members (fuel : nat) (s : string) (acc : list (string * jsval))
  : option (jsval * string) :=
  match fuel with
  | O => None
  | S fuel' =>
      match skip_ws s with
      | EmptyString => None
      | String q r =>
          if is_chr q 34 then
            match parse_string r with
            | None => None
            | Some (k, r1) =>
                match skip_ws r1 with
                | EmptyString => None
                | String c r2 =>
                    if is_chr c 58 then
                      match parse_value fuel' r2 with
                      | None => None
                      | Some (v, r3) =>
                          match skip_ws r3 with
                          | EmptyString => None
                          | String c1 r4 =>
                              if is_chr c1 44 then
                                parse_members fuel' r4 ((k, v) :: acc)
                              else if is_chr c1 125 then
                                Some (JObj (rev ((k, v) :: acc)), r4)
                              else None
                          end
                      end
                    else None
                end
            end
          else None
      end
  end.

(** [JSON.parse]: one value, white space around it, nothing else. *)
Definition JSON_parse (text : string) : result jsval :=
  match parse_value (2 * String.length text + 2) text with
  | Some (v, r) => if is_empty (skip_ws r) then Ok v else Throw SyntaxError
  | None => Throw SyntaxError
  end.

(** Reading a member.  When a name occurs twice the later one counts.  Only
    names that no builtin prototype defines are read by the program
    ([id], [username], [first_name], ...), so a value that is not an object
    answers [undefined]; reading from [null] raises. *)
Fixpoint lookup_member (ms : list (string * jsval)) (name : string) : option jsval :=
  match ms with
  | [] => None
  | (k, v) :: r =>
      match lookup_member r name with
      | Some later => Some later
      | None => if String.eqb k name then Some v else None
      end
  end.

Definition get_prop (v : jsval) (name : string) : result jsval :=
  match v with
  | JUndefined | JNull => Throw TypeError
  | JObj ms =>
      Ok (match lookup_member ms name with Some x => x | None => JUndefined end)
  | _ => Ok JUndefined
  end.

(** Truthiness.  A number is falsy when it is zero as a binary64 value: its
    mantissa is zero, or it is so small that it rounds to zero (at most half
    of the least subnormal, [2^-1075]). *)
Definition is_zero_number (m e : Z) : bool :=
  (m =? 0) || ((e <? 0) && (Z.abs m * 2 ^ 1075 <=? 10 ^ (- e))).

Definition truthy (v : jsval) : bool :=
  match v with
  | JUndefined | JNull => false
  | JBool b => b
  | JNum _ m e => negb (is_zero_number m e)
  | JStr s => negb (is_empty s)
  | JArr _ | JObj _ => true
  end.

(** [a || b] *)
Definition js_or (a b : jsval) : jsval := if truthy a then a else b.

End Host.

(** [String.prototype.localeCompare] follows the collation tables of the
    runtime's locale; the development is parametric in it. *)
Class Locale := localeCompare : string -> string -> Z.

(* ================================================================== *)
(** * config/constants.js *)
(* ================================================================== *)

Module GAME.
Definition MIN_DURATION_MS : Z := 1000.
Definition MAX_DURATION_MS : Z := 3600000.
Definition MAX_SCORE_PER_MINUTE : Z := 100000.
Definition MAX_HITS_PER_MINUTE : Z := 120.
Definition MAX_COMBO : Z := 100.
Definition MAX_SCORE : Z := 10000000.
End GAME.

Module PAGINATION.
Definition DEFAULT_LIMIT : Z := 10.
Definition MAX_LIMIT : Z := 100.
End PAGINATION.

Module HTTP.
Definition OK : Z := 200.
Definition CREATED : Z := 201.
Definition BAD_REQUEST : Z := 400.
Definition UNAUTHORIZED : Z := 401.
Definition NOT_FOUND : Z := 404.
Definition TOO_MANY_REQUESTS : Z := 429.
Definition INTERNAL_ERROR : Z := 500.
End HTTP.

(* ================================================================== *)
(** * middleware/telegramAuth.js *)
(* ================================================================== *)

Module TelegramAuth.
Import Host.

(** [!x] on a value that is a string or missing: true for [undefined],
    [null] and the empty string. *)
Definition falsy (x : option string) : bool :=
  match x with
  | None => true
  | Some s => is_empty s
  end.

Definition newline : string := String (chr 10) EmptyString.

Section Verifier.
Context {L : Locale}.

(** The [try] block of [verifyTelegramWebAppData]. *)
Definition verify_try (initData botToken : string) : result bool :=
  let urlParams := URLSearchParams initData in
  let hash := get urlParams "hash" in
  if falsy hash then Ok false
  else
    let urlParams := delete urlParams "hash" in
    let dataCheckString :=
      join newline
        (map (fun kv => (fst kv ++ "=" ++ snd kv)%string)
             (sort (fun a b => localeCompare (fst a) (fst b)) urlParams)) in
    let secretKey :=
      hmac_sha256 (bytes_of_string "WebAppData") (bytes_of_string botToken) in
    let calculatedHash :=
      hex_encode (hmac_sha256 secretKey (bytes_of_string dataCheckString)) in
    timingSafeEqual
      (hex_decode (match hash with Some h => h | None => EmptyString end))
      (hex_decode calculatedHash).

Definition verifyTelegramWebAppData (initData botToken : option string) : bool :=
  match initData, botToken with
  | Some d, Some t =>
      if falsy initData || falsy botToken then false
      else match verify_try d t with
           | Ok b => b
           | Throw _ => false
           end
  | _, _ => false
  end.
End Verifier.

Record telegram_user := {
  telegramId : jsval;
  username : jsval;
  firstName : jsval;
  lastName : jsval;
  languageCode : jsval;
  isPremium : jsval
}.

(** The [try] block of [extractTelegramUser]; [None] is [null]. *)
Definition extract_try (initData : string) : result (option telegram_user) :=
  let urlParams := URLSearchParams initData in
  let userJson := get urlParams "user" in
  match userJson with
  | None => Ok None
  | Some json =>
      if is_empty json then Ok None
      else
        rbind (JSON_parse json) (fun user =>
        rbind (get_prop user "id") (fun id =>
        rbind (get_prop user "username") (fun uname =>
        rbind (get_prop user "first_name") (fun first =>
        rbind (get_prop user "last_name") (fun last =>
        rbind (get_prop user "language_code") (fun lang =>
        rbind (get_prop user "is_premium") (fun premium =>
          Ok (Some {| telegramId := id;
                      username := js_or uname JNull;
                      firstName := js_or first (JStr EmptyString);
                      lastName := js_or last (JStr EmptyString);
                      languageCode := js_or lang (JStr "en");
                      isPremium := js_or premium (JBool false) |}))))))))
  end.

Definition extractTelegramUser (initData : option string) : option telegram_user :=
  match initData with
  | None => None
  | Some d =>
      if is_empty d then None
      else match extract_try d with
           | Ok u => u
           | Throw _ => None
           end
  end.

(** [process.env] as far as the program reads it. *)
Record environment := {
  NODE_ENV : option string;
  SKIP_TELEGRAM_VERIFY : option string;
  ALLOW_SESSION_AUTH : option string;
  BOT_TOKEN : option string
}.

Definition env_is (v : option string) (s : string) : bool :=
  match v with
  | Some x => String.eqb x s
  | None => false
  end.

Inductive auth_method := ViaTelegram | ViaSession.

(** What the middleware leaves on [req] when it calls [next()]. *)
Record auth_info := {
  req_telegramUser : option telegram_user;
  req_sessionId : option string;
  req_authMethod : option auth_method
}.

Inductive middleware_result :=
| Next (req : auth_info)
| Respond (status : Z) (error : string).

Section Middleware.
Context {L : Locale}.

Definition telegramAuthMiddleware (env : environment)
    (initData sessionId : option string) : middleware_result :=
  let botToken := BOT_TOKEN env in
  let isDev := env_is (NODE_ENV env) "development" in
  let skipVerify := env_is (SKIP_TELEGRAM_VERIFY env) "true" in
  if negb (falsy initData) then
    let rejected :=
      if negb isDev && negb skipVerify then
        if falsy botToken then
          Some (Respond HTTP.INTERNAL_ERROR "Server configuration error")
        else if negb (verifyTelegramWebAppData initData botToken) then
          Some (Respond HTTP.UNAUTHORIZED "Invalid Telegram authentication")
        else None
      else None in
    match rejected with
    | Some response => response
    | None =>
        match extractTelegramUser initData with
        | None => Respond HTTP.BAD_REQUEST "Could not extract user data"
        | Some telegramUser =>
            Next {| req_telegramUser := Some telegramUser;
                    req_sessionId := None;
                    req_authMethod := Some ViaTelegram |}
        end
    end
  else if negb (falsy sessionId) then
    let allowSessionAuth := isDev || env_is (ALLOW_SESSION_AUTH env) "true" in
    if negb allowSessionAuth then
      Respond HTTP.UNAUTHORIZED "Session authentication not allowed in production"
    else
      Next {| req_telegramUser := None;
              req_sessionId := sessionId;
              req_authMethod := Some ViaSession |}
  else Respond HTTP.UNAUTHORIZED "Authentication required".

(** The non-blocking variant: it always calls [next()]. *)
Definition optionalTelegramAuth (env : environment)
    (initData sessionId : option string) : auth_info :=
  let botToken := BOT_TOKEN env in
  let isDev := env_is (NODE_ENV env) "development" in
  if negb (falsy initData) then
    if isDev || falsy botToken || verifyTelegramWebAppData initData botToken then
      {| req_telegramUser := extractTelegramUser initData;
         req_sessionId := None;
         req_authMethod := Some ViaTelegram |}
    else
      {| req_telegramUser := None; req_sessionId := None; req_authMethod := None |}
  else if negb (falsy sessionId) then
    {| req_telegramUser := None;
       req_sessionId := sessionId;
       req_authMethod := Some ViaSession |}
  else
    {| req_telegramUser := None; req_sessionId := None; req_authMethod := None |}.
End Middleware.

End TelegramAuth.

(* ================================================================== *)
(** * middleware/validation.js *)
(* ================================================================== *)

Module Validation.
Import Host.

(** A field that the chain marks [optional()]: it is absent from the body,
    or it holds JSON [null], or it holds a value.  Only an absent field is
    skipped by the chain; [null] is validated like a value, as the empty
    text, and fails. *)
Inductive optional_field (A : Type) :=
| Absent
| Null
| Given (value : A).
Arguments Absent {A}.
Arguments Null {A}.
Arguments Given {A} value.

(** The body of [POST /api/scores].  The numeric fields hold the integers
    that [isInt] accepted and [toInt] produced. *)
Record game_result := {
  sessionId_field : optional_field string;
  telegramId_field : optional_field Z;
  initData : option string;
  score : Z;
  targetsHit : Z;
  shotsFired : Z;
  maxCombo : Z;
  durationMs : Z;
  gameMode_field : optional_field string
}.

(** What the handler reads from an optional field: [None] stands for
    [undefined] and for [null]. *)
Definition read {A : Type} (f : optional_field A) : option A :=
  match f with
  | Given value => Some value
  | Absent | Null => None
  end.

Definition sessionId (b : game_result) : option string := read (sessionId_field b).
Definition telegramId (b : game_result) : option Z := read (telegramId_field b).
Definition gameMode (b : game_result) : option string := read (gameMode_field b).

(** [isUUID(4)]: 8-4-4-4-12 hexadecimal digits, case-insensitive, the third
    group starting with [4] and the fourth with one of [8 9 a b]. *)
Inductive uuid_slot := Hex | Dash | Four | Variant.

Definition slot_ok (k : uuid_slot) (c : ascii) : bool :=
  match k with
  | Hex => match unhex c with Some _ => true | None => false end
  | Dash => is_chr c 45
  | Four => is_chr c 52
  | Variant =>
      match unhex c with
      | Some v => (8 <=? v) && (v <=? 11)
      | None => false
      end
  end.

Definition uuid4_shape : list uuid_slot :=
  repeat Hex 8 ++ [Dash] ++ repeat Hex 4 ++ [Dash; Four] ++ repeat Hex 3
    ++ [Dash; Variant] ++ repeat Hex 3 ++ [Dash] ++ repeat Hex 12.

Fixpoint matches_shape (shape : list uuid_slot) (s : string) : bool :=
  match shape, s with
  | [], EmptyString => true
  | k :: shape', String c r => slot_ok k c && matches_shape shape' r
  | _, _ => false
  end.

Definition isUUID4 (s : string) : bool := matches_shape uuid4_shape s.

Definition in_range (lo hi x : Z) : bool := (lo <=? x) && (x <=? hi).

Definition game_modes : list string := ["endless"; "timed"; "accuracy"; "survival"].

Definition isIn (values : list string) (s : string) : bool :=
  existsb (String.eqb s) values.

(** The field checks of the validation chain, in their order; each failing
    one contributes its field name. *)
Definition field_errors (b : game_result) : list string :=
  (match sessionId_field b with
   | Given s => if isUUID4 s then [] else ["sessionId"]
   | Null => ["sessionId"]
   | Absent => []
   end)
  ++ (match telegramId_field b with
      | Given t => if 1 <=? t then [] else ["telegramId"]
      | Null => ["telegramId"]
      | Absent => []
      end)
  ++ (if in_range 0 GAME.MAX_SCORE (score b) then [] else ["score"])
  ++ (if in_range 0 10000 (targetsHit b) then [] else ["targetsHit"])
  ++ (if in_range 0 50000 (shotsFired b) then [] else ["shotsFired"])
  ++ (if in_range 1 GAME.MAX_COMBO (maxCombo b) then [] else ["maxCombo"])
  ++ (if in_range GAME.MIN_DURATION_MS GAME.MAX_DURATION_MS (durationMs b)
      then [] else ["durationMs"])
  ++ (match gameMode_field b with
      | Given m => if isIn game_modes m then [] else ["gameMode"]
      | Null => ["gameMode"]
      | Absent => []
      end).

Inductive verdict :=
| Pass
| Reject (status : Z) (error : string) (fields : list string).

Definition handleValidationErrors (errors : list string) : verdict :=
  match errors with
  | [] => Pass
  | _ => Reject HTTP.BAD_REQUEST "Ошибка валидации" errors
  end.

(** A JavaScript number from an integer: exact below [2^53] in magnitude. *)
Definition num (z : Z) : float :=
  if z <? 0 then PrimFloat.opp (PrimFloat.of_uint63 (Uint63.of_Z (- z)))
  else PrimFloat.of_uint63 (Uint63.of_Z z).

Definition MIN_DURATION_FOR_ANTICHEAT : Z := 10000.

Definition error_score_rate : string :=
  "Подозрительная активность: слишком высокий счёт".
Definition error_hits_rate : string :=
  "Подозрительная активность: слишком много попаданий".
Definition error_hits_exceed_shots : string :=
  "Некорректные данные: попаданий больше выстрелов".

Definition durationMin (b : game_result) : float :=
  (num (durationMs b) / num 60000)%float.
Definition scorePerMin (b : game_result) : float :=
  (num (score b) / durationMin b)%float.
Definition hitsPerMin (b : game_result) : float :=
  (num (targetsHit b) / durationMin b)%float.

(** The last middleware of [validateGameResult]: the two rates first, for
    games of ten seconds and more, then hits against shots. *)
Definition antiCheat (b : game_result) : verdict :=
  let rates :=
    if (MIN_DURATION_FOR_ANTICHEAT <=? durationMs b)
       && PrimFloat.ltb 0 (durationMin b) then
      if PrimFloat.ltb (num GAME.MAX_SCORE_PER_MINUTE) (scorePerMin b) then
        Some (Reject HTTP.BAD_REQUEST error_score_rate [])
      else if PrimFloat.ltb (num GAME.MAX_HITS_PER_MINUTE) (hitsPerMin b) then
        Some (Reject HTTP.BAD_REQUEST error_hits_rate [])
      else None
    else None in
  match rates with
  | Some rejection => rejection
  | None =>
      if (0 <? shotsFired b) && (shotsFired b <? targetsHit b) then
        Reject HTTP.BAD_REQUEST error_hits_exceed_shots []
      else Pass
  end.

Definition validateGameResult (b : game_result) : verdict :=
  match handleValidationErrors (field_errors b) with
  | Pass => antiCheat b
  | rejection => rejection
  end.

End Validation.

(* ================================================================== *)
(** * config/database.js: the two tables and the statements run on them *)
(* ================================================================== *)

Module Database.
Import Host.

(** [users]: [id] is the primary key, [session_id] and [telegram_id] are
    unique.  Time stamps are seconds. *)
Record user_row := {
  u_id : Z;
  u_session_id : string;
  u_username : option string;
  u_telegram_id : option Z;
  u_created_at : Z;
  u_updated_at : Z
}.

(** [scores]: [accuracy] is [DECIMAL(5,4)], held in units of 1/10000. *)
Record score_row := {
  s_id : Z;
  s_user_id : Z;
  s_score : Z;
  s_targets_hit : Z;
  s_shots_fired : Z;
  s_accuracy : Z;
  s_max_combo : Z;
  s_duration_ms : Z;
  s_game_mode : string;
  s_created_at : Z
}.

(** The store: both tables in storage order, the two [AUTO_INCREMENT]
    counters, [CURRENT_TIMESTAMP], and the values [UUID()] returns. *)
Record db := {
  users : list user_row;
  scores : list score_row;
  next_user_id : Z;
  next_score_id : Z;
  clock : Z;
  uuid_source : nat -> string;
  uuid_drawn : nat
}.

(** The errors a statement can fail with.  The last two are those of the
    server's strict mode, its default: a number outside the range of its
    column, a text longer than its column. *)
Inductive db_error :=
| ER_DUP_ENTRY
| ER_NO_REFERENCED_ROW
| ER_WARN_DATA_OUT_OF_RANGE
| ER_DATA_TOO_LONG.

(** [BIGINT UNSIGNED], the type of [users.telegram_id]. *)
Definition fits_bigint_unsigned (v : Z) : bool := (0 <=? v) && (v <? 2 ^ 64).

(** The number of characters of a text held as UTF-8: the bytes that do not
    continue a sequence. *)
Fixpoint characters (s : string) : Z :=
  match s with
  | EmptyString => 0
  | String c r =>
      (if (128 <=? byte_of_ascii c) && (byte_of_ascii c <? 192) then 0 else 1)
      + characters r
  end.

(** The first [n] characters of a text, and what follows them. *)
Fixpoint split_characters (n : nat) (s : string) : string * string :=
  match s with
  | EmptyString => (EmptyString, EmptyString)
  | String c r =>
      if (128 <=? byte_of_ascii c) && (byte_of_ascii c <? 192) then
        let (a, b) := split_characters n r in (String c a, b)
      else
        match n with
        | O => (EmptyString, s)
        | S m => let (a, b) := split_characters m r in (String c a, b)
        end
  end.

Fixpoint all_spaces (s : string) : bool :=
  match s with
  | EmptyString => true
  | String c r => (byte_of_ascii c =? 32) && all_spaces r
  end.

(** [VARCHAR(n)]: a text of at most [n] characters is stored as it is; of a
    longer one whose characters beyond the [n]-th are all spaces the first
    [n] characters are stored, with a warning; any other is refused. *)
Definition fits_varchar (n : Z) (s : string) : bool :=
  all_spaces (snd (split_characters (Z.to_nat n) s)).

Definition stored_varchar (n : Z) (s : string) : string :=
  fst (split_characters (Z.to_nat n) s).

(** [users.username VARCHAR(32) DEFAULT NULL] *)
Definition fits_username (name : option string) : bool :=
  match name with
  | Some n => fits_varchar 32 n
  | None => true
  end.

Definition stored_username (name : option string) : option string :=
  option_map (stored_varchar 32) name.

Definition has_telegram (tid : Z) (u : user_row) : bool :=
  match u_telegram_id u with
  | Some t => t =? tid
  | None => false
  end.

(** The tables are [utf8mb4_unicode_ci]: texts are compared without regard
    to case nor to spaces at the end.  The session ids the routes send and
    [UUID()] returns are ASCII (hexadecimal digits and dashes), and on ASCII
    texts the collation is the comparison of the texts in lower case, spaces
    at the end left off. *)
Fixpoint without_trailing_spaces (s : string) : string :=
  match s with
  | EmptyString => EmptyString
  | String c r =>
      match without_trailing_spaces r with
      | EmptyString => if byte_of_ascii c =? 32 then EmptyString
                       else String c EmptyString
      | kept => String c kept
      end
  end.

Definition collation_key (s : string) : string :=
  toLowerCase (without_trailing_spaces s).

Definition has_session (sid : string) (u : user_row) : bool :=
  String.eqb (collation_key (u_session_id u)) (collation_key sid).

(** A quotient rounded half up to four decimals, in units of 1/10000: what
    the [accuracy] column keeps of [num / den]. *)
Definition decimal_5_4 (num den : Z) : Z :=
  if den <=? 0 then 0 else (20000 * num + den) / (2 * den).

(** The statements the two routers send, each with the type of its result. *)
Inductive query : Type -> Type :=
| SelectUserByTelegram (tid : Z) : query (option user_row)
| SelectUserBySession (sid : string) : query (option user_row)
    (** [INSERT INTO users (telegram_id, session_id) VALUES (?, UUID())] *)
| InsertUserTelegram (tid : Z) : query Z
    (** [INSERT INTO users (session_id) VALUES (?)] *)
| InsertUserSession (sid : string) : query Z
    (** [INSERT INTO users (telegram_id, username, session_id)
         VALUES (?, ?, UUID()) ON DUPLICATE KEY UPDATE ...] *)
| UpsertUserTelegram (tid : Z) (username : option string) : query unit
| UpdateUsernameByTelegram (username : string) (tid : Z) : query unit
| InsertScore (user_id score targets_hit shots_fired acc_num acc_den
               max_combo duration_ms : Z) (game_mode : string) : query Z
    (** [SELECT COUNT( * ) + 1 FROM scores WHERE score > ?] *)
| RankOfScore (score : Z) : query Z
    (** [COUNT( * )], [COALESCE(MAX(score), 0)], [COALESCE(SUM(targets_hit), 0)] *)
| UserStats (user_id : Z) : query (Z * Z * Z).

Definition draw_uuid (d : db) : string := uuid_source d (uuid_drawn d).

Definition add_user (d : db) (sid : string) (name : option string)
    (tid : option Z) : db :=
  {| users := users d ++ [ {| u_id := next_user_id d;
                              u_session_id := sid;
                              u_username := name;
                              u_telegram_id := tid;
                              u_created_at := clock d;
                              u_updated_at := clock d |} ];
     scores := scores d;
     next_user_id := next_user_id d + 1;
     next_score_id := next_score_id d;
     clock := clock d;
     uuid_source := uuid_source d;
     uuid_drawn := uuid_drawn d |}.

Definition with_users (d : db) (us : list user_row) : db :=
  {| users := us;
     scores := scores d;
     next_user_id := next_user_id d;
     next_score_id := next_score_id d;
     clock := clock d;
     uuid_source := uuid_source d;
     uuid_drawn := uuid_drawn d |}.

Definition after_uuid (d : db) : db :=
  {| users := users d;
     scores := scores d;
     next_user_id := next_user_id d;
     next_score_id := next_score_id d;
     clock := clock d;
     uuid_source := uuid_source d;
     uuid_drawn := S (uuid_drawn d) |}.

Definition add_score (d : db) (r : score_row) : db :=
  {| users := users d;
     scores := scores d ++ [r];
     next_user_id := next_user_id d;
     next_score_id := next_score_id d + 1;
     clock := clock d;
     uuid_source := uuid_source d;
     uuid_drawn := uuid_drawn d |}.

(** Does a new row with these keys collide with a unique index? *)
Definition collides (d : db) (sid : string) (tid : option Z) : bool :=
  existsb (fun u => has_session sid u
                    || match tid with
                       | Some t => has_telegram t u
                       | None => false
                       end) (users d).

Definition set_username (name : option string) (now : Z) (u : user_row) : user_row :=
  {| u_id := u_id u;
     u_session_id := u_session_id u;
     u_username := name;
     u_telegram_id := u_telegram_id u;
     u_created_at := u_created_at u;
     u_updated_at := now |}.

(** Rewrites the first row that satisfies [hit]. *)
Fixpoint update_first (hit : user_row -> bool) (f : user_row -> user_row)
    (us : list user_row) : list user_row :=
  match us with
  | [] => []
  | u :: r => if hit u then f u :: r else u :: update_first hit f r
  end.

Definition max_list (l : list Z) : Z := fold_right Z.max 0 l.
Definition sum_list (l : list Z) : Z := fold_right Z.add 0 l.

Definition scores_of (uid : Z) (d : db) : list score_row :=
  filter (fun r => s_user_id r =? uid) (scores d).

Definition exec {A : Type} (q : query A) (d : db) : (db_error + A) * db :=
  match q in query T return (db_error + T) * db with
  | SelectUserByTelegram tid => (inr (find (has_telegram tid) (users d)), d)
  | SelectUserBySession sid => (inr (find (has_session sid) (users d)), d)
  | InsertUserTelegram tid =>
      let sid := draw_uuid d in
      let d1 := after_uuid d in
      if negb (fits_bigint_unsigned tid) then (inl ER_WARN_DATA_OUT_OF_RANGE, d1)
      else if collides d sid (Some tid) then (inl ER_DUP_ENTRY, d1)
      else (inr (next_user_id d), add_user d1 sid None (Some tid))
  | InsertUserSession sid =>
      let session_id := stored_varchar 36 sid in
      if negb (fits_varchar 36 sid) then (inl ER_DATA_TOO_LONG, d)
      else if collides d session_id None then (inl ER_DUP_ENTRY, d)
      else (inr (next_user_id d), add_user d session_id None None)
  | UpsertUserTelegram tid name =>
      let sid := draw_uuid d in
      let d1 := after_uuid d in
      let hit := fun u => has_session sid u || has_telegram tid u in
      let username := stored_username name in
      if negb (fits_bigint_unsigned tid) then (inl ER_WARN_DATA_OUT_OF_RANGE, d1)
      else if negb (fits_username name) then (inl ER_DATA_TOO_LONG, d1)
      else if collides d sid (Some tid) then
        (inr tt,
         with_users d1 (update_first hit (set_username username (clock d)) (users d)))
      else (inr tt, add_user d1 sid username (Some tid))
  | UpdateUsernameByTelegram name tid =>
      let username := stored_varchar 32 name in
      if existsb (has_telegram tid) (users d) && negb (fits_varchar 32 name) then
        (inl ER_DATA_TOO_LONG, d)
      else
        (inr tt, with_users d (map (fun u => if has_telegram tid u
                                             then set_username (Some username) (clock d) u
                                             else u) (users d)))
  | InsertScore uid sc th sf an ad mc dur mode =>
      if existsb (fun u => u_id u =? uid) (users d) then
        (inr (next_score_id d),
         add_score d {| s_id := next_score_id d;
                        s_user_id := uid;
                        s_score := sc;
                        s_targets_hit := th;
                        s_shots_fired := sf;
                        s_accuracy := decimal_5_4 an ad;
                        s_max_combo := mc;
                        s_duration_ms := dur;
                        s_game_mode := mode;
                        s_created_at := clock d |})
      else (inl ER_NO_REFERENCED_ROW, d)
  | RankOfScore sc =>
      (inr (Z.of_nat (List.length (filter (fun r => sc <? s_score r) (scores d))) + 1), d)
  | UserStats uid =>
      let mine := scores_of uid d in
      (inr (Z.of_nat (List.length mine),
            max_list (map s_score mine),
            sum_list (map s_targets_hit mine)), d)
  end.

(** ** Handlers as programs over the store

    A handler is a sequence of statements, each [await db.query(...)] being
    a point where another request may run. *)
Inductive prog (R : Type) : Type :=
| Ret (r : R)
| Do {A : Type} (q : query A) (k : A -> prog R).
Arguments Ret {R} r.
Arguments Do {R A} q k.

Fixpoint bind {R S : Type} (p : prog R) (f : R -> prog S) : prog S :=
  match p with
  | Ret r => f r
  | Do q k => Do q (fun a => bind (k a) f)
  end.

(** Running a handler alone.  A statement that fails ends it: the handler's
    [catch] passes the error on. *)
Fixpoint run {R : Type} (p : prog R) (d : db) : (db_error + R) * db :=
  match p with
  | Ret r => (inr r, d)
  | Do q k =>
      match exec q d with
      | (inl e, d') => (inl e, d')
      | (inr a, d') => run (k a) d'
      end
  end.

(** Running two handlers against one store, a statement at a time. *)
Inductive thread (R : Type) : Type :=
| Running (p : prog R)
| Failed (e : db_error).
Arguments Running {R} p.
Arguments Failed {R} e.

Definition step {R : Type} (t : thread R) (d : db) : thread R * db :=
  match t with
  | Running (Do q k) =>
      match exec q d with
      | (inl e, d') => (Failed e, d')
      | (inr a, d') => (Running (k a), d')
      end
  | _ => (t, d)
  end.

(** [true] lets the first request take a step, [false] the second. *)
Fixpoint interleave {R : Type} (schedule : list bool) (a b : thread R) (d : db)
  : thread R * thread R * db :=
  match schedule with
  | [] => (a, b, d)
  | true :: rest => let (a', d') := step a d in interleave rest a' b d'
  | false :: rest => let (b', d') := step b d in interleave rest a b' d'
  end.

End Database.

(* ================================================================== *)
(** * routes/scores.js *)
(* ================================================================== *)

Module Scores.
Import Host Database Validation.

Inductive payload :=
| Failure (error : string) (fields : list string)
| InternalError (cause : db_error)
    (** [scoreId], [rank], [score], [targetsHit], [maxCombo]; the rounded
        accuracy that is echoed with them is left out. *)
| ScoreSaved (scoreId rank score targetsHit maxCombo : Z).

Record response := { status : Z; body : payload }.

(** ** [POST /api/scores] *)

(** The end of the handler: stores the result for [userId], then counts the
    rows whose score is above it. *)
Definition storeResult (b : game_result) (userId : Z) : prog response :=
  let accuracy :=
    if 0 <? shotsFired b then (targetsHit b, shotsFired b) else (0, 1) in
  let mode := match gameMode b with Some m => m | None => "endless" end in
  Do (InsertScore userId (score b) (targetsHit b) (shotsFired b)
                  (fst accuracy) (snd accuracy) (maxCombo b) (durationMs b) mode)
     (fun insertId =>
  Do (RankOfScore (score b))
     (fun rank =>
  Ret {| status := HTTP.CREATED;
         body := ScoreSaved insertId (if rank =? 0 then 1 else rank)
                            (score b) (targetsHit b) (maxCombo b) |})).

Definition credentials_required : response :=
  {| status := HTTP.BAD_REQUEST;
     body := Failure "telegramId or sessionId required" [] |}.

(** The handler proper: the user is looked up by Telegram id first, else by
    session id, and created with a plain [INSERT] when not found. *)
Definition saveScore (b : game_result) : prog response :=
  let by_session : prog response :=
    match sessionId b with
    | Some sid =>
        if is_empty sid then Ret credentials_required
        else
          Do (SelectUserBySession sid) (fun user =>
            match user with
            | None => Do (InsertUserSession sid) (storeResult b)
            | Some u => storeResult b (u_id u)
            end)
    | None => Ret credentials_required
    end in
  match telegramId b with
  | Some tid =>
      if tid =? 0 then by_session
      else
        Do (SelectUserByTelegram tid) (fun user =>
          match user with
          | None => Do (InsertUserTelegram tid) (storeResult b)
          | Some u => storeResult b (u_id u)
          end)
  | None => by_session
  end.

(** What the error handler answers when a statement failed. *)
Definition errorHandler (e : db_error) : response :=
  {| status := HTTP.INTERNAL_ERROR; body := InternalError e |}.

(** The route: [createScoreLimiter()], [validateGameResult], the handler.
    [limiter_allows] is the limiter's verdict on this request. *)
Definition postScores (limiter_allows : bool) (b : game_result) (d : db)
  : response * db :=
  if negb limiter_allows then
    ({| status := HTTP.TOO_MANY_REQUESTS;
        body := Failure "Слишком частая отправка результатов." [] |}, d)
  else
    match validateGameResult b with
    | Reject st err fields => ({| status := st; body := Failure err fields |}, d)
    | Pass =>
        match run (saveScore b) d with
        | (inr resp, d') => (resp, d')
        | (inl e, d') => (errorHandler e, d')
        end
    end.

(** ** [getSafeInt] *)

(** [parseInt(s, 10)]: leading white space, an optional sign, then the
    longest run of digits; [None] is [NaN]. *)
Definition is_space (c : ascii) : bool :=
  is_chr c 32 || ((9 <=? byte_of_ascii c) && (byte_of_ascii c <=? 13)).

Fixpoint skip_space (s : string) : string :=
  match s with
  | String c r => if is_space c then skip_space r else s
  | EmptyString => s
  end.

Definition parseInt (s : string) : option Z :=
  let s1 := skip_space s in
  let '(neg, s2) :=
    match s1 with
    | String c r =>
        if is_chr c 45 then (true, r)
        else if is_chr c 43 then (false, r) else (false, s1)
    | EmptyString => (false, s1)
    end in
  let '(v, n, _) := take_digits s2 0 0 in
  if n =? 0 then None else Some (if neg then - v else v).

Definition getSafeInt (value : option string) (defaultVal min max : Z) : Z :=
  match value with
  | None => defaultVal
  | Some s =>
      match parseInt s with
      | None => defaultVal
      | Some num => if (num <? min) || (max <? num) then defaultVal else num
      end
  end.

(** ** [GET /api/scores/leaderboard] *)

Inductive board := ByScore | ByHits | ByAccuracy.

(** [ALLOWED_TYPES.includes(type) ? type : 'score'] *)
Definition board_of (type : option string) : board :=
  match type with
  | Some t =>
      if String.eqb t "hits" then ByHits
      else if String.eqb t "accuracy" then ByAccuracy
      else ByScore
  | None => ByScore
  end.

Definition key (t : board) (r : score_row) : Z :=
  match t with
  | ByScore => s_score r
  | ByHits => s_targets_hit r
  | ByAccuracy => s_accuracy r
  end.

(** The accuracy board only looks at results with ten shots or more. *)
Definition eligible (t : board) (r : score_row) : bool :=
  match t with
  | ByAccuracy => 10 <=? s_shots_fired r
  | _ => true
  end.

(** [ORDER BY], with a comparison that is negative or zero when the first
    row may stand before the second.  What the server promises of its answer
    is [ordered_by]: the same rows, none standing after a row it must
    precede; among rows that compare equal it is free. *)
Definition ordered_by {A : Type} (cmp : A -> A -> Z) (rows answer : list A) : Prop :=
  Permutation answer rows /\ StronglySorted (fun a b => cmp a b <= 0) answer.

(** One such answer, the one used where a handler is run: rows that compare
    equal keep storage order. *)
Definition order_by {A : Type} (cmp : A -> A -> Z) (rows : list A) : list A :=
  sort cmp rows.

(** [ORDER BY key DESC, created_at DESC] *)
Definition best_first (t : board) (a b : score_row) : Z :=
  if key t a =? key t b then s_created_at b - s_created_at a
  else key t b - key t a.

(** [ORDER BY key DESC] *)
Definition key_desc (t : board) (a b : score_row * user_row) : Z :=
  key t (fst b) - key t (fst a).

(** The inner [SELECT s2.id ... LIMIT 1] for one user.  Among results of the
    user that are equal in key and in time the server is free; the one
    stored first is taken here. *)
Definition best_of_user (t : board) (uid : Z) (rows : list score_row) : option Z :=
  match order_by (best_first t)
          (filter (fun r => (s_user_id r =? uid) && eligible t r) rows) with
  | [] => None
  | r :: _ => Some (s_id r)
  end.

Definition is_best (t : board) (rows : list score_row) (s : score_row) : bool :=
  match best_of_user t (s_user_id s) rows with
  | Some i => s_id s =? i
  | None => false
  end.

(** [scores s INNER JOIN users u ON s.user_id = u.id] *)
Definition joined (d : db) : list (score_row * user_row) :=
  flat_map (fun s => map (pair s) (filter (fun u => u_id u =? s_user_id s) (users d)))
           (scores d).

(** The rows that the outer [SELECT] orders. *)
Definition candidates (t : board) (d : db) : list (score_row * user_row) :=
  filter (fun su => eligible t (fst su) && is_best t (scores d) (fst su))
         (joined d).

Definition ranked (t : board) (d : db) : list (score_row * user_row) :=
  order_by (key_desc t)
    (filter (fun su => eligible t (fst su) && is_best t (scores d) (fst su))
            (joined d)).

Definition leaders_query (t : board) (limitNum offsetNum : Z) (d : db)
  : list (score_row * user_row) :=
  firstn (Z.to_nat limitNum) (skipn (Z.to_nat offsetNum) (ranked t d)).

Record leaderboard_query := {
  q_type : option string;
  q_limit : option string;
  q_offset : option string
}.

(** The fields are held as the texts of the query string.  Where the
    handler is handed the number that [toInt] made of an accepted text,
    [parseInt] turns it back into text first; for every value below [10^21]
    that text reads as the same number. *)
Definition limit_of (q : leaderboard_query) : Z :=
  getSafeInt (q_limit q) PAGINATION.DEFAULT_LIMIT 1 PAGINATION.MAX_LIMIT.
Definition offset_of (q : leaderboard_query) : Z :=
  getSafeInt (q_offset q) 0 0 100000.

(** [isInt({min, max})]: an optional sign and one digit or more (leading
    zeros pass, the option [allow_leading_zeroes] being left at its
    default), then the bounds on the value. *)
Fixpoint all_digits (s : string) : bool :=
  match s with
  | EmptyString => true
  | String c r => is_digit c && all_digits r
  end.

Definition int_syntax (s : string) : bool :=
  let digits :=
    match s with
    | String c r => if is_chr c 45 || is_chr c 43 then r else s
    | EmptyString => s
    end in
  match digits with
  | EmptyString => false
  | String c r => is_digit c && all_digits r
  end.

Definition isInt (min : Z) (max : option Z) (s : string) : bool :=
  int_syntax s
  && match parseInt s with
     | Some v => (min <=? v) && match max with Some m => v <=? m | None => true end
     | None => false
     end.

Definition LEADERBOARD_TYPES : list string := ["score"; "hits"; "accuracy"; "duration"].

(** [validateLeaderboardQuery]: the names of the query fields refused. *)
Definition query_errors (q : leaderboard_query) : list string :=
  (match q_type q with
   | Some t => if isIn LEADERBOARD_TYPES t then [] else ["type"]
   | None => []
   end)
  ++ (match q_limit q with
      | Some l => if isInt 1 (Some PAGINATION.MAX_LIMIT) l then [] else ["limit"]
      | None => []
      end)
  ++ (match q_offset q with
      | Some o => if isInt 0 None o then [] else ["offset"]
      | None => []
      end).

Definition validateLeaderboardQuery (q : leaderboard_query) : verdict :=
  handleValidationErrors (query_errors q).

(** The rows of the page, before [rank] is attached to each. *)
Definition leaderboard_page (q : leaderboard_query) (d : db)
  : list (score_row * user_row) :=
  leaders_query (board_of (q_type q)) (limit_of q) (offset_of q) d.

(** [rank: offsetNum + index + 1] *)
Fixpoint with_rank {A : Type} (next : Z) (rows : list A) : list (Z * A) :=
  match rows with
  | [] => []
  | r :: rest => (next, r) :: with_rank (next + 1) rest
  end.

Definition distinct_users (rows : list score_row) : list Z :=
  nodup Z.eq_dec (map s_user_id rows).

Record leaderboard := {
  leaders : list (Z * (score_row * user_row));
  total : Z;
  limit : Z;
  offset : Z;
  hasMore : bool
}.

(** The handler of the route. *)
Definition leaderboardHandler (q : leaderboard_query) (d : db) : leaderboard :=
  let limitNum := limit_of q in
  let offsetNum := offset_of q in
  let total := Z.of_nat (List.length (distinct_users (scores d))) in
  {| leaders := with_rank (offsetNum + 1) (leaderboard_page q d);
     total := total;
     limit := limitNum;
     offset := offsetNum;
     hasMore := offsetNum + limitNum <? total |}.

(** The route: [validateLeaderboardQuery], then the handler. *)
Definition getLeaderboard (q : leaderboard_query) (d : db)
  : (Z * string * list string) + leaderboard :=
  match validateLeaderboardQuery q with
  | Reject st err fields => inl (st, err, fields)
  | Pass => inr (leaderboardHandler q d)
  end.

(** ** The rank statement of the two profile routes

    One more than the number of users whose best score is above this
    user's best score. *)
Definition best_score (uid : Z) (rows : list score_row) : Z :=
  max_list (map s_score (filter (fun r => s_user_id r =? uid) rows)).

Definition profile_rank (uid : Z) (d : db) : Z :=
  let own := best_score uid (scores d) in
  Z.of_nat (List.length (filter (fun u => own <? best_score u (scores d))
                                (distinct_users (scores d)))) + 1.

End Scores.

(* ================================================================== *)
(** * routes/auth.js *)
(* ================================================================== *)

Module Auth.
Import Host Database TelegramAuth.

Inductive gate :=
| Proceed (telegramUser : telegram_user)
| Refuse (status : Z) (error : string).

Section Gate.
Context {L : Locale}.

(** [POST /api/auth/telegram] up to the point where the store is used. *)
Definition postTelegram_gate (env : environment) (initData : option string) : gate :=
  let botToken := BOT_TOKEN env in
  let isDev := env_is (NODE_ENV env) "development" in
  let skipVerify := env_is (SKIP_TELEGRAM_VERIFY env) "true" in
  if falsy initData then Refuse HTTP.BAD_REQUEST "initData is required"
  else
    let rejected :=
      if negb isDev && negb skipVerify then
        if falsy botToken then
          Some (Refuse HTTP.INTERNAL_ERROR "Bot token not configured")
        else if negb (verifyTelegramWebAppData initData botToken) then
          Some (Refuse HTTP.UNAUTHORIZED "Invalid Telegram data")
        else None
      else None in
    match rejected with
    | Some refusal => refusal
    | None =>
        match extractTelegramUser initData with
        | None => Refuse HTTP.BAD_REQUEST "Could not extract user data"
        | Some telegramUser => Proceed telegramUser
        end
    end.
End Gate.

Definition same_name (a : option string) (b : string) : bool :=
  match a with
  | Some x => String.eqb x b
  | None => false
  end.

(** The same route from there on, for a numeric platform id and an optional
    handle: find the user, or create it with the upsert and read it back. *)
Definition findOrCreateUser (telegramId : Z) (username : option string)
  : prog (option user_row) :=
  Do (SelectUserByTelegram telegramId) (fun user =>
    match user with
    | None =>
        Do (UpsertUserTelegram telegramId username) (fun _ =>
        Do (SelectUserByTelegram telegramId) (fun created => Ret created))
    | Some u =>
        match username with
        | Some name =>
            if negb (is_empty name) && negb (same_name (u_username u) name) then
              Do (UpdateUsernameByTelegram name telegramId) (fun _ => Ret (Some u))
            else Ret (Some u)
        | None => Ret (Some u)
        end
    end).

End Auth.

(* ================================================================== *)
(** * middleware/validation.js: the sanitizer; config/constants.js: USER *)
(* ================================================================== *)

(** [sanitizeString] and [USERNAME_PATTERN] work on the UTF-16 code units of
    a string; here such a string is the list of its code units. *)
Module USER.

Definition USERNAME_MIN_LENGTH : Z := 2.
Definition USERNAME_MAX_LENGTH : Z := 32.

(** A code unit of the class [[a-zA-Z0-9_а-яА-ЯёЁ]]. *)
Definition name_unit (u : Z) : bool :=
  ((97 <=? u) && (u <=? 122))
  || ((65 <=? u) && (u <=? 90))
  || ((48 <=? u) && (u <=? 57))
  || (u =? 95)
  || ((1072 <=? u) && (u <=? 1103))
  || ((1040 <=? u) && (u <=? 1071))
  || (u =? 1105)
  || (u =? 1025).

(** [USERNAME_PATTERN.test(s)]: one unit of the class or more, nothing
    else. *)
Definition USERNAME_PATTERN (s : list Z) : bool :=
  match s with
  | [] => false
  | _ => forallb name_unit s
  end.

End USER.

Module Sanitizing.
Import Host.

(** The code units that [String.prototype.trim] strips: white space and
    line terminators. *)
Definition is_white (u : Z) : bool :=
  ((9 <=? u) && (u <=? 13))
  || (u =? 32) || (u =? 160) || (u =? 5760)
  || ((8192 <=? u) && (u <=? 8202))
  || (u =? 8232) || (u =? 8233) || (u =? 8239) || (u =? 8287)
  || (u =? 12288) || (u =? 65279).

Fixpoint trimStart (s : list Z) : list Z :=
  match s with
  | u :: r => if is_white u then trimStart r else s
  | [] => []
  end.

Definition trimEnd (s : list Z) : list Z := rev (trimStart (rev s)).

Definition trim (s : list Z) : list Z := trimEnd (trimStart s).

(** [/[<>]/] *)
Definition is_angle (u : Z) : bool := (u =? 60) || (u =? 62).

(** [/[\x00-\x1f]/] *)
Definition is_control (u : Z) : bool := (0 <=? u) && (u <=? 31).

(** [s.replace(/.../g, '')] for a class of single code units. *)
Definition remove (class : Z -> bool) (s : list Z) : list Z :=
  filter (fun u => negb (class u)) s.

(** [s.substring(0, n)] *)
Definition substring_from_0 (n : nat) (s : list Z) : list Z := firstn n s.

(** A value handed to the sanitizer: a string, or anything else. *)
Inductive field_value :=
| Text (units : list Z)
| Other (v : jsval).

Definition sanitizeString (value : field_value) : field_value :=
  match value with
  | Other _ => value
  | Text s =>
      Text (substring_from_0 1000 (remove is_control (remove is_angle (trim s))))
  end.

End Sanitizing.

(* ================================================================== *)
(** * utils/telegramLogger.js: escapeHtml *)
(* ================================================================== *)

Module TelegramLogger.
Import Host TelegramAuth.

(** [s.replace(/c/g, by)] for one character [c]. *)
Fixpoint replace_char (c : ascii) (by_text : string) (s : string) : string :=
  match s with
  | EmptyString => EmptyString
  | String x r =>
      if Ascii.eqb x c then (by_text ++ replace_char c by_text r)%string
      else String x (replace_char c by_text r)
  end.

(** The text is a string or absent; the three replacements run one after
    the other. *)
Definition escapeHtml (text : option string) : string :=
  if falsy text then EmptyString
  else
    match text with
    | Some t =>
        replace_char ">"%char "&gt;"
          (replace_char "<"%char "&lt;"
             (replace_char "&"%char "&amp;" t))
    | None => EmptyString
    end.

End TelegramLogger.

(* ================================================================== *)
(** * The client: SessionManager.generateUUID *)
(* ================================================================== *)

Module SessionManager.
Import Host.

(** [template.replace(/[xy]/g, c => ...)]: every [x] or [y] of the template
    is replaced by a digit made from the next draw; [random n] is the value
    of the [n]-th evaluation of [Math.random() * 16 | 0]. *)
Fixpoint fill (template : string) (random : nat -> Z) (n : nat) : string :=
  match template with
  | EmptyString => EmptyString
  | String c rest =>
      if Ascii.eqb c "x"%char || Ascii.eqb c "y"%char then
        let r := random n in
        let v := if Ascii.eqb c "x"%char then r else Z.lor (Z.land r 3) 8 in
        String (hex_digit v) (fill rest random (S n))
      else String c (fill rest random n)
  end.

Definition generateUUID (random : nat -> Z) : string :=
  fill "xxxxxxxx-xxxx-4xxx-yxxx-xxxxxxxxxxxx" random 0.

End SessionManager.

(* ================================================================== *)
(** * routes/scores.js: the profile of a session *)
(* ================================================================== *)

Module Profiles.
Import Host Database Validation Scores.

(** The row of the statistics statement.  [avgAccuracy] is left out; the two
    sums are the numbers that the driver sends as decimal strings. *)
Record user_statistics := {
  totalGames : Z;
  bestScore : Z;
  totalHits : Z;
  bestCombo : Z;
  totalPlaytimeMs : Z
}.

Definition statistics (user_id : Z) (d : db) : user_statistics :=
  let mine := scores_of user_id d in
  {| totalGames := Z.of_nat (List.length mine);
     bestScore := max_list (map s_score mine);
     totalHits := sum_list (map s_targets_hit mine);
     bestCombo := max_list (map s_max_combo mine);
     totalPlaytimeMs := sum_list (map s_duration_ms mine) |}.

(** [ORDER BY created_at DESC LIMIT 5]: the rows the recent games are read
    from. *)
Definition recent_games (user_id : Z) (d : db) : list score_row :=
  firstn 5 (order_by (fun a b => s_created_at b - s_created_at a)
                     (scores_of user_id d)).

(** [user.username || `Игрок #${user.id}`] *)
Inductive display_name :=
| Named (username : string)
| PlayerNumber (id : Z).

Record profile := {
  username : display_name;
  rank : Z;
  stats : user_statistics;
  recentGames : list score_row;
  memberSince : Z
}.

Inductive profile_answer :=
| NoProfile (status : Z) (error : string)
| Found (data : profile).

(** [GET /api/scores/user/:sessionId] *)
Definition getUserBySession (sessionId : string) (d : db) : profile_answer :=
  if negb (isUUID4 sessionId) then
    NoProfile HTTP.BAD_REQUEST "Некорректный sessionId"
  else
    match find (has_session sessionId) (users d) with
    | None => NoProfile HTTP.NOT_FOUND "Пользователь не найден"
    | Some user =>
        let rankResult := profile_rank (u_id user) d in
        Found {| username := match u_username user with
                             | Some n => if is_empty n then PlayerNumber (u_id user)
                                         else Named n
                             | None => PlayerNumber (u_id user)
                             end;
                 rank := if rankResult =? 0 then 1 else rankResult;
                 stats := statistics (u_id user) d;
                 recentGames := recent_games (u_id user) d;
                 memberSince := u_created_at user |}
    end.

End Profiles.

(* ================================================================== *)
(** * index.js: the check of the configuration at start *)
(* ================================================================== *)

Module Startup.
Import Host TelegramAuth.

Inductive outcome :=
| Started
| Exited (code : Z).

(** [const NODE_ENV = process.env.NODE_ENV || 'development'] *)
Definition NODE_ENV_or_default (env : environment) : string :=
  if falsy (NODE_ENV env) then "development"
  else match NODE_ENV env with Some v => v | None => "development" end.

(** [validateProductionConfig]: the messages collected in [errors], then
    the exit.  The two warnings change nothing and are left out. *)
Definition config_errors (env : environment) : list string :=
  if String.eqb (NODE_ENV_or_default env) "production" then
    if falsy (BOT_TOKEN env) then
      ["BOT_TOKEN не установлен! Telegram верификация не будет работать."]
    else []
  else [].

Definition validateProductionConfig (env : environment) : outcome :=
  match config_errors env with
  | [] => Started
  | _ :: _ =>
      if String.eqb (NODE_ENV_or_default env) "production" then Exited 1
      else Started
  end.

End Startup.

(* ================================================================== *)
(** * middleware/security.js: setupCors *)
(* ================================================================== *)

Module Security.
Import Host TelegramAuth Sanitizing.

(** The code units of an ASCII literal. *)
Definition units (s : string) : list Z := bytes_of_string s.

(** [s.split(',')] on code units. *)
Fixpoint split_units (sep : Z) (s : list Z) : list (list Z) :=
  match s with
  | [] => [[]]
  | u :: r =>
      if u =? sep then [] :: split_units sep r
      else match split_units sep r with
           | [] => [[u]]
           | h :: t => (u :: h) :: t
           end
  end.

Fixpoint units_eqb (a b : list Z) : bool :=
  match a, b with
  | [], [] => true
  | x :: a', y :: b' => (x =? y) && units_eqb a' b'
  | _, _ => false
  end.

(** [(process.env.ALLOWED_ORIGINS || 'http://localhost:3000')
       .split(',').map(o => o.trim())] *)
Definition allowedOrigins (ALLOWED_ORIGINS : option (list Z)) : list (list Z) :=
  let allowedOriginsStr :=
    match ALLOWED_ORIGINS with
    | Some (u :: r) => u :: r
    | _ => units "http://localhost:3000"
    end in
  map trim (split_units 44 allowedOriginsStr).

(** What the middleware does with a request: the value of
    [Access-Control-Allow-Origin], if it sets one, and whether it answers
    the request itself (a preflight) instead of calling [next()].  The four
    other headers are the same for every request. *)
Record cors_outcome := {
  allow_origin : option (list Z);
  answered_200 : bool
}.

Definition setupCors (ALLOWED_ORIGINS : option (list Z))
    (NODE_ENV : option string) (origin : option (list Z)) (method : string)
  : cors_outcome :=
  let allowed := allowedOrigins ALLOWED_ORIGINS in
  {| allow_origin :=
       if env_is NODE_ENV "development" then
         Some (match origin with
               | Some (u :: r) => u :: r
               | _ => units "*"
               end)
       else
         match origin with
         | Some (u :: r) =>
             if existsb (units_eqb (u :: r)) allowed then Some (u :: r) else None
         | _ => None
         end;
     answered_200 := String.eqb method "OPTIONS" |}.

End Security.

(* ================================================================== *)
(** * Vocabulary of the properties *)
(* ================================================================== *)

Module Props.
Import Host Database TelegramAuth Validation.

(** ** Result validation *)

Definition passes_range_checks (b : game_result) : Prop := field_errors b = [].

Definition hits_exceed_shots (b : game_result) : Prop :=
  0 < shotsFired b /\ shotsFired b < targetsHit b.

(** The rate checks are run: the game lasted ten seconds or more. *)
Definition rate_checks_run (b : game_result) : Prop :=
  MIN_DURATION_FOR_ANTICHEAT <= durationMs b.

(** The other half of the handler's guard, [durationMin > 0], as a test on a
    duration held in a machine integer, and the test run over the block of
    [2^k] durations from [lo] on (zero apart). *)
Definition minutes_positive (ms : int) : bool :=
  Uint63.eqb ms 0
  || PrimFloat.ltb 0 (PrimFloat.of_uint63 ms / PrimFloat.of_uint63 60000)%float.

Fixpoint all_in_block (k : nat) (lo : int) : bool :=
  match k with
  | O => minutes_positive lo
  | S k' =>
      all_in_block k' lo
      && all_in_block k' (lo + Uint63.of_Z (2 ^ Z.of_nat k'))%uint63
  end.

Definition score_rate_exceeded (b : game_result) : Prop :=
  PrimFloat.ltb (num GAME.MAX_SCORE_PER_MINUTE) (scorePerMin b) = true.

Definition hits_rate_exceeded (b : game_result) : Prop :=
  PrimFloat.ltb (num GAME.MAX_HITS_PER_MINUTE) (hitsPerMin b) = true.

Definition rate_implausible (v : verdict) : Prop :=
  v = Reject HTTP.BAD_REQUEST error_score_rate []
  \/ v = Reject HTTP.BAD_REQUEST error_hits_rate [].

Definition rejected_hits_exceed_shots (v : verdict) : Prop :=
  v = Reject HTTP.BAD_REQUEST error_hits_exceed_shots [].

(** A result with the given score, hits, shots and duration, sent under a
    session id. *)
Definition sample_result (sc hits shots ms : Z) : game_result :=
  {| sessionId_field := Given "123e4567-e89b-42d3-a456-426614174000";
     telegramId_field := Absent;
     initData := None;
     score := sc;
     targetsHit := hits;
     shotsFired := shots;
     maxCombo := 1;
     durationMs := ms;
     gameMode_field := Absent |}.

(** ** Stores and requests used in the examples *)

Definition sample_uuid (n : nat) : string :=
  ("6ba7b810-9dad-11d1-80b4-"
   ++ hex_encode (map (fun k => (Z.of_nat n / 256 ^ k) mod 256) [5; 4; 3; 2; 1; 0]))%string.

Definition empty_db : db :=
  {| users := [];
     scores := [];
     next_user_id := 1;
     next_score_id := 1;
     clock := 0;
     uuid_source := sample_uuid;
     uuid_drawn := 0 |}.

(** A production environment with the bot token set and nothing else. *)
Definition production : environment :=
  {| NODE_ENV := Some "production";
     SKIP_TELEGRAM_VERIFY := None;
     ALLOW_SESSION_AUTH := None;
     BOT_TOKEN := Some "123456:ABC" |}.

(** The same with [SKIP_TELEGRAM_VERIFY=true]. *)
Definition production_skipping : environment :=
  {| NODE_ENV := Some "production";
     SKIP_TELEGRAM_VERIFY := Some "true";
     ALLOW_SESSION_AUTH := None;
     BOT_TOKEN := Some "123456:ABC" |}.

(** A payload naming user 1, with a signature nobody computed. *)
Definition forged_payload : string := "user=%7B%22id%22%3A1%7D&hash=00".

(** A result sent under a Telegram id, with a payload attached. *)
Definition telegram_result (tid sc : Z) (payload : option string) : game_result :=
  {| sessionId_field := Absent;
     telegramId_field := Given tid;
     initData := payload;
     score := sc;
     targetsHit := 10;
     shotsFired := 20;
     maxCombo := 3;
     durationMs := 60000;
     gameMode_field := Absent |}.

(** ** Ranks *)

(** The number of stored results, of any user, whose score is above [sc]. *)
Definition rows_above (sc : Z) (rows : list score_row) : Z :=
  Z.of_nat (List.length (filter (fun r => sc <? s_score r) rows)).

(** ** Sorting *)

(** Under the comparison [cmp] the first row may stand before the second. *)
Definition stands_before {A : Type} (cmp : A -> A -> Z) (a b : A) : Prop :=
  cmp a b <= 0.

(** ** Leaderboard *)

(** The primary keys of the two tables hold distinct values. *)
Definition keys_distinct (d : db) : Prop :=
  NoDup (map s_id (scores d)) /\ NoDup (map u_id (users d)).

Definition user_of (row : score_row * user_row) : Z := s_user_id (fst row).

(** [s] is no worse than [r] on the board: a larger key, or the same key and
    not older. *)
Definition no_worse (t : Scores.board) (s r : score_row) : Prop :=
  Scores.key t r < Scores.key t s
  \/ (Scores.key t r = Scores.key t s /\ s_created_at r <= s_created_at s).

(** [s] is a best result of its user among the results the board looks at. *)
Definition best_of_its_user (t : Scores.board) (d : db) (s : score_row) : Prop :=
  In s (scores d)
  /\ Scores.eligible t s = true
  /\ forall r, In r (scores d) -> s_user_id r = s_user_id s ->
               Scores.eligible t r = true -> no_worse t s r.

Definition descending (t : Scores.board) (rows : list (score_row * user_row)) : Prop :=
  StronglySorted (fun a b => Scores.key t (fst b) <= Scores.key t (fst a)) rows.

(** What clamping a value to a range gives. *)
Definition clamp (lo hi x : Z) : Z := Z.max lo (Z.min hi x).

(** [LIMIT limitNum OFFSET offsetNum] of an ordered answer. *)
Definition window {A : Type} (limitNum offsetNum : Z) (ranking : list A) : list A :=
  firstn (Z.to_nat limitNum) (skipn (Z.to_nat offsetNum) ranking).

(** Two users, one result each, the same score; user 1 played first. *)
Definition tied_users : db :=
  {| users := [ {| u_id := 1;
                   u_session_id := "123e4567-e89b-42d3-a456-426614174001";
                   u_username := None;
                   u_telegram_id := None;
                   u_created_at := 1;
                   u_updated_at := 1 |};
                {| u_id := 2;
                   u_session_id := "123e4567-e89b-42d3-a456-426614174002";
                   u_username := None;
                   u_telegram_id := None;
                   u_created_at := 2;
                   u_updated_at := 2 |} ];
     scores := [ {| s_id := 1; s_user_id := 1; s_score := 100;
                    s_targets_hit := 10; s_shots_fired := 20; s_accuracy := 5000;
                    s_max_combo := 1; s_duration_ms := 60000;
                    s_game_mode := "endless"; s_created_at := 1 |};
                 {| s_id := 2; s_user_id := 2; s_score := 100;
                    s_targets_hit := 10; s_shots_fired := 20; s_accuracy := 5000;
                    s_max_combo := 1; s_duration_ms := 60000;
                    s_game_mode := "endless"; s_created_at := 2 |} ];
     next_user_id := 3;
     next_score_id := 3;
     clock := 3;
     uuid_source := sample_uuid;
     uuid_drawn := 0 |}.

(** A store where user 1 holds the scores 100 and 90 and user 2 has none. *)
Definition two_users : db :=
  {| users := [ {| u_id := 1;
                   u_session_id := "123e4567-e89b-42d3-a456-426614174001";
                   u_username := None;
                   u_telegram_id := None;
                   u_created_at := 0;
                   u_updated_at := 0 |};
                {| u_id := 2;
                   u_session_id := "123e4567-e89b-42d3-a456-426614174000";
                   u_username := None;
                   u_telegram_id := None;
                   u_created_at := 0;
                   u_updated_at := 0 |} ];
     scores := [ {| s_id := 1; s_user_id := 1; s_score := 100;
                    s_targets_hit := 10; s_shots_fired := 20; s_accuracy := 5000;
                    s_max_combo := 1; s_duration_ms := 60000;
                    s_game_mode := "endless"; s_created_at := 0 |};
                 {| s_id := 2; s_user_id := 1; s_score := 90;
                    s_targets_hit := 10; s_shots_fired := 20; s_accuracy := 5000;
                    s_max_combo := 1; s_duration_ms := 60000;
                    s_game_mode := "endless"; s_created_at := 0 |} ];
     next_user_id := 3;
     next_score_id := 3;
     clock := 1;
     uuid_source := sample_uuid;
     uuid_drawn := 0 |}.

(** ** Signature verification *)

(** Comparison by code units: the order of the C locale.  The examples use
    it; on keys spelled with lower-case ASCII letters and underscores the
    usual collations agree with it. *)
Fixpoint compare_code_units (a b : string) : Z :=
  match a, b with
  | EmptyString, EmptyString => 0
  | EmptyString, String _ _ => -1
  | String _ _, EmptyString => 1
  | String x a', String y b' =>
      if Ascii.eqb x y then compare_code_units a' b'
      else byte_of_ascii x - byte_of_ascii y
  end.

Definition code_unit_order : Locale := compare_code_units.

(** A comparison that disregards case.  Like the comparison of a locale, it
    holds some different texts for equal. *)
Definition case_blind_order : Locale :=
  fun a b => compare_code_units (toLowerCase a) (toLowerCase b).

Definition line (kv : string * string) : string :=
  (fst kv ++ "=" ++ snd kv)%string.

(** The canonical string: the pairs other than [hash], sorted by key, one
    [key=value] line each. *)
Definition canonical_string {L : Locale} (initData : string) : string :=
  join newline
    (map line (sort (fun a b => localeCompare (fst a) (fst b))
                    (delete (URLSearchParams initData) "hash"))).

(** The digest the code compares against: the secondary key is the keyed
    hash of the shared secret under the constant [WebAppData] as key. *)
Definition expected_digest {L : Locale} (initData botToken : string) : list Z :=
  hmac_sha256
    (hmac_sha256 (bytes_of_string "WebAppData") (bytes_of_string botToken))
    (bytes_of_string (canonical_string initData)).

(** The digest as the claim words it: the secondary key is the keyed hash of
    the constant under the shared secret as key; the keys are sorted
    lexicographically; the result is read as lower-case hexadecimal. *)
Definition claimed_digest_hex (initData botToken : string) : string :=
  hex_encode
    (hmac_sha256
       (hmac_sha256 (bytes_of_string botToken) (bytes_of_string "WebAppData"))
       (bytes_of_string (canonical_string (L := code_unit_order) initData))).

Definition claimed_valid (initData botToken : string) : bool :=
  match get (URLSearchParams initData) "hash" with
  | Some h => String.eqb h (claimed_digest_hex initData botToken)
  | None => false
  end.

Definition is_byte (b : Z) : Prop := 0 <= b < 256.

(** A text of hexadecimal digits, two to a byte: what [digest('hex')]
    writes, in either case of the letters. *)
Fixpoint hex_digits (s : string) : bool :=
  match s with
  | EmptyString => true
  | String a (String b r) =>
      match unhex a, unhex b with
      | Some _, Some _ => hex_digits r
      | _, _ => false
      end
  | String _ EmptyString => false
  end.

End Props.

(** Splits a conjunction of closed equations and evaluates each. *)
Ltac evaluate :=
  repeat match goal with |- _ /\ _ => split end; vm_compute; reflexivity.

(* ================================================================== *)
(** * Vocabulary of the further properties *)
(* ================================================================== *)

Module Terms.
Import Host Database TelegramAuth Validation.

(** ** Result validation *)

(** None of the three optional fields holds [null]. *)
Definition no_null_field (b : game_result) : Prop :=
  sessionId_field b <> Null
  /\ telegramId_field b <> Null
  /\ gameMode_field b <> Null.

(** The optional fields that hold a value have the form the chain asks of
    them. *)
Definition optional_fields_valid (b : game_result) : Prop :=
  (forall s, sessionId b = Some s -> isUUID4 s = true)
  /\ (forall t, Validation.telegramId b = Some t -> 1 <= t)
  /\ (forall m, gameMode b = Some m -> isIn game_modes m = true).

Definition within_bounds (b : game_result) : Prop :=
  0 <= score b <= GAME.MAX_SCORE
  /\ 0 <= targetsHit b <= 10000
  /\ 0 <= shotsFired b <= 50000
  /\ 1 <= maxCombo b <= GAME.MAX_COMBO
  /\ GAME.MIN_DURATION_MS <= durationMs b <= GAME.MAX_DURATION_MS.

(** Neither rate, as the runtime computes it in binary64, compares above its
    ceiling. *)
Definition rates_within_ceilings (b : game_result) : Prop :=
  PrimFloat.ltb (num GAME.MAX_SCORE_PER_MINUTE) (scorePerMin b) = false
  /\ PrimFloat.ltb (num GAME.MAX_HITS_PER_MINUTE) (hitsPerMin b) = false.

(** ** Stored results *)

(** The row [POST /api/scores] writes for the payload [b] of user [uid] into
    the store [d]. *)
Definition row_written (b : game_result) (uid : Z) (d : db) : score_row :=
  {| s_id := next_score_id d;
     s_user_id := uid;
     s_score := score b;
     s_targets_hit := targetsHit b;
     s_shots_fired := shotsFired b;
     s_accuracy := if 0 <? shotsFired b
                   then decimal_5_4 (targetsHit b) (shotsFired b) else 0;
     s_max_combo := maxCombo b;
     s_duration_ms := durationMs b;
     s_game_mode := match gameMode b with Some m => m | None => "endless" end;
     s_created_at := clock d |}.

(** A stored result within the bounds of the data model: the ranges of the
    validator, hits not above shots when there are shots, an accuracy
    between 0 and 1. *)
Definition row_sound (r : score_row) : Prop :=
  0 <= s_score r <= GAME.MAX_SCORE
  /\ 0 <= s_targets_hit r <= 10000
  /\ 0 <= s_shots_fired r <= 50000
  /\ (0 < s_shots_fired r -> s_targets_hit r <= s_shots_fired r)
  /\ 0 <= s_accuracy r <= 10000
  /\ 1 <= s_max_combo r <= GAME.MAX_COMBO
  /\ GAME.MIN_DURATION_MS <= s_duration_ms r <= GAME.MAX_DURATION_MS
  /\ isIn game_modes (s_game_mode r) = true.

(** Every stored result is sound and belongs to a user of the store. *)
Definition results_sound (d : db) : Prop :=
  forall r, In r (scores d) ->
            row_sound r /\ existsb (fun u => u_id u =? s_user_id r) (users d) = true.

(** ** The constraints of the schema *)

Definition telegram_ids (us : list user_row) : list Z :=
  flat_map (fun u => match u_telegram_id u with
                     | Some t => [t]
                     | None => []
                     end) us.

(** The primary keys are distinct and below the counters of their tables
    ([AUTO_INCREMENT]); no two users share a session id or a platform id
    ([UNIQUE]). *)
Definition store_consistent (d : db) : Prop :=
  NoDup (map s_id (scores d))
  /\ NoDup (map u_id (users d))
  /\ Forall (fun i => i < next_score_id d) (map s_id (scores d))
  /\ Forall (fun i => i < next_user_id d) (map u_id (users d))
  /\ NoDup (map u_session_id (users d))
  /\ NoDup (telegram_ids (users d)).

(** The payload with another value in its [initData] field. *)
Definition with_initData (b : game_result) (payload : option string) : game_result :=
  {| sessionId_field := sessionId_field b;
     telegramId_field := telegramId_field b;
     initData := payload;
     score := score b;
     targetsHit := targetsHit b;
     shotsFired := shotsFired b;
     maxCombo := maxCombo b;
     durationMs := durationMs b;
     gameMode_field := gameMode_field b |}.

(** ** Sanitizing *)

(** Neither end of the string is a code unit that [trim] strips. *)
Definition edges_kept (s : list Z) : Prop :=
  match s with
  | u :: _ => Sanitizing.is_white u = false
  | [] => True
  end
  /\ match rev s with
     | u :: _ => Sanitizing.is_white u = false
     | [] => True
     end.

(** A string that holds no angle bracket and no control character, has no
    white space at either end and at most 1000 code units. *)
Definition clean (s : list Z) : Prop :=
  edges_kept s
  /\ (forall u, In u s -> Sanitizing.is_angle u = false /\ Sanitizing.is_control u = false)
  /\ (List.length s <= 1000)%nat.

(** The characters of a text. *)
Definition chars (s : string) : list ascii := list_ascii_of_string s.

(** ** Escaping *)

(** What stands for one character in an escaped text. *)
Definition entity (c : ascii) : string :=
  if Ascii.eqb c "&"%char then "&amp;"
  else if Ascii.eqb c "<"%char then "&lt;"
  else if Ascii.eqb c ">"%char then "&gt;"
  else String c EmptyString.

(** The text with every character replaced by what stands for it. *)
Fixpoint each_escaped (s : string) : string :=
  match s with
  | EmptyString => EmptyString
  | String c r => (entity c ++ each_escaped r)%string
  end.

End Terms.

(* ================================================================== *)
(** * Properties of the result validator *)
(* ================================================================== *)

Section ValidatorProperties.
Import Host Validation Props.

Lemma validate_after_range_checks (b : game_result) :
  passes_range_checks b -> validateGameResult b = antiCheat b.
Proof.
  unfold passes_range_checks, validateGameResult. intros ->. reflexivity.
Qed.

Lemma antiCheat_short_game (b : game_result) :
  durationMs b < MIN_DURATION_FOR_ANTICHEAT ->
  antiCheat b =
    if (0 <? shotsFired b) && (shotsFired b <? targetsHit b)
    then Reject HTTP.BAD_REQUEST error_hits_exceed_shots [] else Pass.
Proof.
  intros Hshort. unfold antiCheat.
  replace (MIN_DURATION_FOR_ANTICHEAT <=? durationMs b) with false
    by (symmetry; apply Z.leb_gt; exact Hshort).
  reflexivity.
Qed.

Lemma consistent_guard (b : game_result) :
  ~ hits_exceed_shots b ->
  (0 <? shotsFired b) && (shotsFired b <? targetsHit b) = false.
Proof.
  unfold hits_exceed_shots. intros H.
  destruct (0 <? shotsFired b) eqn:E1; [|reflexivity].
  destruct (shotsFired b <? targetsHit b) eqn:E2; [|reflexivity].
  apply Z.ltb_lt in E1, E2. exfalso. apply H. split; assumption.
Qed.

Lemma inconsistent_guard (b : game_result) :
  hits_exceed_shots b ->
  (0 <? shotsFired b) && (shotsFired b <? targetsHit b) = true.
Proof.
  intros [H1 H2]. apply andb_true_iff. split; apply Z.ltb_lt; assumption.
Qed.

Lemma of_Z_add (a b : Z) :
  Uint63.of_Z (a + b) = (Uint63.of_Z a + Uint63.of_Z b)%uint63.
Proof.
  apply Uint63.to_Z_inj. rewrite Uint63.add_spec, !Uint63.of_Z_spec.
  rewrite <- Zplus_mod. reflexivity.
Qed.

Lemma all_in_block_sound (k : nat) :
  forall lo : Z,
    all_in_block k (Uint63.of_Z lo) = true ->
    forall ms, lo <= ms < lo + 2 ^ Z.of_nat k ->
               minutes_positive (Uint63.of_Z ms) = true.
Proof.
  induction k as [|k IH]; intros lo H ms Hms.
  - cbn [all_in_block] in H. change (2 ^ Z.of_nat 0) with 1 in Hms.
    replace ms with lo by lia. exact H.
  - cbn [all_in_block] in H. apply andb_true_iff in H. destruct H as [H1 H2].
    rewrite <- of_Z_add in H2.
    rewrite Nat2Z.inj_succ, Z.pow_succ_r in Hms by lia.
    destruct (Z_lt_le_dec ms (lo + 2 ^ Z.of_nat k)).
    + apply (IH lo H1). lia.
    + apply (IH (lo + 2 ^ Z.of_nat k) H2). lia.
Qed.

(** Every duration below [2^22] ms, which is above an hour, has been
    tried. *)
Lemma durations_tried : all_in_block 22 (Uint63.of_Z 0) = true.
Proof. vm_compute. reflexivity. Qed.

Lemma range_checked_duration (b : game_result) :
  passes_range_checks b ->
  GAME.MIN_DURATION_MS <= durationMs b <= GAME.MAX_DURATION_MS.
Proof.
  unfold passes_range_checks, field_errors. intros H.
  do 6 (apply app_eq_nil in H; destruct H as [_ H]).
  apply app_eq_nil in H. destruct H as [H _].
  unfold in_range in H.
  destruct (GAME.MIN_DURATION_MS <=? durationMs b) eqn:E1; [|discriminate].
  destruct (durationMs b <=? GAME.MAX_DURATION_MS) eqn:E2; [|discriminate].
  apply Z.leb_le in E1, E2. split; assumption.
Qed.

(** On a payload that passed the range checks the length in minutes is
    positive: the handler's guard comes down to the ten seconds. *)
Lemma duration_in_minutes_positive (b : game_result) :
  passes_range_checks b -> PrimFloat.ltb 0 (durationMin b) = true.
Proof.
  intros Hrange. apply range_checked_duration in Hrange.
  unfold GAME.MIN_DURATION_MS, GAME.MAX_DURATION_MS in Hrange.
  assert (Hms : minutes_positive (Uint63.of_Z (durationMs b)) = true).
  { apply (all_in_block_sound 22 0 durations_tried).
    change (2 ^ Z.of_nat 22) with 4194304. lia. }
  unfold minutes_positive in Hms. apply orb_true_iff in Hms.
  destruct Hms as [Hzero | Hpos].
  - exfalso. apply Uint63.eqb_correct in Hzero.
    apply (f_equal Uint63.to_Z) in Hzero.
    rewrite Uint63.of_Z_spec in Hzero. change (Uint63.to_Z 0) with 0 in Hzero.
    rewrite Z.mod_small in Hzero; [lia|].
    split; [lia|]. change Uint63.wB with 9223372036854775808. lia.
  - unfold durationMin, num.
    replace (durationMs b <? 0) with false by (symmetry; apply Z.ltb_ge; lia).
    exact Hpos.
Qed.

(** C5 (as the code has it): the checks run in the order range checks,
    score per minute, hits per minute, hits against shots, and the first
    that fails is the one reported.  A payload that fails a range check is
    rejected with the names of the fields refused.  Of a payload that passes
    them: when it lasted ten seconds or more and its score rate is above the
    ceiling, the rejection is the score-rate one; else, when it lasted ten
    seconds or more and its hits rate is above the ceiling, the hits-rate
    one; else, when its hits exceed its shots, "hits exceed shots"; else it
    is accepted.  So a payload that breaks both a rate ceiling and the
    consistency rule is reported as rate-implausible. *)
Theorem rate_checks_precede_consistency (b : game_result) :
  (~ passes_range_checks b ->
   validateGameResult b
   = Reject HTTP.BAD_REQUEST "Ошибка валидации" (field_errors b))
  /\ (passes_range_checks b ->
      (rate_checks_run b -> score_rate_exceeded b ->
       validateGameResult b = Reject HTTP.BAD_REQUEST error_score_rate [])
      /\ (rate_checks_run b -> ~ score_rate_exceeded b -> hits_rate_exceeded b ->
          validateGameResult b = Reject HTTP.BAD_REQUEST error_hits_rate [])
      /\ (~ rate_checks_run b
          \/ (~ score_rate_exceeded b /\ ~ hits_rate_exceeded b) ->
          (hits_exceed_shots b ->
           validateGameResult b
           = Reject HTTP.BAD_REQUEST error_hits_exceed_shots [])
          /\ (~ hits_exceed_shots b -> validateGameResult b = Pass))).
Proof.
  split.
  - unfold passes_range_checks, validateGameResult, handleValidationErrors.
    intros H. destruct (field_errors b); [contradiction H; reflexivity | reflexivity].
  - intros Hrange.
    pose proof (duration_in_minutes_positive b Hrange) as Hpos.
    rewrite (validate_after_range_checks b Hrange).
    unfold rate_checks_run, score_rate_exceeded, hits_rate_exceeded, antiCheat.
    rewrite Hpos, andb_true_r.
    split; [|split].
    + intros Hlong Hs. apply Z.leb_le in Hlong. rewrite Hlong, Hs. reflexivity.
    + intros Hlong Hs Hh. apply Z.leb_le in Hlong. rewrite Hlong, Hh.
      destruct (PrimFloat.ltb (num GAME.MAX_SCORE_PER_MINUTE) (scorePerMin b));
        [contradiction Hs; reflexivity | reflexivity].
    + intros Hnone.
      assert (Hrates :
                (if MIN_DURATION_FOR_ANTICHEAT <=? durationMs b
                 then
                   if PrimFloat.ltb (num GAME.MAX_SCORE_PER_MINUTE) (scorePerMin b)
                   then Some (Reject HTTP.BAD_REQUEST error_score_rate [])
                   else
                     if PrimFloat.ltb (num GAME.MAX_HITS_PER_MINUTE) (hitsPerMin b)
                     then Some (Reject HTTP.BAD_REQUEST error_hits_rate [])
                     else None
                 else None) = None).
      { destruct (MIN_DURATION_FOR_ANTICHEAT <=? durationMs b) eqn:Hlong;
          [|reflexivity].
        apply Z.leb_le in Hlong.
        destruct Hnone as [Hshort | [Hs Hh]]; [contradiction|].
        destruct (PrimFloat.ltb (num GAME.MAX_SCORE_PER_MINUTE) (scorePerMin b));
          [contradiction Hs; reflexivity|].
        destruct (PrimFloat.ltb (num GAME.MAX_HITS_PER_MINUTE) (hitsPerMin b));
          [contradiction Hh; reflexivity | reflexivity]. }
      rewrite Hrates. split.
      * intros Hc. rewrite (inconsistent_guard b Hc). reflexivity.
      * intros Hc. rewrite (consistent_guard b Hc). reflexivity.
Qed.

Lemma rate_checks_precede_consistency_witness :
  let b := sample_result 0 200 100 60000 in
  passes_range_checks b
  /\ hits_exceed_shots b
  /\ validateGameResult b = Reject HTTP.BAD_REQUEST error_hits_rate [].
Proof.
  cbv zeta.
  assert (Hrange : passes_range_checks (sample_result 0 200 100 60000))
    by reflexivity.
  split; [exact Hrange|]. split; [split; reflexivity|].
  destruct (proj2 (rate_checks_precede_consistency (sample_result 0 200 100 60000))
              Hrange) as (_ & Hhits & _).
  apply Hhits; [discriminate | discriminate | reflexivity].
Defined.

(** C5, as stated, fails: with 200 hits out of 100 shots in one minute both
    the consistency rule and the hits-per-minute ceiling are violated, and
    the rejection reported is the rate one. *)
Lemma consistency_not_reported_first :
  let b := sample_result 0 200 100 60000 in
  passes_range_checks b
  /\ hits_exceed_shots b
  /\ rate_checks_run b
  /\ hits_rate_exceeded b
  /\ validateGameResult b = Reject HTTP.BAD_REQUEST error_hits_rate []
  /\ validateGameResult b <> Reject HTTP.BAD_REQUEST error_hits_exceed_shots [].
Proof.
  cbv zeta. repeat split; try reflexivity; discriminate.
Qed.

(** C6: the rate checks run only on games of ten seconds or more.  A result
    that passes the range and consistency checks is accepted whenever it is
    shorter; with score 100000 in 5000 ms it is accepted although its score
    per minute is above the ceiling, and with the same score in 20000 ms it
    is rejected as rate-implausible. *)
Theorem short_games_skip_rate_checks (b : game_result) :
  passes_range_checks b ->
  ~ hits_exceed_shots b ->
  (durationMs b < MIN_DURATION_FOR_ANTICHEAT -> validateGameResult b = Pass)
  /\ (score b = 100000 -> durationMs b = 5000 ->
      validateGameResult b = Pass /\ score_rate_exceeded b)
  /\ (score b = 100000 -> durationMs b = 20000 ->
      validateGameResult b = Reject HTTP.BAD_REQUEST error_score_rate []).
Proof.
  intros Hrange Hcons.
  rewrite (validate_after_range_checks b Hrange).
  assert (Hshort : durationMs b < MIN_DURATION_FOR_ANTICHEAT -> antiCheat b = Pass).
  { intros H. rewrite (antiCheat_short_game b H), (consistent_guard b Hcons).
    reflexivity. }
  split; [exact Hshort|]. split.
  - intros Hs Hd. split.
    + apply Hshort. rewrite Hd. reflexivity.
    + unfold score_rate_exceeded, scorePerMin, durationMin.
      rewrite Hs, Hd. reflexivity.
  - intros Hs Hd. unfold antiCheat, scorePerMin, durationMin.
    rewrite Hs, Hd. reflexivity.
Qed.

Lemma short_games_skip_rate_checks_witness :
  (validateGameResult (sample_result 100000 10 10 5000) = Pass
   /\ score_rate_exceeded (sample_result 100000 10 10 5000))
  /\ validateGameResult (sample_result 100000 10 10 20000)
     = Reject HTTP.BAD_REQUEST error_score_rate [].
Proof.
  split.
  - apply (short_games_skip_rate_checks (sample_result 100000 10 10 5000));
      [reflexivity | intros [_ H]; discriminate H | reflexivity | reflexivity].
  - apply (short_games_skip_rate_checks (sample_result 100000 10 10 20000));
      [reflexivity | intros [_ H]; discriminate H | reflexivity | reflexivity].
Defined.

End ValidatorProperties.

(* ================================================================== *)
(** * Properties of the signature verifier *)
(* ================================================================== *)

Module VerifierProps.
Import Host TelegramAuth Props.

Lemma unhex_hex_digit (n : Z) : 0 <= n < 16 -> unhex (hex_digit n) = Some n.
Proof.
  intros H.
  rewrite <- (Z2Nat.id n) by lia.
  assert (Hk : (Z.to_nat n < 16)%nat) by lia.
  revert Hk. generalize (Z.to_nat n). clear H. intros k Hk.
  do 16 (destruct k as [|k]; [reflexivity|]). lia.
Qed.

Lemma hex_decode_encode (l : list Z) :
  Forall is_byte l -> hex_decode (hex_encode l) = l.
Proof.
  induction 1 as [|b l Hb _ IH]; [reflexivity|].
  cbn [hex_encode hex_decode]. unfold is_byte in Hb.
  rewrite (unhex_hex_digit (b / 16)) by (split; [apply Z.div_pos | apply Z.div_lt_upper_bound]; lia).
  rewrite (unhex_hex_digit (b mod 16)) by (apply Z.mod_pos_bound; lia).
  rewrite IH. f_equal. rewrite (Z.div_mod b 16) at 3 by lia. reflexivity.
Qed.

Lemma bytes_of_word_bytes (w : Z) : Forall is_byte (bytes_of_word w).
Proof.
  unfold bytes_of_word, is_byte.
  repeat constructor; apply Z.mod_pos_bound; lia.
Qed.

Lemma sha256_bytes (m : list Z) : Forall is_byte (sha256 m).
Proof.
  unfold sha256. cbv zeta. cbn [flat_map].
  repeat (apply Forall_app; split; [apply bytes_of_word_bytes|]).
  constructor.
Qed.

Lemma sha256_length (m : list Z) : List.length (sha256 m) = 32%nat.
Proof. reflexivity. Qed.

Lemma hmac_bytes (k m : list Z) : Forall is_byte (hmac_sha256 k m).
Proof. apply sha256_bytes. Qed.

Lemma hmac_length (k m : list Z) : List.length (hmac_sha256 k m) = 32%nat.
Proof. apply sha256_length. Qed.

Lemma bytes_eqb_eq (a b : list Z) : bytes_eqb a b = true <-> a = b.
Proof.
  revert b. induction a as [|x a IH]; intros [|y b]; cbn [bytes_eqb];
    try (split; [discriminate | intros H; inversion H]); [tauto|].
  rewrite andb_true_iff, Z.eqb_eq, IH. split.
  - intros [-> ->]. reflexivity.
  - intros H. inversion H. split; reflexivity.
Qed.

Lemma timingSafeEqual_true (a b : list Z) :
  timingSafeEqual a b = Ok true <-> a = b.
Proof.
  unfold timingSafeEqual. split.
  - destruct (Nat.eqb _ _); [|discriminate].
    intros H. apply bytes_eqb_eq. inversion H. reflexivity.
  - intros ->. rewrite Nat.eqb_refl. f_equal. apply bytes_eqb_eq. reflexivity.
Qed.

Lemma timingSafeEqual_lengths (a b : list Z) :
  List.length a <> List.length b -> timingSafeEqual a b = Throw RangeError.
Proof.
  intros H. unfold timingSafeEqual.
  destruct (Nat.eqb _ _) eqn:E; [|reflexivity].
  apply Nat.eqb_eq in E. contradiction.
Qed.

Lemma string_pair_ind (P : string -> Prop) :
  P EmptyString ->
  (forall a, P (String a EmptyString)) ->
  (forall a b r, P r -> P (String a (String b r))) ->
  forall s, P s.
Proof.
  intros H0 H1 H2. fix IH 1.
  intros [|a [|b r]]; [exact H0 | apply H1 | apply H2, IH].
Qed.

Lemma unhex_lower (c : ascii) (x : Z) :
  unhex c = Some x -> 0 <= x < 16 /\ hex_digit x = lower_case c.
Proof.
  destruct c as [[] [] [] [] [] [] [] []]; intros H; vm_compute in H;
    try discriminate H; injection H as <-; split; try lia; reflexivity.
Qed.

Lemma hex_decode_bytes (h : string) : Forall is_byte (hex_decode h).
Proof.
  induction h as [|a|a b r IH] using string_pair_ind; cbn [hex_decode];
    try constructor.
  destruct (unhex a) as [x|] eqn:Ea; [|constructor].
  destruct (unhex b) as [y|] eqn:Eb; [|constructor].
  destruct (unhex_lower a x Ea) as [Hx _].
  destruct (unhex_lower b y Eb) as [Hy _].
  constructor; [unfold is_byte; lia | exact IH].
Qed.

(** A text of hexadecimal digits is, up to the case of its letters, the
    hexadecimal writing of the bytes it decodes to. *)
Lemma hex_encode_decode (h : string) :
  hex_digits h = true -> hex_encode (hex_decode h) = toLowerCase h.
Proof.
  induction h as [|a|a b r IH] using string_pair_ind;
    cbn [hex_digits hex_decode]; [reflexivity | discriminate |].
  destruct (unhex a) as [x|] eqn:Ea; [|discriminate].
  destruct (unhex b) as [y|] eqn:Eb; [|discriminate].
  intros Hr.
  destruct (unhex_lower a x Ea) as [Hx Hxa].
  destruct (unhex_lower b y Eb) as [Hy Hyb].
  cbn [hex_encode toLowerCase]. rewrite (IH Hr).
  replace ((16 * x + y) / 16) with x by (apply Z.div_unique with y; lia).
  replace ((16 * x + y) mod 16) with y by (apply Z.mod_unique with x; lia).
  rewrite Hxa, Hyb. reflexivity.
Qed.

Lemma hex_encode_inj (a b : list Z) :
  Forall is_byte a -> Forall is_byte b -> hex_encode a = hex_encode b -> a = b.
Proof.
  intros Ha Hb E. rewrite <- (hex_decode_encode a Ha), <- (hex_decode_encode b Hb), E.
  reflexivity.
Qed.

(** Decoding stops at the first pair that is not two digits: what follows
    is not looked at. *)
Lemma hex_decode_stops (h rest : string) (a b : ascii) :
  hex_digits h = true ->
  unhex a = None \/ unhex b = None ->
  hex_decode (h ++ String a (String b rest)) = hex_decode h.
Proof.
  intros Hh Hab. induction h as [|x|x y r IH] using string_pair_ind.
  - cbn [append hex_decode]. destruct Hab as [-> | ->]; [reflexivity|].
    destruct (unhex a); reflexivity.
  - discriminate Hh.
  - cbn [hex_digits] in Hh. cbn [append hex_decode].
    destruct (unhex x); [|discriminate]. destruct (unhex y); [|discriminate].
    rewrite (IH Hh). reflexivity.
Qed.

Section WithLocale.
Context {L : Locale}.

(** The [try] block, once a non-empty signature has been found. *)
Lemma verify_try_with_hash (d t h : string) :
  get (URLSearchParams d) "hash" = Some h ->
  is_empty h = false ->
  verify_try d t = timingSafeEqual (hex_decode h) (expected_digest d t).
Proof.
  intros Hget Hne. unfold verify_try. rewrite Hget. cbn [falsy]. rewrite Hne.
  cbv zeta. rewrite hex_decode_encode by apply hmac_bytes. reflexivity.
Qed.

Lemma verify_try_without_hash (d t : string) :
  falsy (get (URLSearchParams d) "hash") = true -> verify_try d t = Ok false.
Proof. intros H. unfold verify_try. rewrite H. reflexivity. Qed.

Lemma verify_present (d t : string) :
  verifyTelegramWebAppData (Some d) (Some t) =
    if is_empty d || is_empty t then false
    else match verify_try d t with Ok b => b | Throw _ => false end.
Proof. reflexivity. Qed.
End WithLocale.

End VerifierProps.

Section VerifierTheorems.
Import Host TelegramAuth Props VerifierProps.
Context {L : Locale}.

(** When the decoded signature and the digest differ in length, the
    comparison primitive raises inside the [try] block. *)
Lemma length_mismatch_raises_inside (d t h : string) :
  get (URLSearchParams d) "hash" = Some h ->
  is_empty h = false ->
  List.length (hex_decode h) <> 32%nat ->
  verify_try d t = Throw RangeError.
Proof.
  intros Hget Hne Hlen. rewrite (verify_try_with_hash d t h Hget Hne).
  apply timingSafeEqual_lengths. unfold expected_digest.
  rewrite hmac_length. exact Hlen.
Qed.

(** The verifier answers "invalid" whenever the payload is missing or
    empty, the secret is missing or empty, the payload has no (or an empty)
    signature field, or the signature does not decode to as many bytes as
    the digest has.  Its result is a boolean in every case: what is raised
    inside (see [length_mismatch_raises_inside]) is caught. *)
Lemma verifier_rejects_malformed (initData botToken : option string) :
  falsy initData = true
  \/ falsy botToken = true
  \/ (exists d, initData = Some d
                /\ falsy (get (URLSearchParams d) "hash") = true)
  \/ (exists d h, initData = Some d
                  /\ get (URLSearchParams d) "hash" = Some h
                  /\ List.length (hex_decode h) <> 32%nat) ->
  verifyTelegramWebAppData initData botToken = false.
Proof.
  intros H.
  destruct initData as [d|]; [|reflexivity].
  destruct botToken as [t|]; [|reflexivity].
  rewrite verify_present.
  destruct (is_empty d) eqn:Ed; [reflexivity|].
  destruct (is_empty t) eqn:Et; [reflexivity|]. cbn [orb].
  destruct H as [H | [H | [H | H]]].
  - cbn [falsy] in H. congruence.
  - cbn [falsy] in H. congruence.
  - destruct H as (d' & Hd & Hno). inversion Hd; subst d'.
    rewrite (verify_try_without_hash d t Hno). reflexivity.
  - destruct H as (d' & h & Hd & Hget & Hlen). inversion Hd; subst d'.
    destruct (is_empty h) eqn:Eh.
    + rewrite verify_try_without_hash; [reflexivity|].
      rewrite Hget. exact Eh.
    + rewrite (length_mismatch_raises_inside d t h Hget Eh Hlen). reflexivity.
Qed.

(** The verifier answers "valid" exactly when payload and secret are
    present, the secret is not empty, the payload has a signature field, and
    the bytes that field decodes to are the digest of the canonical string
    under the secondary key. *)
Lemma verifier_accepts_decoded (initData botToken : option string) :
  verifyTelegramWebAppData initData botToken = true
  <-> exists d t h,
        initData = Some d /\ botToken = Some t /\ is_empty t = false
        /\ get (URLSearchParams d) "hash" = Some h
        /\ hex_decode h = expected_digest d t.
Proof.
  split.
  - intros H.
    destruct initData as [d|]; [|discriminate].
    destruct botToken as [t|]; [|discriminate].
    rewrite verify_present in H.
    destruct (is_empty d) eqn:Ed; [discriminate|].
    destruct (is_empty t) eqn:Et; [discriminate|]. cbn [orb] in H.
    destruct (get (URLSearchParams d) "hash") as [h|] eqn:Hget.
    + destruct (is_empty h) eqn:Eh.
      * rewrite verify_try_without_hash in H by (rewrite Hget; exact Eh).
        discriminate.
      * rewrite (verify_try_with_hash d t h Hget Eh) in H.
        exists d, t, h.
        split; [reflexivity|]. split; [reflexivity|]. split; [exact Et|].
        split; [exact Hget|].
        apply timingSafeEqual_true.
        destruct (timingSafeEqual (hex_decode h) (expected_digest d t));
          [subst; reflexivity | discriminate].
    + rewrite verify_try_without_hash in H by (rewrite Hget; reflexivity).
      discriminate.
  - intros (d & t & h & -> & -> & Et & Hget & Hdig).
    rewrite verify_present.
    assert (Eh : is_empty h = false).
    { destruct h; [|reflexivity]. exfalso.
      assert (Hl : List.length (hex_decode EmptyString) = List.length (expected_digest d t))
        by (rewrite Hdig; reflexivity).
      unfold expected_digest in Hl. rewrite hmac_length in Hl. discriminate Hl. }
    assert (Ed : is_empty d = false).
    { destruct d; [discriminate Hget | reflexivity]. }
    rewrite Ed, Et. cbn [orb].
    rewrite (verify_try_with_hash d t h Hget Eh).
    apply timingSafeEqual_true in Hdig. rewrite Hdig. reflexivity.
Qed.

(** C4 (as the code has it): on a payload whose signature field, when it has
    one, is a text of hexadecimal digits, the verifier answers "valid"
    exactly when payload and secret are present, the secret is not empty,
    the payload has a signature field, and that field is, up to the case of
    its letters, the hexadecimal digest of the canonical string under the
    secondary key, that key being the keyed hash of the shared secret with
    the constant as key.  The answer is that of the comparison primitive on
    the two decoded buffers. *)
Theorem verifier_accepts_hex_digest (initData botToken : option string) :
  (forall d h, initData = Some d -> get (URLSearchParams d) "hash" = Some h ->
               hex_digits h = true) ->
  (verifyTelegramWebAppData initData botToken = true
   <-> exists d t h,
         initData = Some d /\ botToken = Some t /\ is_empty t = false
         /\ get (URLSearchParams d) "hash" = Some h
         /\ toLowerCase h = hex_encode (expected_digest d t))
  /\ (forall d t h,
         initData = Some d -> botToken = Some t ->
         get (URLSearchParams d) "hash" = Some h -> is_empty h = false ->
         verify_try d t = timingSafeEqual (hex_decode h) (expected_digest d t)).
Proof.
  intros Hhex. split.
  - rewrite verifier_accepts_decoded. split.
    + intros (d & t & h & Hd & Ht & Et & Hget & Hdig).
      exists d, t, h. repeat (split; [assumption|]).
      rewrite <- Hdig. symmetry. apply hex_encode_decode.
      exact (Hhex d h Hd Hget).
    + intros (d & t & h & Hd & Ht & Et & Hget & Hdig).
      exists d, t, h. repeat (split; [assumption|]).
      apply hex_encode_inj; [apply hex_decode_bytes | apply hmac_bytes|].
      rewrite (hex_encode_decode h (Hhex d h Hd Hget)). exact Hdig.
  - intros d t h _ _ Hget Eh. exact (verify_try_with_hash d t h Hget Eh).
Qed.

End VerifierTheorems.

Section VerifierExamples.
Import Host TelegramAuth Props VerifierProps.

Lemma verifier_rejects_malformed_examples :
  verifyTelegramWebAppData (L := code_unit_order) None (Some "123456:ABC") = false
  /\ verifyTelegramWebAppData (L := code_unit_order)
       (Some "auth_date=1700000000&hash=abcd") None = false
  /\ verifyTelegramWebAppData (L := code_unit_order)
       (Some "auth_date=1700000000") (Some "123456:ABC") = false
  /\ verifyTelegramWebAppData (L := code_unit_order)
       (Some "auth_date=1700000000&hash=abcd") (Some "123456:ABC") = false.
Proof.
  split; [|split; [|split]].
  - apply (verifier_rejects_malformed (L := code_unit_order)).
    left. reflexivity.
  - apply (verifier_rejects_malformed (L := code_unit_order)).
    right. left. reflexivity.
  - apply (verifier_rejects_malformed (L := code_unit_order)).
    right. right. left. exists "auth_date=1700000000". split; reflexivity.
  - apply (verifier_rejects_malformed (L := code_unit_order)).
    right. right. right.
    exists "auth_date=1700000000&hash=abcd", "abcd".
    split; [reflexivity | split; [reflexivity | discriminate]].
Qed.

Lemma verifier_accepts_hex_digest_witness :
  let t := "123456:ABC" in
  let d := "auth_date=1700000000&hash=BBCD069A7C205B6262F5EE8C324A63CE16194F391EBFA7150F1BA1938E4CD9B7" in
  verifyTelegramWebAppData (L := code_unit_order) (Some d) (Some t) = true
  <-> exists d' t' h,
        Some d = Some d' /\ Some t = Some t' /\ is_empty t' = false
        /\ get (URLSearchParams d') "hash" = Some h
        /\ toLowerCase h = hex_encode (expected_digest (L := code_unit_order) d' t').
Proof.
  cbv zeta.
  refine (proj1 (verifier_accepts_hex_digest (L := code_unit_order)
                   (Some "auth_date=1700000000&hash=BBCD069A7C205B6262F5EE8C324A63CE16194F391EBFA7150F1BA1938E4CD9B7")
                   (Some "123456:ABC") _)).
  intros d h Hd Hget. injection Hd as <-. vm_compute in Hget.
  injection Hget as <-. vm_compute. reflexivity.
Defined.

(** A byte that is not UTF-8 reaches the verifier as the replacement
    character: the payload [a=%FF] is signed as [a=] followed by U+FFFD. *)
Lemma undecodable_byte_is_replaced :
  URLSearchParams "a=%FF&hash=99c3a69dd31eaa476e84c7e396f75c173b5df0325b2854336e439a485585197a"
  = [("a", replacement_character);
     ("hash", "99c3a69dd31eaa476e84c7e396f75c173b5df0325b2854336e439a485585197a")]
  /\ verifyTelegramWebAppData (L := code_unit_order)
       (Some "a=%FF&hash=99c3a69dd31eaa476e84c7e396f75c173b5df0325b2854336e439a485585197a")
       (Some "123456:ABC") = true.
Proof. split; vm_compute; reflexivity. Qed.

(** C4, as stated, fails on both counts.  The first payload is signed as the
    code expects and is accepted, though its signature is not the digest
    obtained with the shared secret as the key of the first keyed hash.  The
    second carries the same signature in upper case: it is accepted, though
    it is not the text of the hexadecimal digest. *)
Lemma verifier_not_as_claimed :
  let t := "123456:ABC" in
  let d1 := "auth_date=1700000000&hash=bbcd069a7c205b6262f5ee8c324a63ce16194f391ebfa7150f1ba1938e4cd9b7" in
  let d2 := "auth_date=1700000000&hash=BBCD069A7C205B6262F5EE8C324A63CE16194F391EBFA7150F1BA1938E4CD9B7" in
  (verifyTelegramWebAppData (L := code_unit_order) (Some d1) (Some t) = true
   /\ claimed_valid d1 t = false)
  /\ (verifyTelegramWebAppData (L := code_unit_order) (Some d2) (Some t) = true
      /\ get (URLSearchParams d2) "hash"
         <> Some (hex_encode (expected_digest (L := code_unit_order) d2 t))).
Proof.
  cbv zeta. split; split.
  - vm_compute. reflexivity.
  - vm_compute. reflexivity.
  - vm_compute. reflexivity.
  - vm_compute. discriminate.
Qed.

(** C7: a signature that is not hexadecimal is answered "valid".  The
    payload below carries the digest of its canonical string followed by
    [zz]: decoding the field stops at [zz] with the 32 bytes of the digest,
    and the comparison succeeds.  The same holds of any text put after a
    digest, as long as its first two characters are not two digits. *)
Theorem verifier_accepts_undecodable_signature :
  let t := "123456:ABC" in
  let h := "bbcd069a7c205b6262f5ee8c324a63ce16194f391ebfa7150f1ba1938e4cd9b7zz" in
  let d := ("auth_date=1700000000&hash=" ++ h)%string in
  get (URLSearchParams d) "hash" = Some h
  /\ hex_digits h = false
  /\ verifyTelegramWebAppData (L := code_unit_order) (Some d) (Some t) = true
  /\ (forall (rest : string) (a b : ascii),
         unhex a = None \/ unhex b = None ->
         hex_decode ("bbcd069a7c205b6262f5ee8c324a63ce16194f391ebfa7150f1ba1938e4cd9b7"
                       ++ String a (String b rest))
         = expected_digest (L := code_unit_order) "auth_date=1700000000" t).
Proof.
  cbv zeta. split; [vm_compute; reflexivity|].
  split; [vm_compute; reflexivity|].
  split; [vm_compute; reflexivity|].
  intros rest a b Hab. rewrite (hex_decode_stops _ rest a b); [|reflexivity | exact Hab].
  vm_compute. reflexivity.
Qed.

End VerifierExamples.

(* ================================================================== *)
(** * Properties of the identity extractor *)
(* ================================================================== *)

Module ExtractorProps.
Import Host TelegramAuth.

Ltac split_matches H :=
  repeat match type of H with
         | Some _ = Some _ => inversion H; subst; clear H
         | context [match ?x with _ => _ end] => destruct x eqn:?
         end;
  try discriminate.

Lemma parse_exponent_number neg m n s v r :
  parse_exponent neg m n s = Some (v, r) -> v <> JUndefined.
Proof.
  unfold parse_exponent. intros H. split_matches H; discriminate.
Qed.

Lemma parse_fraction_number neg i s v r :
  parse_fraction neg i s = Some (v, r) -> v <> JUndefined.
Proof.
  unfold parse_fraction. intros H.
  repeat match type of H with
         | context [match ?x with _ => _ end] => destruct x eqn:?
         end;
    try discriminate; eapply parse_exponent_number; eassumption.
Qed.

Lemma parse_number_number s v r :
  parse_number s = Some (v, r) -> v <> JUndefined.
Proof.
  unfold parse_number. intros H.
  repeat match type of H with
         | context [match ?x with _ => _ end] => destruct x eqn:?
         end;
    try discriminate; eapply parse_fraction_number; eassumption.
Qed.

(** The parser never produces [undefined]. *)
Lemma parse_defined (fuel : nat) :
  (forall s v r, parse_value fuel s = Some (v, r) -> v <> JUndefined)
  /\ (forall s acc v r, parse_elements fuel s acc = Some (v, r) -> v <> JUndefined)
  /\ (forall s acc v r, parse_members fuel s acc = Some (v, r) -> v <> JUndefined).
Proof.
  induction fuel as [|fuel (IHv & IHe & IHm)].
  - repeat split; intros; discriminate.
  - repeat split.
    + intros s v r H. cbn [parse_value] in H.
      repeat match type of H with
             | Some _ = Some _ => inversion H; subst; clear H
             | parse_members _ _ _ = _ => fail 1
             | parse_elements _ _ _ = _ => fail 1
             | parse_number _ = _ => fail 1
             | context [match ?x with _ => _ end] => destruct x eqn:?
             end;
        try discriminate;
        try (eapply IHm; eassumption);
        try (eapply IHe; eassumption);
        try (eapply parse_number_number; eassumption).
    + intros s acc v r H. cbn [parse_elements] in H.
      repeat match type of H with
             | Some _ = Some _ => inversion H; subst; clear H
             | parse_elements _ _ _ = _ => fail 1
             | context [match ?x with _ => _ end] => destruct x eqn:?
             end;
        try discriminate; try (eapply IHe; eassumption).
    + intros s acc v r H. cbn [parse_members] in H.
      repeat match type of H with
             | Some _ = Some _ => inversion H; subst; clear H
             | parse_members _ _ _ = _ => fail 1
             | context [match ?x with _ => _ end] => destruct x eqn:?
             end;
        try discriminate; try (eapply IHm; eassumption).
Qed.

Lemma JSON_parse_defined (text : string) (v : jsval) :
  JSON_parse text = Ok v -> v <> JUndefined.
Proof.
  unfold JSON_parse. intros H.
  destruct (parse_value _ text) as [[v' r]|] eqn:E; [|discriminate].
  destruct (is_empty (skip_ws r)); [|discriminate].
  inversion H; subst.
  eapply (proj1 (parse_defined _)). exact E.
Qed.

Lemma get_prop_ok (v : jsval) (name : string) :
  v <> JUndefined -> v <> JNull -> exists x, get_prop v name = Ok x.
Proof.
  intros H1 H2. destruct v; try contradiction; cbn [get_prop]; eauto.
Qed.

End ExtractorProps.

Section ExtractorTheorems.
Import Host TelegramAuth ExtractorProps.

Lemma JSON_parse_throws (text : string) (e : js_error) :
  JSON_parse text = Throw e -> e = SyntaxError.
Proof.
  unfold JSON_parse. intros H.
  destruct (parse_value _ text) as [[v r]|]; [|congruence].
  destruct (is_empty (skip_ws r)); congruence.
Qed.

Lemma default_when_absent (x fallback : jsval) :
  x = JUndefined -> js_or x fallback = fallback.
Proof. intros ->. reflexivity. Qed.

Lemma extract_try_parsed (d json : string) (user : jsval) :
  get (URLSearchParams d) "user" = Some json ->
  is_empty json = false ->
  JSON_parse json = Ok user ->
  user <> JNull ->
  exists id uname first last lang premium,
    get_prop user "id" = Ok id
    /\ get_prop user "language_code" = Ok lang
    /\ get_prop user "is_premium" = Ok premium
    /\ extract_try d =
         Ok (Some {| telegramId := id;
                     username := js_or uname JNull;
                     firstName := js_or first (JStr EmptyString);
                     lastName := js_or last (JStr EmptyString);
                     languageCode := js_or lang (JStr "en");
                     isPremium := js_or premium (JBool false) |}).
Proof.
  intros Hget Hjson Hparse Hnull.
  pose proof (JSON_parse_defined json user Hparse) as Hdef.
  destruct (get_prop_ok user "id" Hdef Hnull) as [id Hid].
  destruct (get_prop_ok user "username" Hdef Hnull) as [uname Hun].
  destruct (get_prop_ok user "first_name" Hdef Hnull) as [first Hfi].
  destruct (get_prop_ok user "last_name" Hdef Hnull) as [last Hla].
  destruct (get_prop_ok user "language_code" Hdef Hnull) as [lang Hlang].
  destruct (get_prop_ok user "is_premium" Hdef Hnull) as [premium Hpr].
  exists id, uname, first, last, lang, premium.
  split; [exact Hid|]. split; [exact Hlang|]. split; [exact Hpr|].
  unfold extract_try. rewrite Hget, Hjson, Hparse. cbn [rbind].
  rewrite Hid. cbn [rbind]. rewrite Hun. cbn [rbind]. rewrite Hfi. cbn [rbind].
  rewrite Hla. cbn [rbind]. rewrite Hlang. cbn [rbind]. rewrite Hpr.
  reflexivity.
Qed.

Lemma extract_try_null (d json : string) :
  get (URLSearchParams d) "user" = Some json ->
  is_empty json = false ->
  JSON_parse json = Ok JNull ->
  extract_try d = Throw TypeError.
Proof.
  intros Hget Hjson Hparse. unfold extract_try.
  rewrite Hget, Hjson, Hparse. reflexivity.
Qed.

Lemma extract_try_unparsable (d json : string) (e : js_error) :
  get (URLSearchParams d) "user" = Some json ->
  is_empty json = false ->
  JSON_parse json = Throw e ->
  extract_try d = Throw e.
Proof.
  intros Hget Hjson Hparse. unfold extract_try.
  rewrite Hget, Hjson, Hparse. reflexivity.
Qed.

Lemma extract_try_no_user (d : string) :
  falsy (get (URLSearchParams d) "user") = true -> extract_try d = Ok None.
Proof.
  unfold extract_try. destruct (get (URLSearchParams d) "user") as [json|].
  - cbn [falsy]. intros ->. reflexivity.
  - reflexivity.
Qed.

Lemma jsval_null_dec (v : jsval) : {v = JNull} + {v <> JNull}.
Proof. destruct v; (left; reflexivity) || (right; discriminate). Qed.

(** C8 (as the code has it): the extractor always returns, either [null] or
    a record.  It returns [null] exactly when the payload is missing or
    empty, has no (or an empty) [user] field, or that field is not JSON or
    is the JSON value [null].  Otherwise the record's platform-user-id is
    whatever the [id] member of the value is ([undefined] when there is
    none); the locale is ["en"] and the premium flag [false] when their
    members are absent. *)
Theorem extractor_outcome (initData : option string) :
  match extractTelegramUser initData with
  | None =>
      falsy initData = true
      \/ exists d, initData = Some d
           /\ (falsy (get (URLSearchParams d) "user") = true
               \/ exists json, get (URLSearchParams d) "user" = Some json
                    /\ (JSON_parse json = Throw SyntaxError
                        \/ JSON_parse json = Ok JNull))
  | Some u =>
      exists d json user,
        initData = Some d
        /\ get (URLSearchParams d) "user" = Some json
        /\ JSON_parse json = Ok user
        /\ get_prop user "id" = Ok (telegramId u)
        /\ (get_prop user "language_code" = Ok JUndefined ->
            languageCode u = JStr "en")
        /\ (get_prop user "is_premium" = Ok JUndefined ->
            isPremium u = JBool false)
  end.
Proof.
  destruct initData as [d|]; [|left; reflexivity].
  cbn [extractTelegramUser falsy].
  destruct (is_empty d) eqn:Ed; [left; reflexivity|].
  destruct (falsy (get (URLSearchParams d) "user")) eqn:Huser.
  { rewrite (extract_try_no_user d Huser).
    right. exists d. split; [reflexivity | left; exact Huser]. }
  destruct (get (URLSearchParams d) "user") as [json|] eqn:Hget;
    [|discriminate Huser].
  cbn [falsy] in Huser.
  destruct (JSON_parse json) as [user|e] eqn:Hparse.
  - destruct (jsval_null_dec user) as [-> | Hnn].
    + rewrite (extract_try_null d json Hget Huser Hparse).
      right. exists d. split; [reflexivity|]. right. exists json.
      split; [exact Hget | right; exact Hparse].
    + destruct (extract_try_parsed d json user Hget Huser Hparse Hnn)
        as (id & uname & first & last & lang & premium & Hid & Hlang & Hpr & ->).
      exists d, json, user.
      split; [reflexivity|]. split; [exact Hget|]. split; [exact Hparse|].
      cbn [telegramId languageCode isPremium].
      split; [exact Hid|]. split; intros H.
      * rewrite Hlang in H. injection H as ->. reflexivity.
      * rewrite Hpr in H. injection H as ->. reflexivity.
  - rewrite (extract_try_unparsable d json e Hget Huser Hparse).
    right. exists d. split; [reflexivity|]. right. exists json.
    split; [exact Hget|]. left.
    rewrite <- (JSON_parse_throws json e Hparse). exact Hparse.
Qed.

(** C8, as stated, fails: a user value without [id], and one whose [id] is
    not a number, both yield a record. *)
Lemma extractor_returns_partial_identity :
  extractTelegramUser (Some "user=%7B%22username%22%3A%22bob%22%7D")
  = Some {| telegramId := JUndefined;
            username := JStr "bob";
            firstName := JStr EmptyString;
            lastName := JStr EmptyString;
            languageCode := JStr "en";
            isPremium := JBool false |}
  /\ extractTelegramUser (Some "user=%7B%22id%22%3A%22abc%22%7D")
     = Some {| telegramId := JStr "abc";
               username := JNull;
               firstName := JStr EmptyString;
               lastName := JStr EmptyString;
               languageCode := JStr "en";
               isPremium := JBool false |}.
Proof. evaluate. Qed.

End ExtractorTheorems.

(* ================================================================== *)
(** * The routes: authentication, user creation, ranks *)
(* ================================================================== *)

Section Columns.
Import Host Database Validation.

Lemma unhex_ascii (c : ascii) (v : Z) : unhex c = Some v -> byte_of_ascii c < 128.
Proof.
  unfold unhex. cbv zeta.
  destruct ((48 <=? byte_of_ascii c) && (byte_of_ascii c <=? 57)) eqn:E1;
    [apply andb_true_iff in E1; destruct E1 as [_ E1]; apply Z.leb_le in E1; lia|].
  destruct ((65 <=? byte_of_ascii c) && (byte_of_ascii c <=? 70)) eqn:E2;
    [apply andb_true_iff in E2; destruct E2 as [_ E2]; apply Z.leb_le in E2; lia|].
  destruct ((97 <=? byte_of_ascii c) && (byte_of_ascii c <=? 102)) eqn:E3;
    [apply andb_true_iff in E3; destruct E3 as [_ E3]; apply Z.leb_le in E3; lia|].
  discriminate.
Qed.

Lemma slot_ok_ascii (k : uuid_slot) (c : ascii) :
  slot_ok k c = true -> byte_of_ascii c < 128.
Proof.
  destruct k; cbn [slot_ok]; unfold is_chr.
  - destruct (unhex c) as [v|] eqn:E; [|discriminate].
    intros _. exact (unhex_ascii c v E).
  - intros H. apply Z.eqb_eq in H. lia.
  - intros H. apply Z.eqb_eq in H. lia.
  - destruct (unhex c) as [v|] eqn:E; [|discriminate].
    intros _. exact (unhex_ascii c v E).
Qed.

Lemma shape_characters (shape : list uuid_slot) (s : string) :
  matches_shape shape s = true -> characters s = Z.of_nat (List.length shape).
Proof.
  revert s. induction shape as [|k shape IH]; intros [|c r]; cbn [matches_shape];
    try discriminate; [reflexivity|].
  intros H. apply andb_true_iff in H. destruct H as [Hc Hr].
  apply slot_ok_ascii in Hc. cbn [characters List.length].
  rewrite (IH r Hr).
  replace ((128 <=? byte_of_ascii c) && (byte_of_ascii c <? 192)) with false; [lia|].
  symmetry. apply andb_false_iff. left. apply Z.leb_gt. exact Hc.
Qed.

Lemma characters_nonneg (s : string) : 0 <= characters s.
Proof.
  induction s as [|c r IH]; cbn [characters]; [lia|].
  destruct ((128 <=? byte_of_ascii c) && (byte_of_ascii c <? 192)); lia.
Qed.

Lemma split_short (s : string) :
  forall n, characters s <= Z.of_nat n -> split_characters n s = (s, EmptyString).
Proof.
  induction s as [|c r IH]; intros n H; cbn [split_characters]; [reflexivity|].
  cbn [characters] in H. pose proof (characters_nonneg r) as Hr.
  destruct ((128 <=? byte_of_ascii c) && (byte_of_ascii c <? 192)).
  - rewrite (IH n) by lia. reflexivity.
  - destruct n as [|m]; [lia|]. rewrite (IH m) by lia. reflexivity.
Qed.

(** A text of at most [n] characters is stored as it is. *)
Lemma short_fits (n : Z) (s : string) :
  0 <= n -> characters s <= n ->
  fits_varchar n s = true /\ stored_varchar n s = s.
Proof.
  intros Hn H. unfold fits_varchar, stored_varchar.
  rewrite (split_short s (Z.to_nat n)) by lia. split; reflexivity.
Qed.

(** A session id with the form of a UUID fills its column exactly. *)
Lemma uuid_fits (sid : string) : isUUID4 sid = true -> fits_varchar 36 sid = true.
Proof.
  intros H. apply short_fits; [lia|]. rewrite (shape_characters _ _ H). cbn. lia.
Qed.

Lemma uuid_stored (sid : string) : isUUID4 sid = true -> stored_varchar 36 sid = sid.
Proof.
  intros H. apply short_fits; [lia|]. rewrite (shape_characters _ _ H). cbn. lia.
Qed.

Lemma accepted_session_is_uuid (b : game_result) (sid : string) :
  validateGameResult b = Pass -> sessionId b = Some sid -> isUUID4 sid = true.
Proof.
  unfold validateGameResult, field_errors, sessionId. intros Hv Hsid.
  destruct (sessionId_field b) as [| |s]; try discriminate.
  injection Hsid as ->.
  destruct (isUUID4 sid); [reflexivity | discriminate].
Qed.

End Columns.

Section RouteExamples.
Import Host Database TelegramAuth Validation Scores Auth Props.

(** A validated submission under a session id is stored and answered 201,
    whatever the store holds: nothing on the route asks who sends it. *)
Lemma session_submission_always_stored (b : game_result) (sid : string) (d : db) :
  validateGameResult b = Pass ->
  telegramId b = None ->
  Validation.sessionId b = Some sid ->
  is_empty sid = false ->
  status (fst (postScores true b d)) = HTTP.CREATED
  /\ List.length (scores (snd (postScores true b d)))
     = S (List.length (scores d)).
Proof.
  intros Hv Htid Hsid Hne. unfold postScores. cbn [negb]. rewrite Hv.
  unfold saveScore. rewrite Htid, Hsid, Hne. cbn [run exec].
  destruct (find (has_session sid) (users d)) as [u|] eqn:Hfind.
  - apply find_some in Hfind. destruct Hfind as [Hin _].
    unfold storeResult. cbn [run exec].
    replace (existsb (fun v => u_id v =? u_id u) (users d)) with true.
    + cbn [run exec fst snd status add_score scores].
      split; [reflexivity|]. rewrite length_app. cbn [List.length]. lia.
    + symmetry. apply existsb_exists. exists u.
      split; [exact Hin | apply Z.eqb_refl].
  - cbn [run exec].
    rewrite (uuid_fits sid (accepted_session_is_uuid b sid Hv Hsid)),
      (uuid_stored sid (accepted_session_is_uuid b sid Hv Hsid)).
    cbn [negb].
    replace (collides d sid None) with false.
    + unfold storeResult. cbn [run exec add_user users].
      rewrite existsb_app. cbn [existsb u_id]. rewrite Z.eqb_refl.
      rewrite orb_true_r.
      cbn [run exec fst snd status add_score add_user scores].
      split; [reflexivity|]. rewrite length_app. cbn [List.length]. lia.
    + symmetry. unfold collides.
      destruct (existsb _ (users d)) eqn:E; [|reflexivity].
      apply existsb_exists in E. destruct E as (u & Hin & Hu).
      rewrite orb_false_r in Hu.
      pose proof (find_none _ _ Hfind u Hin) as Hn. congruence.
Qed.

(** C1 fails on the code: [POST /api/scores] never runs the authentication
    middleware.  In production, a session id that the middleware refuses
    with 401, and a Telegram id sent with a forged payload that it refuses
    with 401, each create a user row and store a result, answered 201. *)
Theorem scores_route_skips_authentication :
  let with_session := sample_result 500 10 20 60000 in
  let with_forgery := telegram_result 1 500 (Some forged_payload) in
  (telegramAuthMiddleware (L := code_unit_order) production
     None (Validation.sessionId with_session)
   = Respond HTTP.UNAUTHORIZED "Session authentication not allowed in production"
   /\ status (fst (postScores true with_session empty_db)) = HTTP.CREATED
   /\ List.length (users (snd (postScores true with_session empty_db))) = 1%nat
   /\ List.length (scores (snd (postScores true with_session empty_db))) = 1%nat)
  /\ (telegramAuthMiddleware (L := code_unit_order) production
        (Validation.initData with_forgery) None
      = Respond HTTP.UNAUTHORIZED "Invalid Telegram authentication"
      /\ status (fst (postScores true with_forgery empty_db)) = HTTP.CREATED
      /\ map u_telegram_id (users (snd (postScores true with_forgery empty_db)))
         = [Some 1]
      /\ map s_score (scores (snd (postScores true with_forgery empty_db)))
         = [500]).
Proof. cbv zeta. evaluate. Qed.

(** With the flag set the middleware goes straight to extraction: its
    answer does not depend on [NODE_ENV], on the token or on the verifier. *)
Lemma skip_flag_bypasses_verifier {L : Locale} (env : environment)
    (initData sessionId : option string) :
  env_is (SKIP_TELEGRAM_VERIFY env) "true" = true ->
  falsy initData = false ->
  telegramAuthMiddleware env initData sessionId
  = match extractTelegramUser initData with
    | None => Respond HTTP.BAD_REQUEST "Could not extract user data"
    | Some telegramUser =>
        Next {| req_telegramUser := Some telegramUser;
                req_sessionId := None;
                req_authMethod := Some ViaTelegram |}
    end.
Proof.
  intros Hskip Hdata. unfold telegramAuthMiddleware.
  rewrite Hskip, Hdata. cbn [negb]. rewrite andb_false_r. reflexivity.
Qed.

(** C2 fails on the code: with [NODE_ENV=production] and
    [SKIP_TELEGRAM_VERIFY=true] a payload that does not pass the verifier is
    trusted, by the middleware and by [POST /api/auth/telegram] alike;
    without the flag both refuse it with 401. *)
Theorem verification_bypassed_in_production :
  let trusted :=
    {| TelegramAuth.telegramId := JNum false 1 0;
       username := JNull;
       firstName := JStr EmptyString;
       lastName := JStr EmptyString;
       languageCode := JStr "en";
       isPremium := JBool false |} in
  NODE_ENV production_skipping = Some "production"
  /\ verifyTelegramWebAppData (L := code_unit_order)
       (Some forged_payload) (BOT_TOKEN production_skipping) = false
  /\ telegramAuthMiddleware (L := code_unit_order) production_skipping
       (Some forged_payload) None
     = Next {| req_telegramUser := Some trusted;
               req_sessionId := None;
               req_authMethod := Some ViaTelegram |}
  /\ postTelegram_gate (L := code_unit_order) production_skipping
       (Some forged_payload) = Proceed trusted
  /\ telegramAuthMiddleware (L := code_unit_order) production
       (Some forged_payload) None
     = Respond HTTP.UNAUTHORIZED "Invalid Telegram authentication"
  /\ postTelegram_gate (L := code_unit_order) production (Some forged_payload)
     = Refuse HTTP.UNAUTHORIZED "Invalid Telegram data".
Proof. cbv zeta. evaluate. Qed.

(** The plain [INSERT] of the scores route fails once a row with that
    Telegram id exists; the upsert of the auth route does not, and adds no
    row. *)
Lemma insert_after_creation_fails (d : db) (tid : Z) :
  fits_bigint_unsigned tid = true ->
  existsb (has_telegram tid) (users d) = true ->
  fst (exec (InsertUserTelegram tid) d) = inl ER_DUP_ENTRY
  /\ users (snd (exec (InsertUserTelegram tid) d)) = users d.
Proof.
  intros Hfit H. cbn [exec]. rewrite Hfit. cbn [negb].
  assert (Hc : collides d (draw_uuid d) (Some tid) = true).
  { unfold collides. apply existsb_exists. apply existsb_exists in H.
    destruct H as (u & Hin & Hu). exists u. split; [exact Hin|].
    rewrite Hu. apply orb_true_r. }
  rewrite Hc. split; reflexivity.
Qed.

Lemma update_first_length hit f (us : list user_row) :
  List.length (update_first hit f us) = List.length us.
Proof.
  induction us as [|u us IH]; [reflexivity|].
  cbn [update_first]. destruct (hit u); cbn [List.length]; congruence.
Qed.

Lemma upsert_after_creation_succeeds (d : db) (tid : Z) (name : option string) :
  fits_bigint_unsigned tid = true ->
  fits_username name = true ->
  existsb (has_telegram tid) (users d) = true ->
  fst (exec (UpsertUserTelegram tid name) d) = inr tt
  /\ List.length (users (snd (exec (UpsertUserTelegram tid name) d)))
     = List.length (users d).
Proof.
  intros Hfit Hname H. cbn [exec]. rewrite Hfit, Hname. cbn [negb].
  assert (Hc : collides d (draw_uuid d) (Some tid) = true).
  { unfold collides. apply existsb_exists. apply existsb_exists in H.
    destruct H as (u & Hin & Hu). exists u. split; [exact Hin|].
    rewrite Hu. apply orb_true_r. }
  rewrite Hc. split; [reflexivity|]. cbn [snd users with_users].
  apply update_first_length.
Qed.

(** C3 fails on the scores route: two first submissions for Telegram id 42
    that both look the user up before either creates it.  The second
    [INSERT] raises a duplicate-key error and that request is answered 500;
    one user row exists.  On the same schedule the auth route, which uses
    the upsert and reads the row back, serves both requests. *)
Theorem concurrent_first_submissions_collide :
  let first := Running (saveScore (telegram_result 42 500 None)) in
  let second := Running (saveScore (telegram_result 42 700 None)) in
  let login := Running (findOrCreateUser 42 (Some "ann")) in
  let raced :=
    interleave [true; false; true; false; true; true] first second empty_db in
  let upserted :=
    interleave [true; false; true; false; true; false] login login empty_db in
  let row := {| u_id := 1;
                u_session_id := sample_uuid 0;
                u_username := Some "ann";
                u_telegram_id := Some 42;
                u_created_at := 0;
                u_updated_at := 0 |} in
  (fst (fst raced)
   = Running (Ret {| status := HTTP.CREATED; body := ScoreSaved 1 1 500 10 3 |})
   /\ snd (fst raced) = Failed ER_DUP_ENTRY
   /\ status (errorHandler ER_DUP_ENTRY) = HTTP.INTERNAL_ERROR
   /\ map u_telegram_id (users (snd raced)) = [Some 42]
   /\ map s_score (scores (snd raced)) = [500])
  /\ (fst (fst upserted) = Running (Ret (Some row))
      /\ snd (fst upserted) = Running (Ret (Some row))
      /\ users (snd upserted) = [row]).
Proof. cbv zeta. evaluate. Qed.

End RouteExamples.

Section SubmissionRank.
Import Host Database Validation Scores Props.

Lemma validation_rejects_with_400 (b : game_result) st err fields :
  validateGameResult b = Reject st err fields -> st = HTTP.BAD_REQUEST.
Proof.
  unfold validateGameResult, handleValidationErrors.
  destruct (field_errors b).
  - unfold antiCheat.
    destruct ((MIN_DURATION_FOR_ANTICHEAT <=? durationMs b)
              && PrimFloat.ltb 0 (durationMin b));
      [destruct (PrimFloat.ltb (num GAME.MAX_SCORE_PER_MINUTE) (scorePerMin b));
       [|destruct (PrimFloat.ltb (num GAME.MAX_HITS_PER_MINUTE) (hitsPerMin b))]|];
      try (intros H; inversion H; reflexivity);
      destruct ((0 <? shotsFired b) && (shotsFired b <? targetsHit b));
      intros H; inversion H; reflexivity.
  - intros H. inversion H. reflexivity.
Qed.

Lemma rows_above_own_row (sc : Z) (rows : list score_row) (r : score_row) :
  s_score r = sc -> rows_above sc (rows ++ [r]) = rows_above sc rows.
Proof.
  intros Hr. unfold rows_above. rewrite filter_app. cbn [filter].
  rewrite Hr, Z.ltb_irrefl, app_nil_r. reflexivity.
Qed.

(** Storing a result answers 201 with one more than the number of rows
    above the submitted score, counted after (equally, before) the new row
    is in the table. *)
Lemma run_storeResult (b : game_result) (uid : Z) (d d' : db) (resp : response) :
  run (storeResult b uid) d = (inr resp, d') ->
  exists id,
    resp = {| status := HTTP.CREATED;
              body := ScoreSaved id (1 + rows_above (score b) (scores d'))
                                 (score b) (targetsHit b) (maxCombo b) |}
    /\ rows_above (score b) (scores d') = rows_above (score b) (scores d).
Proof.
  unfold storeResult. cbn [run exec].
  destruct (existsb (fun u => u_id u =? uid) (users d)); [|discriminate].
  cbn [run exec add_score scores]. intros H. inversion H; subst; clear H.
  exists (next_score_id d). cbn [scores].
  match goal with |- context [scores d ++ [?r]] => set (row := r) end.
  change (Z.of_nat (List.length (filter (fun r => score b <? s_score r)
                                        (scores d ++ [row]))))
    with (rows_above (score b) (scores d ++ [row])).
  assert (Hrow : rows_above (score b) (scores (add_score d row))
                 = rows_above (score b) (scores d))
    by (apply rows_above_own_row; reflexivity).
  split; [|exact Hrow].
  rewrite Hrow. cbn [add_score scores] in Hrow. rewrite Hrow.
  replace (rows_above (score b) (scores d) + 1 =? 0) with false.
  - rewrite Z.add_comm. reflexivity.
  - symmetry. apply Z.eqb_neq. unfold rows_above. lia.
Qed.

Lemma run_saveScore (b : game_result) (d d' : db) (resp : response) :
  run (saveScore b) d = (inr resp, d') ->
  status resp = HTTP.CREATED ->
  exists id,
    body resp = ScoreSaved id (1 + rows_above (score b) (scores d'))
                           (score b) (targetsHit b) (maxCombo b).
Proof.
  intros Hrun Hst.
  assert (Hstore : forall uid d0,
             run (storeResult b uid) d0 = (inr resp, d') ->
             exists id,
               body resp = ScoreSaved id (1 + rows_above (score b) (scores d'))
                                      (score b) (targetsHit b) (maxCombo b)).
  { intros uid d0 H. destruct (run_storeResult b uid d0 d' resp H) as (id & -> & _).
    exists id. reflexivity. }
  assert (Hsession :
            forall p,
              p = match sessionId b with
                  | Some sid =>
                      if is_empty sid then Ret credentials_required
                      else Do (SelectUserBySession sid) (fun user =>
                             match user with
                             | None => Do (InsertUserSession sid) (storeResult b)
                             | Some u => storeResult b (u_id u)
                             end)
                  | None => Ret credentials_required
                  end ->
              run p d = (inr resp, d') ->
              exists id,
                body resp = ScoreSaved id (1 + rows_above (score b) (scores d'))
                                       (score b) (targetsHit b) (maxCombo b)).
  { intros p -> H.
    destruct (sessionId b) as [sid|].
    - destruct (is_empty sid).
      + cbn [run] in H. inversion H; subst. discriminate Hst.
      + cbn [run exec] in H.
        destruct (find (has_session sid) (users d)) as [u|].
        * eapply Hstore. exact H.
        * cbn [run exec] in H.
          destruct (fits_varchar 36 sid); cbn [negb] in H; [|discriminate].
          destruct (collides d (stored_varchar 36 sid) None); [discriminate|].
          eapply Hstore. exact H.
    - cbn [run] in H. inversion H; subst. discriminate Hst. }
  unfold saveScore in Hrun.
  destruct (telegramId b) as [tid|].
  - destruct (tid =? 0).
    + eapply Hsession; [reflexivity | exact Hrun].
    + cbn [run exec] in Hrun.
      destruct (find (has_telegram tid) (users d)) as [u|].
      * eapply Hstore. exact Hrun.
      * cbn [run exec] in Hrun.
        destruct (fits_bigint_unsigned tid); cbn [negb] in Hrun; [|discriminate].
        destruct (collides d (draw_uuid d) (Some tid)); [discriminate|].
        eapply Hstore. exact Hrun.
  - eapply Hsession; [reflexivity | exact Hrun].
Qed.

(** C10: the rank answered with 201 is one more than the number of stored
    result rows, of all users and counting every row, whose score is above
    the submitted one.  It is not the rank of the profile routes: when user
    2 submits 80 against the rows 100 and 90 of user 1, the submission is
    ranked 3 and the profile of user 2 says 2. *)
Theorem submission_rank_counts_rows :
  (forall (limiter_allows : bool) (b : game_result) (d d' : db) (resp : response),
      postScores limiter_allows b d = (resp, d') ->
      status resp = HTTP.CREATED ->
      exists id,
        body resp = ScoreSaved id (1 + rows_above (score b) (scores d'))
                               (score b) (targetsHit b) (maxCombo b))
  /\ (let submitted := postScores true (sample_result 80 10 20 60000) two_users in
      fst submitted
      = {| status := HTTP.CREATED; body := ScoreSaved 3 3 80 10 1 |}
      /\ profile_rank 2 (snd submitted) = 2).
Proof.
  split.
  - intros lim b d d' resp H Hst. unfold postScores in H.
    destruct lim; cbn [negb] in H;
      [|inversion H; subst; discriminate Hst].
    destruct (validateGameResult b) as [|st err fields] eqn:Hv.
    + destruct (run (saveScore b) d) as [[e|r] d1] eqn:Hrun.
      * inversion H; subst. discriminate Hst.
      * inversion H; subst. eapply run_saveScore; eassumption.
    + inversion H; subst. cbn [status] in Hst.
      rewrite (validation_rejects_with_400 b st err fields Hv) in Hst.
      discriminate Hst.
  - cbv zeta. evaluate.
Qed.

Lemma submission_rank_counts_rows_witness :
  exists id,
    body (fst (postScores true (sample_result 80 10 20 60000) two_users))
    = ScoreSaved id
        (1 + rows_above 80
               (scores (snd (postScores true (sample_result 80 10 20 60000)
                                        two_users))))
        80 10 1.
Proof.
  apply (proj1 submission_rank_counts_rows true
               (sample_result 80 10 20 60000) two_users
               (snd (postScores true (sample_result 80 10 20 60000) two_users))
               (fst (postScores true (sample_result 80 10 20 60000) two_users))).
  - apply surjective_pairing.
  - reflexivity.
Defined.

End SubmissionRank.

(* ================================================================== *)
(** * Properties of the leaderboard *)
(* ================================================================== *)

Module SortProps.
Import Host Props.

Section StableSort.
Context {A : Type} (cmp : A -> A -> Z).

Local Abbreviation before := (stands_before cmp).

Lemma insert_sorted_perm (x : A) (l : list A) :
  Permutation (insert_sorted cmp x l) (x :: l).
Proof.
  induction l as [|y l IH]; cbn [insert_sorted]; [reflexivity|].
  destruct (cmp x y <=? 0); [reflexivity|].
  rewrite IH. apply perm_swap.
Qed.

Lemma sort_perm (l : list A) : Permutation (sort cmp l) l.
Proof.
  induction l as [|x l IH]; cbn [sort]; [reflexivity|].
  rewrite insert_sorted_perm, IH. reflexivity.
Qed.

Hypothesis cmp_total : forall a b, before a b \/ before b a.
Hypothesis cmp_trans : forall a b c, before a b -> before b c -> before a c.

Lemma insert_sorted_sorted (x : A) (l : list A) :
  StronglySorted before l -> StronglySorted before (insert_sorted cmp x l).
Proof.
  induction 1 as [|y l Hl IH Hy]; cbn [insert_sorted].
  - constructor; constructor.
  - destruct (cmp x y <=? 0) eqn:E.
    + apply Z.leb_le in E. constructor.
      * constructor; assumption.
      * constructor; [exact E|].
        eapply Forall_impl; [|exact Hy]. intros z Hz.
        eapply cmp_trans; [exact E | exact Hz].
    + apply Z.leb_gt in E.
      assert (Hyx : before y x).
      { destruct (cmp_total x y) as [H | H]; [unfold before in H; lia | exact H]. }
      constructor; [exact IH|].
      eapply Permutation_Forall.
      * symmetry. apply insert_sorted_perm.
      * constructor; assumption.
Qed.

Lemma sort_sorted (l : list A) : StronglySorted before (sort cmp l).
Proof.
  induction l as [|x l IH]; cbn [sort]; [constructor|].
  apply insert_sorted_sorted. exact IH.
Qed.

(** The first row of a sorted table stands before every row of the table. *)
Lemma sort_head_first (l : list A) (h : A) (rest : list A) :
  sort cmp l = h :: rest ->
  In h l /\ forall r, In r l -> before h r.
Proof.
  intros E. pose proof (sort_sorted l) as Hs. pose proof (sort_perm l) as Hp.
  rewrite E in Hs, Hp. split.
  - eapply Permutation_in; [exact Hp | left; reflexivity].
  - intros r Hr.
    assert (Hin : In r (h :: rest))
      by (eapply Permutation_in; [symmetry; exact Hp | exact Hr]).
    destruct Hin as [<- | Hin].
    + destruct (cmp_total h h); assumption.
    + inversion Hs as [|? ? _ Hall]; subst.
      rewrite Forall_forall in Hall. apply Hall. exact Hin.
Qed.

End StableSort.

Section Sublists.
Context {A : Type}.

Lemma In_firstn (n : nat) (l : list A) (x : A) : In x (firstn n l) -> In x l.
Proof.
  intros H. rewrite <- (firstn_skipn n l). apply in_or_app. left. exact H.
Qed.

Lemma In_skipn (n : nat) (l : list A) (x : A) : In x (skipn n l) -> In x l.
Proof.
  intros H. rewrite <- (firstn_skipn n l). apply in_or_app. right. exact H.
Qed.

Lemma StronglySorted_weaken (R S : A -> A -> Prop) (l : list A) :
  (forall a b, R a b -> S a b) -> StronglySorted R l -> StronglySorted S l.
Proof.
  intros HRS. induction 1 as [|x l Hl IH Hx]; constructor; [exact IH|].
  eapply Forall_impl; [|exact Hx]. intros y. apply HRS.
Qed.

Lemma StronglySorted_skipn (R : A -> A -> Prop) (n : nat) (l : list A) :
  StronglySorted R l -> StronglySorted R (skipn n l).
Proof.
  revert l. induction n as [|n IH]; intros l H; [exact H|].
  destruct l as [|x l]; [exact H|]. cbn [skipn]. apply IH.
  inversion H; assumption.
Qed.

Lemma StronglySorted_firstn (R : A -> A -> Prop) (n : nat) (l : list A) :
  StronglySorted R l -> StronglySorted R (firstn n l).
Proof.
  revert l. induction n as [|n IH]; intros l H; [constructor|].
  destruct l as [|x l]; [constructor|]. cbn [firstn].
  inversion H as [|? ? Hl Hx]; subst. constructor; [apply IH; exact Hl|].
  rewrite Forall_forall in *. intros y Hy. apply Hx.
  eapply In_firstn. exact Hy.
Qed.

Lemma NoDup_map_firstn {B : Type} (f : A -> B) (n : nat) (l : list A) :
  NoDup (map f l) -> NoDup (map f (firstn n l)).
Proof.
  intros H. rewrite <- (firstn_skipn n l), map_app in H.
  eapply NoDup_app_remove_r. exact H.
Qed.

Lemma NoDup_map_skipn {B : Type} (f : A -> B) (n : nat) (l : list A) :
  NoDup (map f l) -> NoDup (map f (skipn n l)).
Proof.
  intros H. rewrite <- (firstn_skipn n l), map_app in H.
  eapply NoDup_app_remove_l. exact H.
Qed.

Lemma filter_keeps_distinct {K : Type} (key : A -> K) (keep : A -> bool)
    (rows : list A) :
  NoDup (map key rows) -> NoDup (map key (filter keep rows)).
Proof.
  intros Hrows. induction rows as [|x rows IH]; [constructor|].
  cbn [map filter] in *. inversion Hrows as [|? ? Hx Hrest]; subst.
  destruct (keep x); [|apply IH; exact Hrest].
  cbn [map]. constructor; [|apply IH; exact Hrest].
  intros Hin. apply Hx. apply in_map_iff in Hin.
  destruct Hin as (y & Hy & Hyin). apply filter_In in Hyin.
  apply in_map_iff. exists y. split; [exact Hy | apply Hyin].
Qed.

(** Rows that a key tells apart are told apart by any field that determines
    the key. *)
Lemma NoDup_map_determined {B C : Type} (f : A -> B) (g : A -> C) (l : list A) :
  NoDup (map f l) ->
  (forall x y, In x l -> In y l -> g x = g y -> f x = f y) ->
  NoDup (map g l).
Proof.
  induction l as [|x l IH]; cbn [map]; intros H Hdet; [constructor|].
  inversion H as [|? ? Hx Hl]; subst. constructor.
  - intros Hin. apply Hx. apply in_map_iff in Hin.
    destruct Hin as (y & Hy & Hyin). apply in_map_iff. exists y.
    split; [|exact Hyin]. symmetry. apply Hdet.
    + left; reflexivity.
    + right; exact Hyin.
    + symmetry; exact Hy.
  - apply IH; [exact Hl|]. intros a b Ha Hb. apply Hdet; right; assumption.
Qed.

Lemma NoDup_map_inj {B : Type} (f : A -> B) (l : list A) (x y : A) :
  NoDup (map f l) -> In x l -> In y l -> f x = f y -> x = y.
Proof.
  induction l as [|z l IH]; cbn [map]; intros H Hx Hy E; [contradiction|].
  inversion H as [|? ? Hz Hl]; subst.
  destruct Hx as [-> | Hx], Hy as [-> | Hy].
  - reflexivity.
  - exfalso. apply Hz. rewrite E. apply in_map. exact Hy.
  - exfalso. apply Hz. rewrite <- E. apply in_map. exact Hx.
  - apply IH; assumption.
Qed.

End Sublists.

End SortProps.

Module LeaderboardProps.
Import Host Database Validation Scores Props SortProps.

Lemma best_first_no_worse (t : board) (a b : score_row) :
  best_first t a b <= 0 <-> no_worse t a b.
Proof.
  unfold best_first, no_worse.
  destruct (key t a =? key t b) eqn:E.
  - apply Z.eqb_eq in E. lia.
  - apply Z.eqb_neq in E. lia.
Qed.

Lemma best_first_total (t : board) (a b : score_row) :
  best_first t a b <= 0 \/ best_first t b a <= 0.
Proof. rewrite !best_first_no_worse. unfold no_worse. lia. Qed.

Lemma best_first_trans (t : board) (a b c : score_row) :
  best_first t a b <= 0 -> best_first t b c <= 0 -> best_first t a c <= 0.
Proof. rewrite !best_first_no_worse. unfold no_worse. lia. Qed.

Lemma key_desc_total (t : board) (a b : score_row * user_row) :
  key_desc t a b <= 0 \/ key_desc t b a <= 0.
Proof. unfold key_desc. lia. Qed.

Lemma key_desc_trans (t : board) (a b c : score_row * user_row) :
  key_desc t a b <= 0 -> key_desc t b c <= 0 -> key_desc t a c <= 0.
Proof. unfold key_desc. lia. Qed.

(** At most one user row carries a given id. *)
Lemma at_most_one_user (us : list user_row) (k : Z) :
  NoDup (map u_id us) ->
  filter (fun u => u_id u =? k) us = []
  \/ exists u, filter (fun u => u_id u =? k) us = [u].
Proof.
  induction us as [|u us IH]; cbn [map filter]; intros H; [left; reflexivity|].
  inversion H as [|? ? Hu Hus]; subst.
  destruct (u_id u =? k) eqn:E; [|apply IH; exact Hus].
  right. exists u. f_equal. apply Z.eqb_eq in E.
  destruct (filter (fun v => u_id v =? k) us) as [|v rest] eqn:F; [reflexivity|].
  exfalso. apply Hu.
  assert (Hv : In v (filter (fun v => u_id v =? k) us)) by (rewrite F; left; reflexivity).
  apply filter_In in Hv. destruct Hv as [Hv Hk]. apply Z.eqb_eq in Hk.
  rewrite E, <- Hk. apply in_map. exact Hv.
Qed.

Lemma joined_In (d : db) (s : score_row) (u : user_row) :
  In (s, u) (joined d)
  <-> In s (scores d) /\ In u (users d) /\ u_id u = s_user_id s.
Proof.
  unfold joined. rewrite in_flat_map. split.
  - intros (s' & Hs & Hin). apply in_map_iff in Hin.
    destruct Hin as (u' & Heq & Hu). inversion Heq; subst.
    apply filter_In in Hu. destruct Hu as [Hu Hk]. apply Z.eqb_eq in Hk.
    repeat split; assumption.
  - intros (Hs & Hu & Hk). exists s. split; [exact Hs|].
    apply in_map. apply filter_In. split; [exact Hu | apply Z.eqb_eq; exact Hk].
Qed.

(** The join keeps every result at most once. *)
Lemma joined_distinct (us : list user_row) (ss : list score_row) :
  NoDup (map u_id us) ->
  NoDup (map s_id ss) ->
  NoDup (map (fun su : score_row * user_row => s_id (fst su))
             (flat_map (fun s => map (pair s)
                                     (filter (fun u => u_id u =? s_user_id s) us)) ss)).
Proof.
  intros Hus. induction ss as [|s ss IH]; cbn [flat_map map]; intros Hss;
    [constructor|].
  inversion Hss as [|? ? Hs Hrest]; subst.
  rewrite map_app. apply NoDup_app.
  - destruct (at_most_one_user us (s_user_id s) Hus) as [-> | [u ->]];
      cbn [map]; repeat constructor; intros [].
  - apply IH. exact Hrest.
  - intros k Hk Hk'. apply Hs.
    apply in_map_iff in Hk. destruct Hk as (su & <- & Hsu).
    apply in_map_iff in Hsu. destruct Hsu as (u & <- & _). cbn [fst] in *.
    apply in_map_iff in Hk'. destruct Hk' as ([s' u'] & Hid & Hin).
    cbn [fst] in Hid. apply in_flat_map in Hin.
    destruct Hin as (s'' & Hs'' & Hin). apply in_map_iff in Hin.
    destruct Hin as (u'' & Heq & _). inversion Heq; subst.
    rewrite <- Hid. apply in_map. exact Hs''.
Qed.

(** The row the inner [SELECT] picks for a user is a best one, and [s.id =
    (SELECT ...)] holds of that row only. *)
Lemma is_best_sound (t : board) (d : db) (s : score_row) :
  NoDup (map s_id (scores d)) ->
  In s (scores d) ->
  eligible t s = true ->
  is_best t (scores d) s = true ->
  best_of_its_user t d s.
Proof.
  intros Hids Hs Hel Hbest. unfold is_best, best_of_user, order_by in Hbest.
  destruct (sort (best_first t) _) as [|h rest] eqn:E; [discriminate|].
  apply Z.eqb_eq in Hbest.
  destruct (sort_head_first (best_first t) (best_first_total t)
              (best_first_trans t) _ h rest E) as [Hh Hmax].
  apply filter_In in Hh. destruct Hh as [Hh _].
  assert (s = h) by (eapply NoDup_map_inj; eassumption). subst h.
  split; [exact Hs|]. split; [exact Hel|].
  intros r Hr Hu Her. apply best_first_no_worse. apply Hmax.
  apply filter_In. split; [exact Hr|].
  rewrite Her, andb_true_r. apply Z.eqb_eq. exact Hu.
Qed.

Lemma is_best_same_user (t : board) (rows : list score_row) (a b : score_row) :
  is_best t rows a = true -> is_best t rows b = true ->
  s_user_id a = s_user_id b -> s_id a = s_id b.
Proof.
  unfold is_best. intros Ha Hb E. rewrite E in Ha.
  destruct (best_of_user t (s_user_id b) rows); [|discriminate].
  apply Z.eqb_eq in Ha, Hb. congruence.
Qed.

Lemma ranked_In (t : board) (d : db) (row : score_row * user_row) :
  In row (ranked t d)
  <-> In row (joined d)
      /\ eligible t (fst row) = true /\ is_best t (scores d) (fst row) = true.
Proof.
  unfold ranked, order_by. split.
  - intros H. apply (Permutation_in _ (sort_perm _ _)) in H.
    apply filter_In in H. rewrite andb_true_iff in H. exact H.
  - intros H. apply (Permutation_in _ (Permutation_sym (sort_perm _ _))).
    apply filter_In. rewrite andb_true_iff. exact H.
Qed.

Lemma ranked_users_distinct (t : board) (d : db) :
  keys_distinct d -> NoDup (map user_of (ranked t d)).
Proof.
  intros [Hs Hu]. unfold ranked, order_by.
  eapply Permutation_NoDup.
  { apply Permutation_map. symmetry. apply sort_perm. }
  apply (NoDup_map_determined (fun su : score_row * user_row => s_id (fst su))).
  - apply filter_keeps_distinct. apply joined_distinct; assumption.
  - intros x y Hx Hy E. apply filter_In in Hx, Hy.
    destruct Hx as [_ Hx], Hy as [_ Hy]. rewrite andb_true_iff in Hx, Hy.
    eapply is_best_same_user; [apply Hx | apply Hy | exact E].
Qed.

Lemma ranked_descending (t : board) (d : db) : descending t (ranked t d).
Proof.
  unfold descending, ranked, order_by.
  eapply StronglySorted_weaken;
    [|apply (sort_sorted (key_desc t) (key_desc_total t) (key_desc_trans t))].
  intros a b H. unfold stands_before, key_desc in H. lia.
Qed.

Lemma getSafeInt_in_range (value : option string) (defaultVal min max : Z) :
  min <= defaultVal <= max ->
  min <= getSafeInt value defaultVal min max <= max.
Proof.
  intros Hd. unfold getSafeInt.
  destruct value as [s|]; [|exact Hd].
  destruct (parseInt s) as [n|]; [|exact Hd].
  destruct ((n <? min) || (max <? n)) eqn:E; [exact Hd|].
  apply orb_false_iff in E. destruct E as [E1 E2].
  apply Z.ltb_ge in E1, E2. lia.
Qed.

Lemma candidates_In (t : board) (d : db) (row : score_row * user_row) :
  In row (candidates t d)
  <-> In row (joined d)
      /\ eligible t (fst row) = true /\ is_best t (scores d) (fst row) = true.
Proof. unfold candidates. rewrite filter_In, andb_true_iff. reflexivity. Qed.

Lemma candidates_users_distinct (t : board) (d : db) :
  keys_distinct d -> NoDup (map user_of (candidates t d)).
Proof.
  intros [Hs Hu]. unfold candidates.
  apply (NoDup_map_determined (fun su : score_row * user_row => s_id (fst su))).
  - apply filter_keeps_distinct. apply joined_distinct; assumption.
  - intros x y Hx Hy E. apply filter_In in Hx, Hy.
    destruct Hx as [_ Hx], Hy as [_ Hy]. rewrite andb_true_iff in Hx, Hy.
    eapply is_best_same_user; [apply Hx | apply Hy | exact E].
Qed.

(** The answer of [order_by] is one that [ORDER BY] admits. *)
Lemma ranked_admissible (t : board) (d : db) :
  ordered_by (key_desc t) (candidates t d) (ranked t d).
Proof.
  unfold ordered_by, ranked, order_by, candidates. split; [apply sort_perm|].
  apply (sort_sorted (key_desc t) (key_desc_total t) (key_desc_trans t)).
Qed.

(** The properties of a page hold of the window of every answer that
    [ORDER BY] admits. *)
Lemma window_properties (t : board) (d : db) (limitNum offsetNum : Z)
    (ranking : list (score_row * user_row)) :
  keys_distinct d ->
  ordered_by (key_desc t) (candidates t d) ranking ->
  let page := window limitNum offsetNum ranking in
  NoDup (map user_of page)
  /\ (forall row, In row page ->
        best_of_its_user t d (fst row)
        /\ In (snd row) (users d)
        /\ u_id (snd row) = s_user_id (fst row))
  /\ descending t page
  /\ (0 <= limitNum -> Z.of_nat (List.length page) <= limitNum)
  /\ (t = ByAccuracy ->
      forall row, In row page -> 10 <= s_shots_fired (fst row)).
Proof.
  intros Hkeys [Hperm Hsorted] page.
  assert (Hin : forall row, In row page -> In row (candidates t d)).
  { intros row H. unfold page, window in H. apply In_firstn, In_skipn in H.
    eapply Permutation_in; [exact Hperm | exact H]. }
  assert (Hrow : forall row, In row page ->
            best_of_its_user t d (fst row)
            /\ In (snd row) (users d)
            /\ u_id (snd row) = s_user_id (fst row)).
  { intros [s u] H. apply Hin, candidates_In in H.
    destruct H as (Hj & Hel & Hbest). apply joined_In in Hj.
    destruct Hj as (Hs & Hu & Hk). cbn [fst snd] in *.
    split; [|split; assumption].
    apply is_best_sound; [apply Hkeys | assumption ..]. }
  split.
  { unfold page, window. apply NoDup_map_firstn, NoDup_map_skipn.
    eapply Permutation_NoDup;
      [apply Permutation_map; symmetry; exact Hperm|].
    apply candidates_users_distinct. exact Hkeys. }
  split; [exact Hrow|].
  split.
  { unfold page, window, descending.
    apply StronglySorted_firstn, StronglySorted_skipn.
    eapply StronglySorted_weaken; [|exact Hsorted].
    intros a b H. unfold key_desc in H. lia. }
  split.
  { intros Hl. unfold page, window.
    pose proof (firstn_le_length (Z.to_nat limitNum)
                  (skipn (Z.to_nat offsetNum) ranking)).
    lia. }
  intros Ht row H. destruct (Hrow row H) as ((_ & Hel & _) & _).
  rewrite Ht in Hel. cbn [eligible] in Hel. apply Z.leb_le. exact Hel.
Qed.

Lemma app_nil_inv {A : Type} (a b : list A) : a ++ b = [] -> a = [] /\ b = [].
Proof. destruct a; [cbn [app]; intros ->; split; reflexivity | discriminate]. Qed.

(** What an accepted query is: each field is absent or passes its check. *)
Lemma query_accepted (q : leaderboard_query) :
  query_errors q = [] ->
  (forall t, q_type q = Some t -> isIn LEADERBOARD_TYPES t = true)
  /\ (forall l, q_limit q = Some l -> isInt 1 (Some PAGINATION.MAX_LIMIT) l = true)
  /\ (forall o, q_offset q = Some o -> isInt 0 None o = true).
Proof.
  unfold query_errors. intros E.
  apply app_nil_inv in E. destruct E as [Ht E].
  apply app_nil_inv in E. destruct E as [Hl Ho].
  split; [|split].
  - intros t Hq. rewrite Hq in Ht. destruct (isIn LEADERBOARD_TYPES t);
      [reflexivity | discriminate].
  - intros l Hq. rewrite Hq in Hl.
    destruct (isInt 1 (Some PAGINATION.MAX_LIMIT) l); [reflexivity | discriminate].
  - intros o Hq. rewrite Hq in Ho.
    destruct (isInt 0 None o); [reflexivity | discriminate].
Qed.

Lemma ranked_rows_kept {A : Type} (rows : list A) :
  forall next, map snd (with_rank next rows) = rows.
Proof.
  induction rows as [|r rows IH]; intros next; [reflexivity|].
  cbn [with_rank map snd]. rewrite IH. reflexivity.
Qed.

End LeaderboardProps.

Section LeaderboardTheorems.
Import Host Database Validation Scores Props SortProps LeaderboardProps.

(** C9 (as the code has it): the route [GET /api/scores/leaderboard].  A
    query with a type outside the list, a limit that is not an integer of
    [1, 100] or an offset that is not an integer from 0 on is refused with
    400 and the names of the fields at fault.  An accepted query is
    answered; the limit is the one given, 10 when none is; the offset is the
    one given when that is at most 100000, and 0 when none is given or when
    the one given is above 100000 (below [10^21]).  The leaders are the
    window that limit and offset cut from the ordered rows, and of every
    answer that the [ORDER BY] of the statement admits that window holds
    each user at most once, by a best result of that user on the dimension
    (the larger key; among equal keys of that user, the most recent), joined
    to its user row, in descending order of the dimension, with no more rows
    than the limit, and on the accuracy board with ten shots or more in
    every row. *)
Theorem leaderboard_route_properties (q : leaderboard_query) (d : db) :
  keys_distinct d ->
  (query_errors q <> [] ->
   getLeaderboard q d
   = inl (HTTP.BAD_REQUEST, "Ошибка валидации", query_errors q))
  /\ (forall t, q_type q = Some t -> isIn LEADERBOARD_TYPES t = false ->
                In "type" (query_errors q))
  /\ (forall l, q_limit q = Some l ->
                isInt 1 (Some PAGINATION.MAX_LIMIT) l = false ->
                In "limit" (query_errors q))
  /\ (forall o, q_offset q = Some o -> isInt 0 None o = false ->
                In "offset" (query_errors q))
  /\ (query_errors q = [] ->
      let t := board_of (q_type q) in
      exists answer,
        getLeaderboard q d = inr answer
        /\ (1 <= limit answer <= 100 /\ 0 <= offset answer <= 100000)
        /\ (q_limit q = None -> limit answer = 10)
        /\ (forall l, q_limit q = Some l -> parseInt l = Some (limit answer))
        /\ (q_offset q = None -> offset answer = 0)
        /\ (forall o, q_offset q = Some o ->
             exists v, parseInt o = Some v
                       /\ (v <= 100000 -> offset answer = v)
                       /\ (100000 < v < 10 ^ 21 -> offset answer = 0))
        /\ ordered_by (key_desc t) (candidates t d) (ranked t d)
        /\ map snd (leaders answer)
           = window (limit answer) (offset answer) (ranked t d)
        /\ forall ranking,
             ordered_by (key_desc t) (candidates t d) ranking ->
             let page := window (limit answer) (offset answer) ranking in
             NoDup (map user_of page)
             /\ (forall row, In row page ->
                   best_of_its_user t d (fst row)
                   /\ In (snd row) (users d)
                   /\ u_id (snd row) = s_user_id (fst row))
             /\ descending t page
             /\ Z.of_nat (List.length page) <= limit answer
             /\ (t = ByAccuracy ->
                 forall row, In row page -> 10 <= s_shots_fired (fst row))).
Proof.
  intros Hkeys.
  split.
  { unfold getLeaderboard, validateLeaderboardQuery, handleValidationErrors.
    intros H. destruct (query_errors q); [contradiction H; reflexivity | reflexivity]. }
  split.
  { intros t Hq Hno. unfold query_errors. rewrite Hq, Hno.
    apply in_or_app. left. left. reflexivity. }
  split.
  { intros l Hq Hno. unfold query_errors. rewrite Hq, Hno.
    apply in_or_app. right. apply in_or_app. left. left. reflexivity. }
  split.
  { intros o Hq Hno. unfold query_errors. rewrite Hq, Hno.
    apply in_or_app. right. apply in_or_app. right. left. reflexivity. }
  intros Hok t.
  destruct (query_accepted q Hok) as (_ & Hl & Ho).
  assert (Hlimit : 1 <= limit_of q <= 100)
    by (apply getSafeInt_in_range;
        unfold PAGINATION.DEFAULT_LIMIT, PAGINATION.MAX_LIMIT; lia).
  assert (Hoffset : 0 <= offset_of q <= 100000)
    by (apply getSafeInt_in_range; lia).
  exists (leaderboardHandler q d).
  split.
  { unfold getLeaderboard, validateLeaderboardQuery, handleValidationErrors.
    rewrite Hok. reflexivity. }
  unfold leaderboardHandler. cbn [limit offset leaders].
  split; [split; assumption|].
  split.
  { intros Hq. unfold limit_of, getSafeInt. rewrite Hq. reflexivity. }
  split.
  { intros l Hq. specialize (Hl l Hq). unfold limit_of, getSafeInt. rewrite Hq.
    unfold isInt in Hl. apply andb_true_iff in Hl. destruct Hl as [_ Hl].
    destruct (parseInt l) as [v|]; [|discriminate].
    apply andb_true_iff in Hl. destruct Hl as [H1 H2].
    apply Z.leb_le in H1, H2.
    replace ((v <? 1) || (PAGINATION.MAX_LIMIT <? v)) with false; [reflexivity|].
    symmetry. apply orb_false_iff. split; apply Z.ltb_ge; lia. }
  split.
  { intros Hq. unfold offset_of, getSafeInt. rewrite Hq. reflexivity. }
  split.
  { intros o Hq. specialize (Ho o Hq). unfold offset_of, getSafeInt. rewrite Hq.
    unfold isInt in Ho. apply andb_true_iff in Ho. destruct Ho as [_ Ho].
    destruct (parseInt o) as [v|]; [|discriminate].
    rewrite andb_true_r in Ho. apply Z.leb_le in Ho.
    exists v. split; [reflexivity|]. split.
    - intros Hv.
      replace ((v <? 0) || (100000 <? v)) with false; [reflexivity|].
      symmetry. apply orb_false_iff. split; apply Z.ltb_ge; lia.
    - intros [Hv _].
      replace (100000 <? v) with true by (symmetry; apply Z.ltb_lt; exact Hv).
      rewrite orb_true_r. reflexivity. }
  split; [apply ranked_admissible|].
  split; [apply ranked_rows_kept|].
  intros ranking Hranking.
  destruct (window_properties t d (limit_of q) (offset_of q) ranking Hkeys Hranking)
    as (H1 & H2 & H3 & H4 & H5).
  split; [exact H1|]. split; [exact H2|]. split; [exact H3|].
  split; [apply H4; lia | exact H5].
Qed.

Lemma leaderboard_route_properties_witness :
  let q := {| q_type := Some "score"; q_limit := Some "007"; q_offset := Some "0" |} in
  keys_distinct two_users
  /\ exists answer,
       getLeaderboard q two_users = inr answer
       /\ limit answer = 7
       /\ offset answer = 0
       /\ NoDup (map user_of (map snd (leaders answer)))
       /\ descending ByScore (map snd (leaders answer)).
Proof.
  cbv zeta.
  assert (Hkeys : keys_distinct two_users).
  { split; cbn; repeat constructor; cbn; intuition discriminate. }
  split; [exact Hkeys|].
  destruct (leaderboard_route_properties
              {| q_type := Some "score"; q_limit := Some "007"; q_offset := Some "0" |}
              two_users Hkeys) as (_ & _ & _ & _ & Hok).
  destruct (Hok eq_refl)
    as (answer & Hget & _ & _ & Hl & _ & Ho & Hadm & Hpage & Hall).
  exists answer. split; [exact Hget|].
  specialize (Hl "007" eq_refl).
  destruct (Ho "0" eq_refl) as (v & Hv & Hsmall & _).
  assert (Hseven : parseInt "007" = Some 7) by (vm_compute; reflexivity).
  assert (Hzero : parseInt "0" = Some 0) by (vm_compute; reflexivity).
  assert (Hlimit : limit answer = 7).
  { rewrite Hseven in Hl. injection Hl as Hl. symmetry. exact Hl. }
  assert (Hoffset : offset answer = 0).
  { rewrite Hzero in Hv. injection Hv as <-. apply Hsmall. lia. }
  split; [exact Hlimit|]. split; [exact Hoffset|].
  destruct (Hall _ Hadm) as (Hnodup & _ & Hdesc & _).
  rewrite Hpage. split; [exact Hnodup | exact Hdesc].
Defined.

(** C9, as stated, fails on two counts.  An offset above the range is not
    clamped to its bound but replaced by the default: the request passes
    validation and the first page is served.  And the order of the page does
    not break ties by recency: the statement orders by the dimension alone,
    so of two users with the same score an answer with the one who played
    first in front is one that it admits. *)
Lemma leaderboard_not_as_claimed :
  let far := {| q_type := None; q_limit := None; q_offset := Some "200000" |} in
  (validateLeaderboardQuery far = Pass
   /\ (exists answer, getLeaderboard far tied_users = inr answer
                      /\ offset answer = 0)
   /\ clamp 0 100000 200000 = 100000)
  /\ (exists older newer,
        candidates ByScore tied_users = [older; newer]
        /\ user_of older <> user_of newer
        /\ s_score (fst older) = s_score (fst newer)
        /\ s_created_at (fst older) < s_created_at (fst newer)
        /\ ordered_by (key_desc ByScore) (candidates ByScore tied_users)
                      [older; newer]).
Proof.
  cbv zeta. split.
  - split; [vm_compute; reflexivity|]. split; [|vm_compute; reflexivity].
    eexists. split; [vm_compute; reflexivity | reflexivity].
  - eexists. eexists. split; [vm_compute; reflexivity|].
    split; [vm_compute; discriminate|]. split; [reflexivity|].
    split; [reflexivity|].
    split; [vm_compute; apply Permutation_refl|].
    repeat constructor; vm_compute; discriminate.
Qed.

End LeaderboardTheorems.

(* ================================================================== *)
(** * The canonical string *)
(* ================================================================== *)

Section CanonicalString.
Import Host TelegramAuth Props SortProps.
Context {L : Locale}.

(** No pair named [hash] is left in what is signed. *)
Lemma signature_field_removed (params : list (string * string)) :
  get (delete params "hash") "hash" = None.
Proof.
  induction params as [|[k v] params IH]; [reflexivity|].
  unfold delete in *. cbn [filter fst].
  destruct (String.eqb k "hash") eqn:E; cbn [negb]; [exact IH|].
  cbn [get]. rewrite E. exact IH.
Qed.

(** When the comparison of the locale is total and transitive, the pairs
    that are joined are the remaining pairs, in ascending order of key. *)
Lemma signed_pairs_sorted (initData : string) :
  (forall a b : string, localeCompare a b <= 0 \/ localeCompare b a <= 0) ->
  (forall a b c : string,
      localeCompare a b <= 0 -> localeCompare b c <= 0 -> localeCompare a c <= 0) ->
  let remaining := delete (URLSearchParams initData) "hash" in
  let signed := sort (fun a b => localeCompare (fst a) (fst b)) remaining in
  Permutation signed remaining
  /\ StronglySorted (fun a b => localeCompare (fst a) (fst b) <= 0) signed
  /\ canonical_string initData = join newline (map line signed).
Proof.
  intros Htotal Htrans remaining signed. split; [apply sort_perm|].
  split; [|reflexivity].
  apply (sort_sorted (fun a b : string * string => localeCompare (fst a) (fst b))).
  - intros a b. apply Htotal.
  - intros a b c. apply Htrans.
Qed.

End CanonicalString.

Section LeaderboardResponse.
Import Host Database Validation Scores Props.

Lemma with_rank_rows {A : Type} (rows : list A) :
  forall next, map snd (with_rank next rows) = rows.
Proof.
  induction rows as [|r rows IH]; intros next; [reflexivity|].
  cbn [with_rank map snd]. rewrite IH. reflexivity.
Qed.

(** The leaders of the response are the rows of the page, numbered from
    [offset + 1]. *)
Lemma leaders_are_the_page (q : leaderboard_query) (d : db) :
  map snd (leaders (leaderboardHandler q d)) = leaderboard_page q d
  /\ map fst (leaders (leaderboardHandler q d))
     = map (fun i => offset_of q + 1 + Z.of_nat i)
           (seq 0 (List.length (leaderboard_page q d))).
Proof.
  unfold leaderboardHandler. cbn [leaders]. split; [apply with_rank_rows|].
  generalize (offset_of q + 1) as next. generalize (leaderboard_page q d) as rows.
  induction rows as [|r rows IH]; intros next; [reflexivity|].
  cbn [with_rank map fst List.length seq]. f_equal; [lia|].
  rewrite IH, <- seq_shift, map_map. apply map_ext. intros i. lia.
Qed.

End LeaderboardResponse.

(* ================================================================== *)
(** * Further properties: the authentication middleware *)
(* ================================================================== *)

Section MiddlewareOutcomes.
Import Host TelegramAuth Props.
Context {L : Locale}.

(** X1.  When the middleware calls [next()], either it attached the identity
    extracted from a payload, and then the process runs in development, or
    with the skip flag, or the payload passed the verifier under a token
    that is set; or no payload was sent and it attached the session id, and
    then the process runs in development or session logins are allowed. *)
Theorem middleware_passes_only_authorised (env : environment)
    (initData sessionId : option string) (req : auth_info) :
  telegramAuthMiddleware env initData sessionId = Next req ->
  (falsy initData = false
   /\ req_authMethod req = Some ViaTelegram
   /\ req_sessionId req = None
   /\ req_telegramUser req = extractTelegramUser initData
   /\ req_telegramUser req <> None
   /\ (env_is (NODE_ENV env) "development" = true
       \/ env_is (SKIP_TELEGRAM_VERIFY env) "true" = true
       \/ (falsy (BOT_TOKEN env) = false
           /\ verifyTelegramWebAppData initData (BOT_TOKEN env) = true)))
  \/ (falsy initData = true
      /\ falsy sessionId = false
      /\ req_authMethod req = Some ViaSession
      /\ req_sessionId req = sessionId
      /\ req_telegramUser req = None
      /\ (env_is (NODE_ENV env) "development" = true
          \/ env_is (ALLOW_SESSION_AUTH env) "true" = true)).
Proof.
  unfold telegramAuthMiddleware. intros H.
  destruct (falsy initData) eqn:Hdata; cbn [negb] in H.
  - right. destruct (falsy sessionId) eqn:Hsid; cbn [negb] in H; [discriminate|].
    destruct (env_is (NODE_ENV env) "development") eqn:Hdev; cbn [orb negb] in H.
    + inversion H; subst. cbn. repeat split; auto.
    + destruct (env_is (ALLOW_SESSION_AUTH env) "true") eqn:Hallow;
        cbn [negb] in H; [|discriminate].
      inversion H; subst. cbn. repeat split; auto.
  - left.
    assert (Hgate :
              env_is (NODE_ENV env) "development" = true
              \/ env_is (SKIP_TELEGRAM_VERIFY env) "true" = true
              \/ (falsy (BOT_TOKEN env) = false
                  /\ verifyTelegramWebAppData initData (BOT_TOKEN env) = true)).
    { destruct (env_is (NODE_ENV env) "development"); [left; reflexivity|].
      destruct (env_is (SKIP_TELEGRAM_VERIFY env) "true");
        [right; left; reflexivity|].
      cbn [negb andb] in H. right. right.
      destruct (falsy (BOT_TOKEN env)); [discriminate|].
      destruct (verifyTelegramWebAppData initData (BOT_TOKEN env));
        [split; reflexivity | discriminate]. }
    assert (Hnext :
              match extractTelegramUser initData with
              | None => Respond HTTP.BAD_REQUEST "Could not extract user data"
              | Some telegramUser =>
                  Next {| req_telegramUser := Some telegramUser;
                          req_sessionId := None;
                          req_authMethod := Some ViaTelegram |}
              end = Next req).
    { destruct (negb (env_is (NODE_ENV env) "development")
                && negb (env_is (SKIP_TELEGRAM_VERIFY env) "true")).
      - destruct (falsy (BOT_TOKEN env)); [discriminate|].
        destruct (negb (verifyTelegramWebAppData initData (BOT_TOKEN env)));
          [discriminate | exact H].
      - exact H. }
    destruct (extractTelegramUser initData) as [u|]; [|discriminate].
    inversion Hnext; subst. cbn.
    repeat split; auto. discriminate.
Qed.

(** X2.  The non-blocking variant never attaches a session id when a payload was
    sent, also when the payload is not accepted: the request then goes on
    with no identity.  It attaches a Telegram identity only in development,
    without a token, or for a payload that passed the verifier. *)
Theorem optional_auth_prefers_payload (env : environment)
    (initData sessionId : option string) :
  (falsy initData = false ->
   req_sessionId (optionalTelegramAuth env initData sessionId) = None)
  /\ (req_authMethod (optionalTelegramAuth env initData sessionId)
      = Some ViaTelegram ->
      falsy initData = false
      /\ (env_is (NODE_ENV env) "development" = true
          \/ falsy (BOT_TOKEN env) = true
          \/ verifyTelegramWebAppData initData (BOT_TOKEN env) = true))
  /\ (falsy initData = true ->
      req_telegramUser (optionalTelegramAuth env initData sessionId) = None).
Proof.
  unfold optionalTelegramAuth.
  destruct (falsy initData) eqn:Hdata; cbn [negb].
  - split; [discriminate|]. split.
    + destruct (falsy sessionId); cbn; discriminate.
    + intros _. destruct (falsy sessionId); reflexivity.
  - split.
    + intros _.
      destruct (env_is (NODE_ENV env) "development" || falsy (BOT_TOKEN env)
                || verifyTelegramWebAppData initData (BOT_TOKEN env));
        reflexivity.
    + split; [|discriminate].
      destruct (env_is (NODE_ENV env) "development"); cbn [orb];
        [intros _; split; [reflexivity | left; reflexivity]|].
      destruct (falsy (BOT_TOKEN env)); cbn [orb];
        [intros _; split; [reflexivity | right; left; reflexivity]|].
      destruct (verifyTelegramWebAppData initData (BOT_TOKEN env));
        [intros _; split; [reflexivity | right; right; reflexivity]|].
      cbn. discriminate.
Qed.

End MiddlewareOutcomes.

Section MiddlewareExamples.
Import Host TelegramAuth Props.

Lemma middleware_passes_only_authorised_witness :
  exists req,
    telegramAuthMiddleware (L := code_unit_order) production_skipping
      (Some forged_payload) None = Next req
    /\ req_authMethod req = Some ViaTelegram.
Proof.
  eexists. split; [reflexivity|].
  destruct (middleware_passes_only_authorised (L := code_unit_order)
              production_skipping (Some forged_payload) None _ eq_refl)
    as [(_ & Hm & _) | (Hf & _)].
  - exact Hm.
  - discriminate Hf.
Defined.

End MiddlewareExamples.

(* ================================================================== *)
(** * Further properties: the result validator *)
(* ================================================================== *)

Section ValidatorAcceptance.
Import Host Validation Props Terms.

Lemma no_error_when (c : bool) (field : string) :
  (if c then [] else [field]) = [] <-> c = true.
Proof. destruct c; split; intros H; try reflexivity; discriminate. Qed.

Lemma app_nil_both {A : Type} (l l' : list A) :
  l ++ l' = [] <-> l = [] /\ l' = [].
Proof.
  split; [apply app_eq_nil|]. intros [-> ->]. reflexivity.
Qed.

Lemma in_range_spec (lo hi x : Z) : in_range lo hi x = true <-> lo <= x <= hi.
Proof. unfold in_range. rewrite andb_true_iff, !Z.leb_le. tauto. Qed.

Lemma field_errors_none (b : game_result) :
  field_errors b = []
  <-> no_null_field b /\ optional_fields_valid b /\ within_bounds b.
Proof.
  unfold field_errors, no_null_field, optional_fields_valid, within_bounds,
    sessionId, telegramId, gameMode.
  rewrite !app_nil_both, !no_error_when, !in_range_spec.
  split.
  - intros (Hs & Ht & Hsc & Hh & Hsh & Hc & Hd & Hm).
    split; [|split; [|tauto]].
    + repeat split; intros E; rewrite E in *; discriminate.
    + repeat split.
      * intros s E. destruct (sessionId_field b); try discriminate.
        injection E as ->. apply no_error_when in Hs. exact Hs.
      * intros t E. destruct (telegramId_field b); try discriminate.
        injection E as ->. apply no_error_when in Ht. apply Z.leb_le. exact Ht.
      * intros m E. destruct (gameMode_field b); try discriminate.
        injection E as ->. apply no_error_when in Hm. exact Hm.
  - intros ((Ns & Nt & Nm) & (Hs & Ht & Hm) & Hb).
    repeat split; try tauto.
    + destruct (sessionId_field b) as [| |s]; [reflexivity | contradiction|].
      apply no_error_when. apply Hs. reflexivity.
    + destruct (telegramId_field b) as [| |t]; [reflexivity | contradiction|].
      apply no_error_when. apply Z.leb_le. apply Ht. reflexivity.
    + destruct (gameMode_field b) as [| |m]; [reflexivity | contradiction|].
      apply no_error_when. apply Hm. reflexivity.
Qed.

Lemma accepted_after_range_checks (b : game_result) :
  validateGameResult b = Pass -> passes_range_checks b.
Proof.
  intros H. unfold passes_range_checks. unfold validateGameResult in H.
  destruct (field_errors b); [reflexivity | discriminate].
Qed.

Lemma accepted_facts (b : game_result) :
  validateGameResult b = Pass ->
  optional_fields_valid b
  /\ within_bounds b
  /\ ~ hits_exceed_shots b
  /\ (rate_checks_run b -> rates_within_ceilings b).
Proof.
  intros H.
  pose proof (accepted_after_range_checks b H) as Hrange.
  rewrite (validate_after_range_checks b Hrange) in H.
  destruct (proj1 (field_errors_none b) Hrange) as (_ & Hopt & Hbounds).
  split; [exact Hopt|]. split; [exact Hbounds|].
  pose proof (duration_in_minutes_positive b Hrange) as Hpos.
  unfold antiCheat in H. rewrite Hpos, andb_true_r in H.
  split.
  - intros Hex. rewrite (inconsistent_guard b Hex) in H.
    destruct (MIN_DURATION_FOR_ANTICHEAT <=? durationMs b);
      [destruct (PrimFloat.ltb _ (scorePerMin b));
       [|destruct (PrimFloat.ltb _ (hitsPerMin b))]|];
      discriminate.
  - intros Hrun. unfold rate_checks_run in Hrun. apply Z.leb_le in Hrun.
    rewrite Hrun in H. unfold rates_within_ceilings.
    destruct (PrimFloat.ltb _ (scorePerMin b)); [discriminate|].
    destruct (PrimFloat.ltb _ (hitsPerMin b)); [discriminate|].
    split; reflexivity.
Qed.

(** X3.  What acceptance needs, without the rates.  A payload that the
    validation chain accepts has no optional field holding [null], has the
    optional fields that it carries in their form, has its numbers within
    the bounds and, when it has shots, no more hits than shots.  For a game
    of less than ten seconds these conditions are also enough. *)
Theorem acceptance_conditions (b : game_result) :
  (validateGameResult b = Pass ->
   no_null_field b
   /\ optional_fields_valid b
   /\ within_bounds b
   /\ ~ hits_exceed_shots b)
  /\ (durationMs b < MIN_DURATION_FOR_ANTICHEAT ->
      no_null_field b
      /\ optional_fields_valid b
      /\ within_bounds b
      /\ ~ hits_exceed_shots b ->
      validateGameResult b = Pass).
Proof.
  split.
  - intros H.
    destruct (proj1 (field_errors_none b) (accepted_after_range_checks b H))
      as (Hnull & _ & _).
    destruct (accepted_facts b H) as (Hopt & Hbounds & Hcons & _).
    split; [exact Hnull|]. split; [exact Hopt|]. split; [exact Hbounds | exact Hcons].
  - intros Hshort (Hnull & Hopt & Hbounds & Hcons).
    assert (Hrange : passes_range_checks b).
    { apply field_errors_none. split; [exact Hnull|]. split; assumption. }
    rewrite (validate_after_range_checks b Hrange).
    unfold antiCheat. rewrite (consistent_guard b Hcons).
    replace (MIN_DURATION_FOR_ANTICHEAT <=? durationMs b) with false;
      [reflexivity|]. symmetry. apply Z.leb_gt. exact Hshort.
Qed.

(** The rates are compared as the runtime computes them, in binary64: 21
    hits in 10500 ms are 120 a minute, the ceiling itself, and are refused,
    the quotient computed being a little above 120. *)
Lemma ceiling_itself_is_refused :
  let b := sample_result 0 21 30 10500 in
  targetsHit b * 60000 = GAME.MAX_HITS_PER_MINUTE * durationMs b
  /\ validateGameResult b = Reject HTTP.BAD_REQUEST error_hits_rate [].
Proof. split; vm_compute; reflexivity. Qed.

End ValidatorAcceptance.

(* ================================================================== *)
(** * Further properties: what [POST /api/scores] does to the store *)
(* ================================================================== *)

Section SubmissionEffects.
Import Host Database Validation Scores Props Terms.

Lemma accuracy_written (b : game_result) :
  decimal_5_4
    (fst (if 0 <? shotsFired b then (targetsHit b, shotsFired b) else (0, 1)))
    (snd (if 0 <? shotsFired b then (targetsHit b, shotsFired b) else (0, 1)))
  = if 0 <? shotsFired b then decimal_5_4 (targetsHit b) (shotsFired b) else 0.
Proof. destruct (0 <? shotsFired b); reflexivity. Qed.

Lemma storeResult_runs (b : game_result) (uid : Z) (d : db) :
  existsb (fun u => u_id u =? uid) (users d) = true ->
  exists resp,
    run (storeResult b uid) d = (inr resp, add_score d (row_written b uid d))
    /\ status resp = HTTP.CREATED.
Proof.
  intros Hu. unfold storeResult. cbn [run exec]. rewrite Hu.
  cbn [run exec]. rewrite accuracy_written.
  eexists. split; reflexivity.
Qed.

Lemma found_user_exists (hit : user_row -> bool) (us : list user_row) (u : user_row) :
  find hit us = Some u -> existsb (fun v => u_id v =? u_id u) us = true.
Proof.
  intros H. apply find_some in H. apply existsb_exists. exists u.
  split; [apply H | apply Z.eqb_refl].
Qed.

Lemma new_user_exists (d : db) (sid : string) (name : option string) (tid : option Z) :
  existsb (fun v => u_id v =? next_user_id d) (users (add_user d sid name tid)) = true.
Proof.
  cbn [add_user users]. rewrite existsb_app. cbn [existsb u_id].
  rewrite Z.eqb_refl. apply orb_true_r.
Qed.

(** What a run of the handler does: it answers 201 after appending the row
    of the payload, for a user that it found or appended; or it answers 400
    and changes nothing; or the [INSERT] of the user fails and no table is
    changed. *)
Lemma saveScore_runs (b : game_result) (d : db) :
  (exists resp uid d1,
      run (saveScore b) d = (inr resp, add_score d1 (row_written b uid d1))
      /\ status resp = HTTP.CREATED
      /\ existsb (fun u => u_id u =? uid) (users d1) = true
      /\ scores d1 = scores d
      /\ next_score_id d1 = next_score_id d
      /\ clock d1 = clock d
      /\ (users d1 = users d \/ exists u, users d1 = users d ++ [u] /\ u_id u = uid))
  \/ (run (saveScore b) d = (inr credentials_required, d))
  \/ (exists e d1, run (saveScore b) d = (inl e, d1)
                   /\ users d1 = users d /\ scores d1 = scores d).
Proof.
  assert (Hfound : forall u,
             existsb (fun v => u_id v =? u_id u) (users d) = true ->
             exists resp uid d1,
               run (storeResult b (u_id u)) d
               = (inr resp, add_score d1 (row_written b uid d1))
               /\ status resp = HTTP.CREATED
               /\ existsb (fun v => u_id v =? uid) (users d1) = true
               /\ scores d1 = scores d
               /\ next_score_id d1 = next_score_id d
               /\ clock d1 = clock d
               /\ (users d1 = users d
                   \/ exists w, users d1 = users d ++ [w] /\ u_id w = uid)).
  { intros u Hu. destruct (storeResult_runs b (u_id u) d Hu) as (resp & Hr & Hs).
    exists resp, (u_id u), d. repeat split; try assumption. left. reflexivity. }
  assert (Hnew : forall d1 sid name tid,
             d1 = add_user d sid name tid \/ d1 = add_user (after_uuid d) sid name tid ->
             exists resp uid d2,
               run (storeResult b (next_user_id d)) d1
               = (inr resp, add_score d2 (row_written b uid d2))
               /\ status resp = HTTP.CREATED
               /\ existsb (fun v => u_id v =? uid) (users d2) = true
               /\ scores d2 = scores d
               /\ next_score_id d2 = next_score_id d
               /\ clock d2 = clock d
               /\ (users d2 = users d
                   \/ exists w, users d2 = users d ++ [w] /\ u_id w = uid)).
  { intros d1 sid name tid Hd1.
    assert (Hu : existsb (fun v => u_id v =? next_user_id d) (users d1) = true).
    { destruct Hd1 as [-> | ->]; [apply new_user_exists|].
      apply (new_user_exists (after_uuid d)). }
    destruct (storeResult_runs b (next_user_id d) d1 Hu) as (resp & Hr & Hs).
    exists resp, (next_user_id d), d1.
    split; [exact Hr|]. split; [exact Hs|]. split; [exact Hu|].
    destruct Hd1 as [-> | ->]; cbn [add_user after_uuid scores next_score_id clock users];
      repeat split; right; eexists; split; reflexivity. }
  assert (Hsession :
            forall p,
              p = match sessionId b with
                  | Some sid =>
                      if is_empty sid then Ret credentials_required
                      else Do (SelectUserBySession sid) (fun user =>
                             match user with
                             | None => Do (InsertUserSession sid) (storeResult b)
                             | Some u => storeResult b (u_id u)
                             end)
                  | None => Ret credentials_required
                  end ->
              (exists resp uid d1,
                  run p d = (inr resp, add_score d1 (row_written b uid d1))
                  /\ status resp = HTTP.CREATED
                  /\ existsb (fun u => u_id u =? uid) (users d1) = true
                  /\ scores d1 = scores d
                  /\ next_score_id d1 = next_score_id d
                  /\ clock d1 = clock d
                  /\ (users d1 = users d
                      \/ exists u, users d1 = users d ++ [u] /\ u_id u = uid))
              \/ (run p d = (inr credentials_required, d))
              \/ (exists e d1, run p d = (inl e, d1)
                               /\ users d1 = users d /\ scores d1 = scores d)).
  { intros p ->. destruct (sessionId b) as [sid|];
      [|right; left; reflexivity].
    destruct (is_empty sid); [right; left; reflexivity|].
    cbn [run exec].
    destruct (find (has_session sid) (users d)) as [u|] eqn:Hfind.
    - left. apply Hfound. eapply found_user_exists. exact Hfind.
    - cbn [run exec].
      destruct (fits_varchar 36 sid); cbn [negb];
        [|right; right; exists ER_DATA_TOO_LONG, d; repeat split].
      destruct (collides d (stored_varchar 36 sid) None).
      + right. right. exists ER_DUP_ENTRY, d. repeat split.
      + left. eapply Hnew. left. reflexivity. }
  unfold saveScore.
  destruct (Validation.telegramId b) as [tid|];
    [|apply Hsession; reflexivity].
  destruct (tid =? 0); [apply Hsession; reflexivity|].
  cbn [run exec].
  destruct (find (has_telegram tid) (users d)) as [u|] eqn:Hfind.
  - left. apply Hfound. eapply found_user_exists. exact Hfind.
  - cbn [run exec].
    destruct (fits_bigint_unsigned tid); cbn [negb];
      [|right; right; exists ER_WARN_DATA_OUT_OF_RANGE, (after_uuid d);
        repeat split].
    destruct (collides d (draw_uuid d) (Some tid)).
    + right. right. exists ER_DUP_ENTRY, (after_uuid d). repeat split.
    + left. eapply Hnew. right. reflexivity.
Qed.

(** X4.  The route only ever appends.  When it answers 201 it has appended
    exactly one result, the row of the payload, and at most one user, the
    owner of that row; with any other answer both tables are as they
    were. *)
Theorem submission_appends_or_changes_nothing
    (limiter_allows : bool) (b : game_result) (d : db) :
  let answer := fst (postScores limiter_allows b d) in
  let after := snd (postScores limiter_allows b d) in
  (status answer = HTTP.CREATED
   /\ exists uid id now,
        scores after
        = scores d ++ [ {| s_id := id;
                           s_user_id := uid;
                           s_score := score b;
                           s_targets_hit := targetsHit b;
                           s_shots_fired := shotsFired b;
                           s_accuracy := if 0 <? shotsFired b
                                         then decimal_5_4 (targetsHit b) (shotsFired b)
                                         else 0;
                           s_max_combo := maxCombo b;
                           s_duration_ms := durationMs b;
                           s_game_mode := match gameMode b with
                                          | Some m => m
                                          | None => "endless"
                                          end;
                           s_created_at := now |} ]
        /\ id = next_score_id d
        /\ now = clock d
        /\ (users after = users d
            \/ exists u, users after = users d ++ [u] /\ u_id u = uid)
        /\ existsb (fun u => u_id u =? uid) (users after) = true)
  \/ (status answer <> HTTP.CREATED
      /\ users after = users d
      /\ scores after = scores d).
Proof.
  cbv zeta. unfold postScores.
  destruct limiter_allows; cbn [negb];
    [|right; repeat split; discriminate].
  destruct (validateGameResult b) as [|st err fields] eqn:Hv.
  - destruct (saveScore_runs b d)
      as [(resp & uid & d1 & Hrun & Hst & Hu & Hsc & Hid & Hclock & Hus)
         | [Hrun | (e & d1 & Hrun & Hus & Hsc)]];
      rewrite Hrun; cbn [fst snd].
    + left. split; [exact Hst|].
      exists uid, (next_score_id d1), (clock d1).
      cbn [add_score scores users]. unfold row_written. rewrite Hsc.
      split; [reflexivity|]. repeat split; assumption.
    + right. repeat split. discriminate.
    + right. repeat split; try assumption. discriminate.
  - right. cbn [fst snd status].
    rewrite (validation_rejects_with_400 b st err fields Hv).
    repeat split. discriminate.
Qed.

End SubmissionEffects.

Section StoredResults.
Import Host Database Validation Scores Props Terms.

Lemma decimal_5_4_unit (h s : Z) :
  0 <= h <= s -> 0 < s -> 0 <= decimal_5_4 h s <= 10000.
Proof.
  intros Hh Hs. unfold decimal_5_4.
  destruct (s <=? 0) eqn:E; [lia|]. split.
  - apply Z.div_pos; lia.
  - apply Z.lt_succ_r. apply Z.div_lt_upper_bound; lia.
Qed.

Lemma accepted_row_sound (b : game_result) (uid : Z) (d : db) :
  validateGameResult b = Pass -> row_sound (row_written b uid d).
Proof.
  intros Hv. destruct (accepted_facts b Hv) as ((_ & _ & Hmode) & Hb & Hcons & _).
  destruct Hb as (Hscore & Hhits & Hshots & Hcombo & Hdur).
  assert (Hle : 0 < shotsFired b -> targetsHit b <= shotsFired b).
  { intros Hpos. destruct (Z_le_gt_dec (targetsHit b) (shotsFired b)) as [H|H];
      [exact H|]. exfalso. apply Hcons. unfold hits_exceed_shots. lia. }
  unfold row_sound, row_written.
  cbn [s_score s_targets_hit s_shots_fired s_accuracy s_max_combo
       s_duration_ms s_game_mode].
  repeat (split; [assumption|]).
  split.
  - destruct (0 <? shotsFired b) eqn:E; [|lia].
    apply Z.ltb_lt in E. apply decimal_5_4_unit; lia.
  - split; [assumption|]. split; [assumption|].
    destruct (gameMode b) as [m|]; [apply Hmode; reflexivity | reflexivity].
Qed.

(** X5.  The route keeps the store sound: if every stored result is within the
    bounds of the data model (ranges, hits not above shots, accuracy between
    0 and 1) and belongs to a user of the store, the same holds after any
    request, whatever its payload. *)
Theorem submission_keeps_results_sound
    (limiter_allows : bool) (b : game_result) (d : db) :
  results_sound d ->
  results_sound (snd (postScores limiter_allows b d)).
Proof.
  intros Hd. unfold postScores.
  destruct limiter_allows; cbn [negb]; [|exact Hd].
  destruct (validateGameResult b) as [|st err fields] eqn:Hv; [|exact Hd].
  destruct (saveScore_runs b d)
    as [(resp & uid & d1 & Hrun & Hst & Hu & Hsc & Hid & Hclock & Hus)
       | [Hrun | (e & d1 & Hrun & Hus & Hsc)]];
    rewrite Hrun; cbn [fst snd].
  - intros r Hr. cbn [add_score scores users] in *.
    rewrite Hsc in Hr. apply in_app_or in Hr. destruct Hr as [Hr | [<- | []]].
    + destruct (Hd r Hr) as [Hsound Howner]. split; [exact Hsound|].
      destruct Hus as [-> | (u & -> & _)]; [exact Howner|].
      rewrite existsb_app, Howner. reflexivity.
    + split; [apply accepted_row_sound; exact Hv | exact Hu].
  - exact Hd.
  - intros r Hr. rewrite Hsc in Hr. rewrite Hus. apply Hd. exact Hr.
Qed.

End StoredResults.

Section StoredResultsExamples.
Import Host Database Validation Scores Props Terms.

Lemma submission_keeps_results_sound_witness :
  results_sound empty_db
  /\ results_sound (snd (postScores true (sample_result 1200 12 20 30000) empty_db)).
Proof.
  assert (H : results_sound empty_db) by (intros r []).
  split; [exact H|].
  apply (submission_keeps_results_sound true (sample_result 1200 12 20 30000) empty_db H).
Defined.

End StoredResultsExamples.

(* ================================================================== *)
(** * Further properties: signing in through [POST /api/auth/telegram] *)
(* ================================================================== *)

Section SignIn.
Import Host Database Auth Props.

Lemma find_map_kept (p : user_row -> bool) (f : user_row -> user_row)
    (us : list user_row) :
  (forall x, p (f x) = p x) ->
  find p (map (fun x => if p x then f x else x) us) = option_map f (find p us).
Proof.
  intros Hp. induction us as [|x r IH]; [reflexivity|].
  cbn [map find]. destruct (p x) eqn:E.
  - rewrite Hp, E. reflexivity.
  - rewrite E. exact IH.
Qed.

Lemma find_update_first_none (p hit : user_row -> bool) (f : user_row -> user_row)
    (us : list user_row) :
  (forall x, p (f x) = p x) ->
  find p us = None -> find p (update_first hit f us) = None.
Proof.
  intros Hp. induction us as [|x r IH]; [reflexivity|].
  cbn [find update_first]. destruct (p x) eqn:E; [discriminate|].
  intros Hr. destruct (hit x); cbn [find].
  - rewrite Hp, E. exact Hr.
  - rewrite E. apply IH. exact Hr.
Qed.

Lemma find_appended (p : user_row -> bool) (us : list user_row) (x : user_row) :
  find p us = None -> p x = true -> find p (us ++ [x]) = Some x.
Proof.
  intros Hn Hx. induction us as [|y r IH]; cbn [app find].
  - rewrite Hx. reflexivity.
  - cbn [find] in Hn. destruct (p y); [discriminate|]. apply IH. exact Hn.
Qed.

Lemma has_telegram_found (tid : Z) (us : list user_row) (u : user_row) :
  find (has_telegram tid) us = Some u -> u_telegram_id u = Some tid.
Proof.
  intros H. apply find_some in H. destruct H as [_ H].
  unfold has_telegram in H. destruct (u_telegram_id u) as [t|]; [|discriminate].
  apply Z.eqb_eq in H. subst t. reflexivity.
Qed.

Lemma same_name_refl (n : string) : same_name (Some n) n = true.
Proof. apply String.eqb_refl. Qed.

(** Rewriting the rows that satisfy a test, twice, is rewriting them once. *)
Lemma map_twice (p : user_row -> bool) (g : user_row -> user_row)
    (us : list user_row) :
  (forall x, p (g x) = p x) -> (forall x, g (g x) = g x) ->
  map (fun x => if p x then g x else x) (map (fun x => if p x then g x else x) us)
  = map (fun x => if p x then g x else x) us.
Proof.
  intros Hp Hg. induction us as [|x r IH]; [reflexivity|].
  cbn [map]. rewrite IH. f_equal.
  destruct (p x) eqn:E; [rewrite Hp, E, Hg | rewrite E]; reflexivity.
Qed.

Lemma map_none_hit (p : user_row -> bool) (g : user_row -> user_row)
    (us : list user_row) :
  find p us = None -> map (fun x => if p x then g x else x) us = us.
Proof.
  induction us as [|x r IH]; cbn [find map]; [reflexivity|].
  destruct (p x); [discriminate|]. intros H. rewrite (IH H). reflexivity.
Qed.

(** X6.  Signing in is idempotent.  When the find-or-create part of the route
    yields a user, that user carries the platform id, and running it again
    with the same identity yields a user with the same id and writes
    nothing. *)
Theorem sign_in_is_idempotent
    (telegramId : Z) (username : option string) (d d1 : db) (u : user_row) :
  run (findOrCreateUser telegramId username) d = (inr (Some u), d1) ->
  u_telegram_id u = Some telegramId
  /\ exists u',
      run (findOrCreateUser telegramId username) d1 = (inr (Some u'), d1)
      /\ u_id u' = u_id u.
Proof.
  unfold findOrCreateUser. cbn [run exec].
  destruct (find (has_telegram telegramId) (users d)) as [v|] eqn:Hfind.
  - assert (Hkept : forall name now x,
               has_telegram telegramId (set_username name now x)
               = has_telegram telegramId x) by reflexivity.
    destruct username as [name|].
    + destruct (negb (is_empty name) && negb (same_name (u_username v) name)) eqn:Hupd.
      * cbn [run exec].
        destruct (existsb (has_telegram telegramId) (users d)
                  && negb (fits_varchar 32 name)) eqn:Hlong; [discriminate|].
        intros H. injection H as <- <-.
        split; [eapply has_telegram_found; exact Hfind|].
        assert (Hfits : negb (fits_varchar 32 name) = false).
        { assert (He : existsb (has_telegram telegramId) (users d) = true).
          { apply existsb_exists. exists v. apply find_some in Hfind. exact Hfind. }
          rewrite He in Hlong. exact Hlong. }
        cbn [users with_users].
        rewrite (find_map_kept (has_telegram telegramId)
                   (set_username (Some (stored_varchar 32 name)) (clock d)) (users d)
                   (Hkept (Some (stored_varchar 32 name)) (clock d))).
        rewrite Hfind. cbn [option_map u_username set_username].
        destruct (negb (is_empty name)
                  && negb (same_name (Some (stored_varchar 32 name)) name)).
        -- cbn [run exec users with_users clock].
           rewrite Hfits, andb_false_r.
           rewrite (map_twice (has_telegram telegramId)
                      (set_username (Some (stored_varchar 32 name)) (clock d)))
             by reflexivity.
           eexists. split; reflexivity.
        -- cbn [run]. eexists. split; reflexivity.
      * cbn [run]. intros H. injection H as <- <-.
        split; [eapply has_telegram_found; exact Hfind|].
        rewrite Hfind, Hupd. cbn [run]. eexists. split; reflexivity.
    + cbn [run]. intros H. injection H as <- <-.
      split; [eapply has_telegram_found; exact Hfind|].
      rewrite Hfind. cbn [run]. eexists. split; reflexivity.
  - cbn [run exec].
    destruct (fits_bigint_unsigned telegramId); cbn [negb]; [|discriminate].
    destruct (fits_username username) eqn:Hname; cbn [negb]; [|discriminate].
    destruct (collides d (draw_uuid d) (Some telegramId)); cbn [run exec users with_users].
    + rewrite (find_update_first_none (has_telegram telegramId) _ _ (users d));
        [discriminate | reflexivity | exact Hfind].
    + cbn [add_user after_uuid users next_user_id clock].
      set (row := {| u_id := next_user_id d;
                     u_session_id := draw_uuid d;
                     u_username := stored_username username;
                     u_telegram_id := Some telegramId;
                     u_created_at := clock d;
                     u_updated_at := clock d |}).
      assert (Hrow : find (has_telegram telegramId) (users d ++ [row]) = Some row).
      { apply find_appended; [exact Hfind|].
        unfold has_telegram. cbn [u_telegram_id row]. apply Z.eqb_refl. }
      rewrite Hrow. intros H. injection H as <- <-. split; [reflexivity|].
      cbn [add_user after_uuid users next_user_id clock]. fold row. rewrite Hrow.
      cbn [u_username row]. destruct username as [name|]; [|cbn [run]; eexists; split; reflexivity].
      cbn [stored_username option_map].
      destruct (negb (is_empty name)
                && negb (same_name (Some (stored_varchar 32 name)) name));
        [|cbn [run]; eexists; split; reflexivity].
      cbn [run exec users clock]. cbn [fits_username] in Hname.
      rewrite Hname. cbn [negb]. rewrite andb_false_r.
      exists row. split; [|reflexivity]. f_equal.
      unfold with_users, add_user, after_uuid.
      cbn [users scores next_user_id next_score_id clock uuid_source uuid_drawn].
      rewrite map_app, (map_none_hit (has_telegram telegramId) _ (users d) Hfind).
      cbn [map]. unfold has_telegram at 1. cbn [u_telegram_id].
      rewrite Z.eqb_refl. reflexivity.
Qed.

Lemma collides_on_session (d : db) (sid : string) (tid : Z) :
  find (has_telegram tid) (users d) = None ->
  collides d sid (Some tid) = existsb (has_session sid) (users d).
Proof.
  unfold collides. induction (users d) as [|x r IH]; [reflexivity|].
  cbn [find existsb]. destruct (has_telegram tid x); [discriminate|].
  intros Hr. rewrite (IH Hr), orb_false_r. reflexivity.
Qed.

(** X7.  Signing in with an integer platform id and an optional handle.
    When the id is within the range of its column and the handle fits its
    own (32 characters, spaces beyond them not counted), the find-or-create
    part does not fail with a database error and leaves the results alone;
    it yields no user exactly when no user has the platform id and the fresh
    [UUID()] is, in the collation of the table, already some user's session
    id.  When no user has the id and the id is outside the range, the insert
    fails with the range error; when the id fits and the handle does not,
    with the length error; in both cases nothing is stored. *)
Theorem sign_in_yields_user
    (telegramId : Z) (username : option string) (d : db) :
  (fits_bigint_unsigned telegramId = true ->
   fits_username username = true ->
   exists r d1,
     run (findOrCreateUser telegramId username) d = (inr r, d1)
     /\ scores d1 = scores d
     /\ (r = None <->
         find (has_telegram telegramId) (users d) = None
         /\ existsb (has_session (draw_uuid d)) (users d) = true))
  /\ (find (has_telegram telegramId) (users d) = None ->
      fits_bigint_unsigned telegramId = false ->
      run (findOrCreateUser telegramId username) d
      = (inl ER_WARN_DATA_OUT_OF_RANGE, after_uuid d))
  /\ (find (has_telegram telegramId) (users d) = None ->
      fits_bigint_unsigned telegramId = true ->
      fits_username username = false ->
      run (findOrCreateUser telegramId username) d
      = (inl ER_DATA_TOO_LONG, after_uuid d)).
Proof.
  split; [|split].
  - intros Hid Hname. unfold findOrCreateUser. cbn [run exec].
    destruct (find (has_telegram telegramId) (users d)) as [v|] eqn:Hfind.
    + assert (Hiff : Some v = None <->
                     Some v = None
                     /\ existsb (has_session (draw_uuid d)) (users d) = true)
        by (split; [discriminate | intros [H _]; discriminate H]).
      destruct username as [name|];
        [destruct (negb (is_empty name) && negb (same_name (u_username v) name))|];
        cbn [run exec];
        try (cbn [fits_username] in Hname; rewrite Hname; cbn [negb];
             rewrite andb_false_r);
        eexists; eexists;
        (split; [reflexivity|]); (split; [reflexivity | exact Hiff]).
    + cbn [run exec]. rewrite Hid, Hname. cbn [negb].
      rewrite (collides_on_session d (draw_uuid d) telegramId Hfind).
      destruct (existsb (has_session (draw_uuid d)) (users d));
        cbn [run exec users with_users add_user after_uuid].
      * rewrite (find_update_first_none (has_telegram telegramId) _ _ (users d));
          [|reflexivity | exact Hfind].
        eexists; eexists. split; [reflexivity|]. split; [reflexivity|].
        split; [intros _; split; reflexivity | reflexivity].
      * erewrite find_appended;
          [|exact Hfind | unfold has_telegram; cbn [u_telegram_id]; apply Z.eqb_refl].
        eexists; eexists. split; [reflexivity|]. split; [reflexivity|].
        split; [discriminate | intros [_ H]; discriminate H].
  - intros Hfind Hid. unfold findOrCreateUser. cbn [run exec].
    rewrite Hfind. cbn [run exec]. rewrite Hid. reflexivity.
  - intros Hfind Hid Hname. unfold findOrCreateUser. cbn [run exec].
    rewrite Hfind. cbn [run exec]. rewrite Hid, Hname. reflexivity.
Qed.

End SignIn.

Section SignInExamples.
Import Host Database Auth Props.

Lemma sign_in_is_idempotent_witness :
  let d1 := snd (run (findOrCreateUser 7 (Some "neo")) empty_db) in
  let u := {| u_id := 1;
              u_session_id := sample_uuid 0;
              u_username := Some "neo";
              u_telegram_id := Some 7;
              u_created_at := 0;
              u_updated_at := 0 |} in
  run (findOrCreateUser 7 (Some "neo")) empty_db = (inr (Some u), d1)
  /\ u_telegram_id u = Some 7
  /\ exists u',
      run (findOrCreateUser 7 (Some "neo")) d1 = (inr (Some u'), d1)
      /\ u_id u' = u_id u.
Proof.
  cbv zeta.
  assert (H : run (findOrCreateUser 7 (Some "neo")) empty_db
              = (inr (Some {| u_id := 1;
                              u_session_id := sample_uuid 0;
                              u_username := Some "neo";
                              u_telegram_id := Some 7;
                              u_created_at := 0;
                              u_updated_at := 0 |}),
                 snd (run (findOrCreateUser 7 (Some "neo")) empty_db)))
    by reflexivity.
  split; [exact H|].
  exact (sign_in_is_idempotent 7 (Some "neo") empty_db _ _ H).
Defined.

(** A handle of 32 characters followed by spaces is cut to its column; one
    followed by anything else is refused. *)
Lemma spaces_beyond_the_column_are_cut :
  fits_varchar 32 "abcdefghijklmnopqrstuvwxyz012345  " = true
  /\ stored_varchar 32 "abcdefghijklmnopqrstuvwxyz012345  "
     = "abcdefghijklmnopqrstuvwxyz012345"
  /\ fits_varchar 32 "abcdefghijklmnopqrstuvwxyz012345 6" = false.
Proof. evaluate. Qed.

Lemma sign_in_yields_user_witness :
  (exists r d1,
      run (findOrCreateUser 7 (Some "neo")) empty_db = (inr r, d1)
      /\ scores d1 = scores empty_db
      /\ (r = None <->
          find (has_telegram 7) (users empty_db) = None
          /\ existsb (has_session (draw_uuid empty_db)) (users empty_db) = true))
  /\ run (findOrCreateUser (-5) (Some "neo")) empty_db
     = (inl ER_WARN_DATA_OUT_OF_RANGE, after_uuid empty_db)
  /\ run (findOrCreateUser (2 ^ 64) None) empty_db
     = (inl ER_WARN_DATA_OUT_OF_RANGE, after_uuid empty_db)
  /\ run (findOrCreateUser 7 (Some "a-handle-of-more-than-thirty-two-characters"))
         empty_db
     = (inl ER_DATA_TOO_LONG, after_uuid empty_db).
Proof.
  split; [|split; [|split]].
  - apply (proj1 (sign_in_yields_user 7 (Some "neo") empty_db)); reflexivity.
  - apply (proj1 (proj2 (sign_in_yields_user (-5) (Some "neo") empty_db)));
      reflexivity.
  - apply (proj1 (proj2 (sign_in_yields_user (2 ^ 64) None empty_db)));
      reflexivity.
  - apply (proj2 (proj2 (sign_in_yields_user 7
                           (Some "a-handle-of-more-than-thirty-two-characters")
                           empty_db)));
      reflexivity.
Defined.

End SignInExamples.

(* ================================================================== *)
(** * Further properties: signing and verifying *)
(* ================================================================== *)

Module SigningProps.
Import Host TelegramAuth Props.

Lemma split_on_inhabited (sep : ascii) (s : string) : split_on sep s <> [].
Proof.
  destruct s as [|c r]; cbn [split_on]; [discriminate|].
  destruct (Ascii.eqb c sep); [discriminate|].
  destruct (split_on sep r); discriminate.
Qed.

(** Splitting a text that has the separator in the middle splits both
    sides. *)
Lemma split_on_around (sep : ascii) (a b : string) :
  split_on sep (a ++ String sep b)%string = split_on sep a ++ split_on sep b.
Proof.
  induction a as [|c r IH]; cbn [String.append split_on].
  - rewrite Ascii.eqb_refl. reflexivity.
  - destruct (Ascii.eqb c sep); rewrite IH; [reflexivity|].
    pose proof (split_on_inhabited sep r) as Hne.
    destruct (split_on sep r); [contradiction | reflexivity].
Qed.

(** No hexadecimal digit is one of the characters the query syntax gives a
    meaning to. *)
Lemma hex_digit_plain (n : Z) :
  0 <= n < 16 ->
  Ascii.eqb (hex_digit n) "&"%char = false
  /\ Ascii.eqb (hex_digit n) "+"%char = false
  /\ Ascii.eqb (hex_digit n) "%"%char = false.
Proof.
  intros H.
  rewrite <- (Z2Nat.id n) by lia.
  assert (Hk : (Z.to_nat n < 16)%nat) by lia.
  revert Hk. generalize (Z.to_nat n). clear H. intros k Hk.
  do 16 (destruct k as [|k]; [repeat split; reflexivity|]). lia.
Qed.

Lemma nibbles (b : Z) : is_byte b -> 0 <= b / 16 < 16 /\ 0 <= b mod 16 < 16.
Proof.
  unfold is_byte. intros H. split.
  - split; [apply Z.div_pos | apply Z.div_lt_upper_bound]; lia.
  - apply Z.mod_pos_bound. lia.
Qed.

Lemma split_on_hex (l : list Z) :
  Forall is_byte l -> split_on "&"%char (hex_encode l) = [hex_encode l].
Proof.
  induction 1 as [|b l Hb _ IH]; [reflexivity|].
  destruct (nibbles b Hb) as [Hhi Hlo].
  destruct (hex_digit_plain _ Hhi) as (E1 & _ & _).
  destruct (hex_digit_plain _ Hlo) as (E2 & _ & _).
  cbn [hex_encode split_on]. rewrite E1, E2, IH. reflexivity.
Qed.

Lemma hex_digit_ascii (n : Z) :
  0 <= n < 16 -> (byte_of_ascii (hex_digit n) <? 128) = true.
Proof.
  intros H.
  rewrite <- (Z2Nat.id n) by lia.
  assert (Hk : (Z.to_nat n < 16)%nat) by lia.
  revert Hk. generalize (Z.to_nat n). clear H. intros k Hk.
  do 16 (destruct k as [|k]; [reflexivity|]). lia.
Qed.

Lemma form_decode_hex (l : list Z) :
  Forall is_byte l -> form_decode (hex_encode l) = hex_encode l.
Proof.
  unfold form_decode, percent_decode, utf8_decode.
  induction 1 as [|b l Hb _ IH]; [reflexivity|].
  destruct (nibbles b Hb) as [Hhi Hlo].
  destruct (hex_digit_plain _ Hhi) as (_ & P1 & Q1).
  destruct (hex_digit_plain _ Hlo) as (_ & P2 & Q2).
  cbn [hex_encode plus_to_space]. rewrite P1, P2.
  cbn [percent_decode_from]. rewrite Q1, Q2.
  cbn [utf8_decode_from].
  rewrite (hex_digit_ascii _ Hhi), (hex_digit_ascii _ Hlo), IH. reflexivity.
Qed.

Lemma get_appended (params : list (string * string)) (k v : string) :
  get params k = None -> get (params ++ [(k, v)]) k = Some v.
Proof.
  induction params as [|[k' v'] r IH]; cbn [app get].
  - rewrite String.eqb_refl. reflexivity.
  - destruct (String.eqb k' k); [discriminate | exact IH].
Qed.

Lemma delete_appended (params : list (string * string)) (k v : string) :
  delete (params ++ [(k, v)]) k = delete params k.
Proof.
  unfold delete. rewrite filter_app. cbn [filter fst].
  rewrite String.eqb_refl. cbn [negb]. apply app_nil_r.
Qed.

(** Appending a signature field to a query string appends one pair to what
    is parsed from it. *)
Lemma URLSearchParams_signed (d : string) (l : list Z) :
  Forall is_byte l ->
  URLSearchParams (d ++ "&hash=" ++ hex_encode l)%string
  = URLSearchParams d ++ [("hash", hex_encode l)].
Proof.
  intros Hl.
  assert (Hsplit : forall q,
             map (fun seq => let (k, v) := cut_at "="%char seq in
                             (form_decode k, form_decode v))
               (filter (fun seq => negb (is_empty seq))
                  (split_on "&"%char (q ++ "&hash=" ++ hex_encode l)%string))
             = map (fun seq => let (k, v) := cut_at "="%char seq in
                               (form_decode k, form_decode v))
                 (filter (fun seq => negb (is_empty seq)) (split_on "&"%char q))
               ++ [("hash", hex_encode l)]).
  { intros q. change ("&hash=" ++ hex_encode l)%string
      with (String "&"%char ("hash=" ++ hex_encode l))%string.
    rewrite split_on_around, filter_app, map_app. f_equal.
    cbn [String.append split_on Ascii.eqb Bool.eqb].
    rewrite (split_on_hex l Hl).
    cbn [filter is_empty negb map cut_at Ascii.eqb Bool.eqb].
    rewrite (form_decode_hex l Hl). reflexivity. }
  unfold URLSearchParams. destruct d as [|c r].
  - exact (Hsplit EmptyString).
  - cbn [String.append]. destruct (Ascii.eqb c "?"%char).
    + exact (Hsplit r).
    + exact (Hsplit (String c r)).
Qed.

Lemma hex_encode_inhabited (l : list Z) :
  l <> [] -> is_empty (hex_encode l) = false.
Proof. destruct l; [contradiction | reflexivity]. Qed.

End SigningProps.

Section SignThenVerify.
Import Host TelegramAuth Props VerifierProps SigningProps.
Context {L : Locale}.

Lemma signature_round_trip (d t : string) :
  is_empty t = false ->
  get (URLSearchParams d) "hash" = None ->
  verifyTelegramWebAppData
    (Some (d ++ "&hash=" ++ hex_encode (expected_digest d t))%string)
    (Some t) = true.
Proof.
  intros Ht Hfree.
  set (digest := expected_digest d t).
  assert (Hbytes : Forall is_byte digest) by apply hmac_bytes.
  assert (Hsome : is_empty (hex_encode digest) = false).
  { apply hex_encode_inhabited. intros E.
    pose proof (hmac_length
                  (hmac_sha256 (bytes_of_string "WebAppData") (bytes_of_string t))
                  (bytes_of_string (canonical_string d))) as Hlen.
    fold (expected_digest d t) in Hlen. fold digest in Hlen.
    rewrite E in Hlen. discriminate. }
  rewrite verify_present. rewrite Ht, orb_false_r.
  assert (Hd : is_empty (d ++ "&hash=" ++ hex_encode digest)%string = false)
    by (destruct d; reflexivity).
  rewrite Hd.
  rewrite (verify_try_with_hash _ t (hex_encode digest)); [|
    rewrite (URLSearchParams_signed d digest Hbytes);
    apply get_appended; exact Hfree | exact Hsome].
  rewrite (hex_decode_encode digest Hbytes).
  assert (Hsame : expected_digest (d ++ "&hash=" ++ hex_encode digest)%string t
                  = digest).
  { unfold digest at 2. unfold expected_digest, canonical_string.
    rewrite (URLSearchParams_signed d digest Hbytes), delete_appended.
    reflexivity. }
  rewrite Hsame.
  rewrite (proj2 (timingSafeEqual_true digest digest) eq_refl). reflexivity.
Qed.


(** X8.  Signing and verifying fit together: for data without a field named
    [hash], appending [&hash=] and the digest the code computes, in
    hexadecimal, gives initialisation data that the verifier accepts under
    the same token. *)
Theorem signed_data_verifies (d t : string) :
  is_empty t = false ->
  get (URLSearchParams d) "hash" = None ->
  verifyTelegramWebAppData
    (Some (d ++ "&hash=" ++ hex_encode (expected_digest d t))%string)
    (Some t) = true.
Proof. exact (signature_round_trip d t). Qed.

Lemma get_before_appended (params : list (string * string)) (k k' v : string) :
  String.eqb k' k = false -> get (params ++ [(k', v)]) k = get params k.
Proof.
  intros E. induction params as [|[k0 v0] r IH]; cbn [app get].
  - rewrite E. reflexivity.
  - destruct (String.eqb k0 k); [reflexivity | exact IH].
Qed.

(** The signature field does not change the identity that is read. *)
Lemma extract_signed (d : string) (l : list Z) :
  Forall is_byte l ->
  extractTelegramUser (Some (d ++ "&hash=" ++ hex_encode l)%string)
  = extractTelegramUser (Some d).
Proof.
  intros Hl. unfold extractTelegramUser.
  assert (Htry : extract_try (d ++ "&hash=" ++ hex_encode l)%string = extract_try d).
  { unfold extract_try. rewrite (URLSearchParams_signed d l Hl).
    rewrite (get_before_appended _ "user" "hash" _ eq_refl). reflexivity. }
  rewrite Htry. destruct d as [|c r]; [|reflexivity].
  cbn [String.append is_empty]. reflexivity.
Qed.

(** X9.  A payload signed under the configured token is admitted by the
    blocking middleware in every environment, with the identity that the
    signed data carries. *)
Theorem signed_payload_is_admitted
    (env : environment) (d t : string) (sessionId : option string)
    (u : telegram_user) :
  BOT_TOKEN env = Some t ->
  is_empty t = false ->
  get (URLSearchParams d) "hash" = None ->
  extractTelegramUser (Some d) = Some u ->
  telegramAuthMiddleware env
    (Some (d ++ "&hash=" ++ hex_encode (expected_digest d t))%string) sessionId
  = Next {| req_telegramUser := Some u;
            req_sessionId := None;
            req_authMethod := Some ViaTelegram |}.
Proof.
  intros Htok Ht Hfree Hu. unfold telegramAuthMiddleware.
  assert (Hd : falsy (Some (d ++ "&hash=" ++ hex_encode (expected_digest d t))%string)
               = false) by (destruct d; reflexivity).
  rewrite Hd. cbn [negb]. rewrite Htok.
  rewrite (signature_round_trip d t Ht Hfree).
  rewrite (extract_signed d (expected_digest d t)) by apply hmac_bytes.
  rewrite Hu. cbn [falsy]. rewrite Ht. cbn [negb].
  destruct (negb (env_is (NODE_ENV env) "development")
            && negb (env_is (SKIP_TELEGRAM_VERIFY env) "true")); reflexivity.
Qed.

End SignThenVerify.

Section SignThenVerifyExamples.
Import Host TelegramAuth Props.

Lemma signed_data_verifies_witness :
  is_empty "123456:ABC" = false
  /\ get (URLSearchParams "query_id=AAH&auth_date=1700000000") "hash" = None
  /\ verifyTelegramWebAppData (L := code_unit_order)
       (Some ("query_id=AAH&auth_date=1700000000" ++ "&hash="
              ++ hex_encode (expected_digest (L := code_unit_order)
                               "query_id=AAH&auth_date=1700000000" "123456:ABC"))%string)
       (Some "123456:ABC") = true.
Proof.
  split; [reflexivity|]. split; [reflexivity|].
  apply (signed_data_verifies (L := code_unit_order)
           "query_id=AAH&auth_date=1700000000" "123456:ABC");
    reflexivity.
Defined.

Lemma signed_payload_is_admitted_witness :
  let d := "user=%7B%22id%22%3A7%7D&auth_date=1700000000" in
  let u := {| TelegramAuth.telegramId := JNum false 7 0;
              username := JNull;
              firstName := JStr EmptyString;
              lastName := JStr EmptyString;
              languageCode := JStr "en";
              isPremium := JBool false |} in
  BOT_TOKEN production = Some "123456:ABC"
  /\ is_empty "123456:ABC" = false
  /\ get (URLSearchParams d) "hash" = None
  /\ extractTelegramUser (Some d) = Some u
  /\ telegramAuthMiddleware (L := code_unit_order) production
       (Some (d ++ "&hash="
              ++ hex_encode (expected_digest (L := code_unit_order) d "123456:ABC"))%string)
       None
     = Next {| req_telegramUser := Some u;
               req_sessionId := None;
               req_authMethod := Some ViaTelegram |}.
Proof.
  cbv zeta.
  assert (Hu : extractTelegramUser (Some "user=%7B%22id%22%3A7%7D&auth_date=1700000000")
               = Some {| TelegramAuth.telegramId := JNum false 7 0;
                         username := JNull;
                         firstName := JStr EmptyString;
                         lastName := JStr EmptyString;
                         languageCode := JStr "en";
                         isPremium := JBool false |})
    by (vm_compute; reflexivity).
  split; [reflexivity|]. split; [reflexivity|]. split; [reflexivity|].
  split; [exact Hu|].
  exact (signed_payload_is_admitted (L := code_unit_order) production
           "user=%7B%22id%22%3A7%7D&auth_date=1700000000" "123456:ABC" None _
           eq_refl eq_refl eq_refl Hu).
Defined.

End SignThenVerifyExamples.

(* ================================================================== *)
(** * Further properties: the client's session id *)
(* ================================================================== *)

Section ClientSessionId.
Import Host Validation SessionManager VerifierProps.

Lemma variant_digit (r : Z) :
  0 <= r < 16 ->
  exists v, unhex (hex_digit (Z.lor (Z.land r 3) 8)) = Some v /\ 8 <= v <= 11.
Proof.
  intros H.
  rewrite <- (Z2Nat.id r) by lia.
  assert (Hk : (Z.to_nat r < 16)%nat) by lia.
  revert Hk. generalize (Z.to_nat r). clear H. intros k Hk.
  do 16 (destruct k as [|k]; [eexists; split; [cbv; reflexivity | lia]|]). lia.
Qed.

(** X10.  Every identifier the client generates has the form the server asks of a
    session id, whatever the random draws are. *)
Theorem generated_session_id_is_valid (random : nat -> Z) :
  (forall n, 0 <= random n < 16) ->
  isUUID4 (generateUUID random) = true.
Proof.
  intros Hr.
  assert (Hhex : forall n, slot_ok Hex (hex_digit (random n)) = true).
  { intros n. cbn [slot_ok]. rewrite (unhex_hex_digit _ (Hr n)). reflexivity. }
  assert (Hvar : forall n,
             slot_ok Variant (hex_digit (Z.lor (Z.land (random n) 3) 8)) = true).
  { intros n. cbn [slot_ok]. destruct (variant_digit _ (Hr n)) as (v & -> & Hv).
    apply andb_true_iff. split; apply Z.leb_le; lia. }
  unfold isUUID4, generateUUID, uuid4_shape.
  cbn [repeat app fill Ascii.eqb Bool.eqb orb matches_shape].
  rewrite !Hhex, Hvar. reflexivity.
Qed.

End ClientSessionId.

Section ClientSessionIdExamples.
Import Host Validation SessionManager.

Lemma generated_session_id_is_valid_witness :
  (forall n, 0 <= Z.of_nat n mod 16 < 16)
  /\ isUUID4 (generateUUID (fun n => Z.of_nat n mod 16)) = true.
Proof.
  assert (H : forall n, 0 <= Z.of_nat n mod 16 < 16)
    by (intros n; apply Z.mod_pos_bound; lia).
  split; [exact H|].
  apply (generated_session_id_is_valid (fun n => Z.of_nat n mod 16) H).
Defined.

End ClientSessionIdExamples.

(* ================================================================== *)
(** * Further properties: escaping for the log messages *)
(* ================================================================== *)

Section Escaping.
Import Host TelegramAuth TelegramLogger Terms.

Lemma entity_cases (c : ascii) :
  (c = "&"%char /\ entity c = "&amp;")
  \/ (c = "<"%char /\ entity c = "&lt;")
  \/ (c = ">"%char /\ entity c = "&gt;")
  \/ (entity c = String c EmptyString
      /\ c <> "&"%char /\ c <> "<"%char /\ c <> ">"%char).
Proof.
  unfold entity.
  destruct (Ascii.eqb c "&"%char) eqn:E1;
    [apply Ascii.eqb_eq in E1; left; split; [exact E1 | reflexivity]|].
  destruct (Ascii.eqb c "<"%char) eqn:E2;
    [apply Ascii.eqb_eq in E2; right; left; split; [exact E2 | reflexivity]|].
  destruct (Ascii.eqb c ">"%char) eqn:E3;
    [apply Ascii.eqb_eq in E3; right; right; left; split; [exact E3 | reflexivity]|].
  right. right. right. apply Ascii.eqb_neq in E1, E2, E3. repeat split; assumption.
Qed.

(** The three replacements, one after the other, amount to replacing every
    character by its entity: an ampersand that the first one writes is not
    touched by the other two. *)
Lemma three_passes (t : string) :
  replace_char ">"%char "&gt;"
    (replace_char "<"%char "&lt;" (replace_char "&"%char "&amp;" t))
  = each_escaped t.
Proof.
  induction t as [|c r IH]; [reflexivity|].
  cbn [replace_char each_escaped]. unfold entity.
  destruct (Ascii.eqb c "&"%char) eqn:E1.
  - cbn [String.append replace_char Ascii.eqb Bool.eqb]. rewrite IH. reflexivity.
  - cbn [replace_char]. destruct (Ascii.eqb c "<"%char) eqn:E2.
    + cbn [String.append replace_char Ascii.eqb Bool.eqb]. rewrite IH. reflexivity.
    + cbn [replace_char]. destruct (Ascii.eqb c ">"%char) eqn:E3.
      * cbn [String.append]. rewrite IH. reflexivity.
      * cbn [String.append]. rewrite IH. reflexivity.
Qed.

Lemma escapeHtml_each (t : string) : escapeHtml (Some t) = each_escaped t.
Proof.
  unfold escapeHtml. destruct t as [|c r]; [reflexivity|].
  cbn [falsy is_empty]. apply three_passes.
Qed.

Lemma chars_append (a b : string) : chars (a ++ b) = chars a ++ chars b.
Proof.
  unfold chars. induction a as [|c r IH]; [reflexivity|].
  cbn [String.append list_ascii_of_string app]. rewrite IH. reflexivity.
Qed.

(** X11.  No angle bracket is left in an escaped text: it cannot open or close a
    tag of the message it is put into. *)
Theorem escaped_text_has_no_tag (text : option string) (c : ascii) :
  In c (chars (escapeHtml text)) -> c <> "<"%char /\ c <> ">"%char.
Proof.
  destruct text as [t|]; [|intros []].
  rewrite escapeHtml_each. induction t as [|x r IH]; [intros []|].
  cbn [each_escaped]. rewrite chars_append. intros H.
  apply in_app_or in H. destruct H as [H | H]; [|exact (IH H)].
  destruct (entity_cases x) as [[_ E] | [[_ E] | [[_ E] | (E & _ & N2 & N3)]]];
    rewrite E in H; cbn in H;
    repeat (destruct H as [<- | H]; [split; discriminate || assumption|]);
    try contradiction.
Qed.

(** X12.  Escaping loses nothing: two texts with the same escaped form are the
    same text. *)
Theorem escaping_is_injective (a b : string) :
  escapeHtml (Some a) = escapeHtml (Some b) -> a = b.
Proof.
  rewrite !escapeHtml_each. revert b.
  induction a as [|x a IH]; intros [|y b]; cbn [each_escaped]; intros H.
  - reflexivity.
  - exfalso.
    destruct (entity_cases y) as [[_ E] | [[_ E] | [[_ E] | (E & _)]]];
      rewrite E in H; discriminate H.
  - exfalso.
    destruct (entity_cases x) as [[_ E] | [[_ E] | [[_ E] | (E & _)]]];
      rewrite E in H; discriminate H.
  - destruct (entity_cases x) as [[Hx E] | [[Hx E] | [[Hx E] | (E & N1 & N2 & N3)]]];
      destruct (entity_cases y) as [[Hy F] | [[Hy F] | [[Hy F] | (F & M1 & M2 & M3)]]];
      rewrite E, F in H; cbn [String.append] in H;
      injection H; intros; subst;
      try congruence;
      try (f_equal; apply IH; assumption).
Qed.

End Escaping.

Section EscapingExamples.
Import Host TelegramAuth TelegramLogger Terms.

Lemma escaped_text_has_no_tag_witness :
  In "&"%char (chars (escapeHtml (Some "<b>")))
  /\ ("&"%char <> "<"%char /\ "&"%char <> ">"%char).
Proof.
  assert (H : In "&"%char (chars (escapeHtml (Some "<b>"))))
    by (vm_compute; left; reflexivity).
  split; [exact H|].
  exact (escaped_text_has_no_tag (Some "<b>") "&"%char H).
Defined.

Lemma escaping_is_injective_witness :
  escapeHtml (Some "a<b & c") = escapeHtml (Some "a<b & c")
  /\ "a<b & c" = "a<b & c".
Proof.
  split; [reflexivity|].
  exact (escaping_is_injective "a<b & c" "a<b & c" eq_refl).
Defined.

End EscapingExamples.

(* ================================================================== *)
(** * Further properties: the sanitizer *)
(* ================================================================== *)

Module SanitizingProps.
Import Host Sanitizing Terms.

Lemma trimStart_shorter (s : list Z) :
  (List.length (trimStart s) <= List.length s)%nat.
Proof.
  induction s as [|u r IH]; cbn [trimStart]; [lia|].
  destruct (is_white u); cbn [List.length]; lia.
Qed.

Lemma trimStart_fixed (s : list Z) :
  match s with u :: _ => is_white u = false | [] => True end ->
  trimStart s = s.
Proof. destruct s as [|u r]; cbn [trimStart]; [reflexivity|]. intros ->. reflexivity. Qed.

Lemma trimStart_same_length (s : list Z) :
  List.length (trimStart s) = List.length s ->
  match s with u :: _ => is_white u = false | [] => True end.
Proof.
  destruct s as [|u r]; cbn [trimStart]; [exact (fun _ => I)|].
  destruct (is_white u); [|reflexivity].
  pose proof (trimStart_shorter r). cbn [List.length]. lia.
Qed.

Lemma trimEnd_shorter (s : list Z) :
  (List.length (trimEnd s) <= List.length s)%nat.
Proof.
  unfold trimEnd. rewrite length_rev.
  pose proof (trimStart_shorter (rev s)) as H. rewrite length_rev in H. exact H.
Qed.

Lemma trimEnd_fixed (s : list Z) :
  match rev s with u :: _ => is_white u = false | [] => True end ->
  trimEnd s = s.
Proof.
  intros H. unfold trimEnd. rewrite (trimStart_fixed _ H). apply rev_involutive.
Qed.

Lemma trimEnd_same_length (s : list Z) :
  List.length (trimEnd s) = List.length s ->
  match rev s with u :: _ => is_white u = false | [] => True end.
Proof.
  unfold trimEnd. rewrite length_rev. intros H.
  apply trimStart_same_length. rewrite length_rev. exact H.
Qed.

Lemma remove_shorter (class : Z -> bool) (s : list Z) :
  (List.length (remove class s) <= List.length s)%nat.
Proof.
  unfold remove. induction s as [|u r IH]; cbn [filter]; [lia|].
  destruct (negb (class u)); cbn [List.length]; lia.
Qed.

Lemma remove_fixed (class : Z -> bool) (s : list Z) :
  (forall u, In u s -> class u = false) -> remove class s = s.
Proof.
  unfold remove. induction s as [|u r IH]; intros H; cbn [filter]; [reflexivity|].
  rewrite (H u (or_introl eq_refl)). cbn [negb]. f_equal.
  apply IH. intros v Hv. apply H. right. exact Hv.
Qed.

Lemma remove_same_length (class : Z -> bool) (s : list Z) :
  List.length (remove class s) = List.length s ->
  forall u, In u s -> class u = false.
Proof.
  induction s as [|u r IH]; intros Hlen v Hv; [destruct Hv|].
  pose proof (remove_shorter class r) as Hr.
  unfold remove in *. cbn [filter] in Hlen.
  destruct (class u) eqn:E; cbn [negb List.length] in Hlen; [lia|].
  destruct Hv as [<- | Hv]; [exact E|].
  apply IH; [lia | exact Hv].
Qed.

Lemma remove_In (class : Z -> bool) (s : list Z) (u : Z) :
  In u (remove class s) -> In u s /\ class u = false.
Proof.
  unfold remove. intros H. apply filter_In in H. destruct H as [H E].
  split; [exact H|]. destruct (class u); [discriminate | reflexivity].
Qed.

Lemma trimStart_In (s : list Z) (u : Z) : In u (trimStart s) -> In u s.
Proof.
  induction s as [|v r IH]; cbn [trimStart]; [intros []|].
  destruct (is_white v); [|exact (fun H => H)].
  intros H. right. exact (IH H).
Qed.

Lemma trim_In (s : list Z) (u : Z) : In u (trim s) -> In u s.
Proof.
  unfold trim, trimEnd. intros H. apply in_rev in H.
  apply trimStart_In in H. apply in_rev in H. apply trimStart_In in H. exact H.
Qed.

Lemma trim_shorter (s : list Z) : (List.length (trim s) <= List.length s)%nat.
Proof.
  unfold trim. pose proof (trimEnd_shorter (trimStart s)).
  pose proof (trimStart_shorter s). lia.
Qed.

(** The steps of the sanitizer leave a clean string as it is. *)
Lemma clean_unchanged (s : list Z) :
  clean s ->
  substring_from_0 1000 (remove is_control (remove is_angle (trim s))) = s.
Proof.
  intros ((Hhead & Hlast) & Hunits & Hlen).
  unfold trim. rewrite (trimStart_fixed s Hhead), (trimEnd_fixed s Hlast).
  rewrite (remove_fixed is_angle s) by (intros u Hu; apply (Hunits u Hu)).
  rewrite (remove_fixed is_control s) by (intros u Hu; apply (Hunits u Hu)).
  apply firstn_all2. exact Hlen.
Qed.

End SanitizingProps.

Section SanitizerTheorems.
Import Host Sanitizing Terms SortProps SanitizingProps USER.

(** X13.  What the sanitizer returns for a string holds no angle bracket and no
    control character, only code units of the string, and at most 1000 of
    them. *)
Theorem sanitized_text_is_harmless (s : list Z) :
  exists out,
    sanitizeString (Text s) = Text out
    /\ (forall u, In u out ->
                  is_angle u = false /\ is_control u = false /\ In u s)
    /\ (List.length out <= 1000)%nat
    /\ (List.length out <= List.length s)%nat.
Proof.
  eexists. split; [reflexivity|]. unfold substring_from_0. split; [|split].
  - intros u Hu. apply In_firstn in Hu.
    apply remove_In in Hu. destruct Hu as [Hu Hc].
    apply remove_In in Hu. destruct Hu as [Hu Ha].
    apply trim_In in Hu. repeat split; assumption.
  - rewrite length_firstn. lia.
  - rewrite length_firstn.
    pose proof (remove_shorter is_control (remove is_angle (trim s))).
    pose proof (remove_shorter is_angle (trim s)).
    pose proof (trim_shorter s). lia.
Qed.

(** X14.  The strings that the sanitizer returns unchanged are exactly the clean
    ones: no white space at either end, no angle bracket, no control
    character, at most 1000 code units. *)
Theorem sanitizer_fixed_points (s : list Z) :
  sanitizeString (Text s) = Text s <-> clean s.
Proof.
  split.
  - unfold sanitizeString. intros H0.
    assert (H : firstn 1000 (remove is_control (remove is_angle (trim s))) = s)
      by (unfold substring_from_0 in H0; congruence).
    clear H0.
    set (a := trimStart s) in *.
    set (b := trimEnd a) in *.
    change (trim s) with b in H.
    set (c := remove is_angle b) in *.
    set (e := remove is_control c) in *.
    assert (Hb : trim s = b) by reflexivity.
    pose proof (trimStart_shorter s) as L1. fold a in L1.
    pose proof (trimEnd_shorter a) as L2. fold b in L2.
    pose proof (remove_shorter is_angle b) as L3. fold c in L3.
    pose proof (remove_shorter is_control c) as L4. fold e in L4.
    assert (L5 : List.length (firstn 1000 e) = List.length s) by (f_equal; exact H).
    rewrite length_firstn in L5.
    assert (Ha : a = s).
    { apply trimStart_fixed. apply trimStart_same_length. fold a. lia. }
    assert (Hba : b = a).
    { apply trimEnd_fixed. apply trimEnd_same_length. fold b. lia. }
    assert (Hangle : forall u, In u s -> is_angle u = false).
    { intros u Hu. apply (remove_same_length is_angle b).
      - fold c. lia.
      - rewrite Hba, Ha. exact Hu. }
    assert (Hcontrol : forall u, In u s -> is_control u = false).
    { intros u Hu. apply (remove_same_length is_control c).
      - fold e. lia.
      - unfold c. rewrite (remove_fixed is_angle b).
        + rewrite Hba, Ha. exact Hu.
        + rewrite Hba, Ha. exact Hangle. }
    split; [|split].
    + split.
      * apply trimStart_same_length. fold a. lia.
      * assert (Hl : List.length (trimEnd a) = List.length a) by (fold b; lia).
        apply trimEnd_same_length in Hl. rewrite Ha in Hl. exact Hl.
    + intros u Hu. split; [apply Hangle | apply Hcontrol]; exact Hu.
    + lia.
  - intros H. unfold sanitizeString. rewrite (clean_unchanged s H). reflexivity.
Qed.

Lemma name_unit_plain (u : Z) :
  name_unit u = true ->
  is_white u = false /\ is_angle u = false /\ is_control u = false.
Proof.
  unfold name_unit, is_white, is_angle, is_control. intros H.
  repeat match type of H with
         | (_ || _) = true => apply orb_true_iff in H; destruct H as [H | H]
         | (_ && _) = true => apply andb_true_iff in H; destruct H as [? H]
         end;
    repeat match goal with
           | H : (_ <=? _) = true |- _ => apply Z.leb_le in H
           | H : (_ =? _) = true |- _ => apply Z.eqb_eq in H
           end;
    repeat split;
    repeat match goal with
           | |- (_ || _) = false => apply orb_false_iff; split
           | |- (_ =? _) = false => apply Z.eqb_neq; lia
           | |- (_ && _) = false =>
               apply andb_false_iff;
               first [left; apply Z.leb_gt; lia | right; apply Z.leb_gt; lia]
           end.
Qed.

(** X15.  The sanitizer of the user chain changes nothing in a name that matches
    the name pattern: letters, digits and underscores are no white space,
    brackets or control characters. *)
Theorem matching_name_is_not_altered (s : list Z) :
  USERNAME_PATTERN s = true ->
  (List.length s <= 1000)%nat ->
  sanitizeString (Text s) = Text s.
Proof.
  intros Hp Hlen.
  assert (Hall : forall u, In u s -> name_unit u = true).
  { destruct s as [|u r]; [discriminate|].
    unfold USERNAME_PATTERN in Hp. apply forallb_forall. exact Hp. }
  unfold sanitizeString. rewrite clean_unchanged; [reflexivity|].
  split; [|split; [|exact Hlen]].
  - split.
    + destruct s as [|u r]; [exact I|].
      apply name_unit_plain, Hall. left. reflexivity.
    + destruct (rev s) as [|u r] eqn:E; [exact I|].
      apply name_unit_plain, Hall. apply in_rev. rewrite E. left. reflexivity.
  - intros u Hu. destruct (name_unit_plain u (Hall u Hu)) as (_ & Ha & Hc).
    split; assumption.
Qed.

End SanitizerTheorems.

Section SanitizerExamples.
Import Host Sanitizing USER.

Lemma matching_name_is_not_altered_witness :
  USERNAME_PATTERN [1048; 1075; 1088; 1086; 1082; 95; 55] = true
  /\ (List.length [1048; 1075; 1088; 1086; 1082; 95; 55] <= 1000)%nat
  /\ sanitizeString (Text [1048; 1075; 1088; 1086; 1082; 95; 55])
     = Text [1048; 1075; 1088; 1086; 1082; 95; 55].
Proof.
  split; [reflexivity|]. split; [cbn; lia|].
  apply (matching_name_is_not_altered [1048; 1075; 1088; 1086; 1082; 95; 55]);
    [reflexivity | cbn; lia].
Defined.

End SanitizerExamples.

(* ================================================================== *)
(** * Further properties: the size of the ranking and [hasMore] *)
(* ================================================================== *)

Module RankingProps.
Import Host Database Validation Scores Props Terms SortProps LeaderboardProps.

(** Every user of the ranking has a result. *)
Lemma ranked_user_has_result (t : board) (d : db) (uid : Z) :
  In uid (map user_of (ranked t d)) -> In uid (distinct_users (scores d)).
Proof.
  intros H. apply in_map_iff in H. destruct H as ([s u] & <- & H).
  apply ranked_In in H. destruct H as (Hj & _).
  apply joined_In in Hj. destruct Hj as (Hs & _).
  unfold distinct_users, user_of. cbn [fst]. apply nodup_In.
  apply in_map. exact Hs.
Qed.

Lemma ranking_within_total (t : board) (d : db) :
  keys_distinct d ->
  (List.length (ranked t d) <= List.length (distinct_users (scores d)))%nat.
Proof.
  intros Hkeys. rewrite <- (length_map user_of (ranked t d)).
  apply NoDup_incl_length; [apply ranked_users_distinct; exact Hkeys|].
  intros uid. apply ranked_user_has_result.
Qed.

(** A user with a result that the board looks at has a best result. *)
Lemma best_exists (t : board) (rows : list score_row) (s0 : score_row) :
  In s0 rows -> eligible t s0 = true ->
  exists r, In r rows /\ s_user_id r = s_user_id s0
            /\ eligible t r = true /\ is_best t rows r = true.
Proof.
  intros Hs0 Hel.
  set (mine := filter (fun r => (s_user_id r =? s_user_id s0) && eligible t r) rows).
  assert (Hmine : In s0 mine).
  { apply filter_In. split; [exact Hs0|]. rewrite Z.eqb_refl, Hel. reflexivity. }
  destruct (sort (best_first t) mine) as [|r rest] eqn:E.
  - exfalso. apply (Permutation_in _ (Permutation_sym (sort_perm (best_first t) mine))) in Hmine.
    rewrite E in Hmine. destruct Hmine.
  - assert (Hr : In r mine).
    { apply (Permutation_in _ (sort_perm (best_first t) mine)).
      rewrite E. left. reflexivity. }
    apply filter_In in Hr. destruct Hr as [Hr Hc].
    apply andb_true_iff in Hc. destruct Hc as [Hu He]. apply Z.eqb_eq in Hu.
    exists r. repeat split; try assumption.
    unfold is_best, best_of_user, order_by. rewrite Hu. fold mine. rewrite E.
    apply Z.eqb_refl.
Qed.

(** On a board that looks at every result, every user with a result is in
    the ranking. *)
Lemma user_with_result_ranked (t : board) (d : db) (uid : Z) :
  results_sound d ->
  t <> ByAccuracy ->
  In uid (distinct_users (scores d)) -> In uid (map user_of (ranked t d)).
Proof.
  intros Hsound Ht H. unfold distinct_users in H. apply nodup_In in H.
  apply in_map_iff in H. destruct H as (s0 & <- & Hs0).
  assert (Hel : eligible t s0 = true) by (destruct t; [reflexivity .. | contradiction]).
  destruct (best_exists t (scores d) s0 Hs0 Hel) as (r & Hr & Hu & He & Hb).
  destruct (Hsound r Hr) as [_ Howner].
  apply existsb_exists in Howner. destruct Howner as (u & Hin & Hid).
  apply Z.eqb_eq in Hid.
  apply in_map_iff. exists (r, u). split; [exact Hu|].
  apply ranked_In. split; [|split; assumption].
  apply joined_In. split; [exact Hr|]. split; assumption.
Qed.

Lemma ranking_covers_users (t : board) (d : db) :
  keys_distinct d -> results_sound d -> t <> ByAccuracy ->
  Permutation (map user_of (ranked t d)) (distinct_users (scores d)).
Proof.
  intros Hkeys Hsound Ht. apply NoDup_Permutation.
  - apply ranked_users_distinct. exact Hkeys.
  - apply NoDup_nodup.
  - intros uid. split; [apply ranked_user_has_result|].
    apply user_with_result_ranked; assumption.
Qed.

Lemma skipn_nil_iff {A : Type} (n : nat) (l : list A) :
  skipn n l = [] <-> (List.length l <= n)%nat.
Proof.
  split.
  - intros H. pose proof (length_skipn n l) as E. rewrite H in E. cbn in E. lia.
  - apply skipn_all2.
Qed.

Lemma firstn_nil_iff {A : Type} (n : nat) (l : list A) :
  firstn n l = [] <-> n = 0%nat \/ l = [].
Proof.
  destruct n, l; cbn; split; intros H; auto; try discriminate.
  destruct H; discriminate.
Qed.

End RankingProps.

Section HasMore.
Import Host Database Validation Scores Props Terms SortProps LeaderboardProps RankingProps.

(** X16.  When the response says that there is no more, there is no more: every
    page that starts where this one ends is empty, on each of the three
    boards. *)
Theorem no_more_means_last_page (q : leaderboard_query) (d : db) (limitNum : Z) :
  keys_distinct d ->
  hasMore (leaderboardHandler q d) = false ->
  leaders_query (board_of (q_type q)) limitNum (offset_of q + limit_of q) d = [].
Proof.
  intros Hkeys H. unfold leaderboardHandler in H. cbn [hasMore] in H.
  apply Z.ltb_ge in H.
  pose proof (ranking_within_total (board_of (q_type q)) d Hkeys) as Hlen.
  unfold leaders_query.
  rewrite (proj2 (skipn_nil_iff _ _)); [apply firstn_nil|]. lia.
Qed.

(** X17.  On the score board and the hits board [hasMore] is exact: it is true
    exactly when the page that starts where this one ends has a row. *)
Theorem has_more_is_exact (q : leaderboard_query) (d : db) :
  keys_distinct d ->
  results_sound d ->
  board_of (q_type q) <> ByAccuracy ->
  hasMore (leaderboardHandler q d) = true
  <-> leaders_query (board_of (q_type q)) (limit_of q)
        (offset_of q + limit_of q) d <> [].
Proof.
  intros Hkeys Hsound Ht. unfold leaderboardHandler. cbn [hasMore].
  pose proof (Permutation_length (ranking_covers_users _ d Hkeys Hsound Ht)) as Hlen.
  rewrite length_map in Hlen. rewrite <- Hlen.
  assert (Hlimit : 1 <= limit_of q <= PAGINATION.MAX_LIMIT)
    by (apply getSafeInt_in_range;
        unfold PAGINATION.DEFAULT_LIMIT, PAGINATION.MAX_LIMIT; lia).
  assert (Hoffset : 0 <= offset_of q <= 100000)
    by (apply getSafeInt_in_range; lia).
  unfold leaders_query. rewrite Z.ltb_lt. split.
  - intros H E. apply firstn_nil_iff in E. destruct E as [E | E]; [lia|].
    apply skipn_nil_iff in E. lia.
  - intros H.
    destruct (Z_lt_ge_dec (offset_of q + limit_of q)
                (Z.of_nat (List.length (ranked (board_of (q_type q)) d))))
      as [Hlt | Hge]; [exact Hlt|].
    exfalso. apply H. rewrite (proj2 (skipn_nil_iff _ _)); [apply firstn_nil|]. lia.
Qed.

End HasMore.

Section HasMoreExamples.
Import Host Database Validation Scores Props Terms.

Lemma two_users_distinct : keys_distinct two_users.
Proof.
  split; cbn; repeat constructor; cbn; intuition discriminate.
Qed.

Lemma two_users_sound : results_sound two_users.
Proof.
  intros r [<- | [<- | []]];
    (split; [|reflexivity]);
    unfold row_sound; cbn;
    repeat split; try discriminate; try reflexivity; intros; lia.
Qed.

Lemma no_more_means_last_page_witness :
  let q := {| q_type := Some "accuracy"; q_limit := Some "5"; q_offset := None |} in
  keys_distinct two_users
  /\ hasMore (leaderboardHandler q two_users) = false
  /\ leaders_query (board_of (q_type q)) 5 (offset_of q + limit_of q) two_users = [].
Proof.
  cbv zeta. split; [exact two_users_distinct|]. split; [reflexivity|].
  apply (no_more_means_last_page
           {| q_type := Some "accuracy"; q_limit := Some "5"; q_offset := None |}
           two_users 5 two_users_distinct).
  reflexivity.
Defined.

Lemma has_more_is_exact_witness :
  let q := {| q_type := Some "hits"; q_limit := Some "1"; q_offset := None |} in
  keys_distinct two_users
  /\ results_sound two_users
  /\ board_of (q_type q) <> ByAccuracy
  /\ (hasMore (leaderboardHandler q two_users) = true
      <-> leaders_query (board_of (q_type q)) (limit_of q)
            (offset_of q + limit_of q) two_users <> []).
Proof.
  cbv zeta. split; [exact two_users_distinct|]. split; [exact two_users_sound|].
  split; [discriminate|].
  apply (has_more_is_exact
           {| q_type := Some "hits"; q_limit := Some "1"; q_offset := None |}
           two_users two_users_distinct two_users_sound).
  discriminate.
Defined.

End HasMoreExamples.

(* ================================================================== *)
(** * Further properties: the rank of a profile *)
(* ================================================================== *)

Module ProfileRankProps.
Import Host Database Validation Scores Props Terms SortProps LeaderboardProps RankingProps.

Lemma max_list_attained (l : list Z) (m : Z) :
  In m l -> (forall x, In x l -> x <= m) -> 0 <= m -> max_list l = m.
Proof.
  unfold max_list. intros Hin Hle Hm.
  assert (Hub : forall k, (forall x, In x k -> x <= m) -> fold_right Z.max 0 k <= m).
  { induction k as [|y k IH]; intros Hk; cbn [fold_right]; [exact Hm|].
    apply Z.max_lub; [apply Hk; left; reflexivity|].
    apply IH. intros x Hx. apply Hk. right. exact Hx. }
  assert (Hlb : forall k, In m k -> m <= fold_right Z.max 0 k).
  { induction k as [|y k IH]; intros Hk; [destruct Hk|]. cbn [fold_right].
    destruct Hk as [-> | Hk]; [apply Z.le_max_l|].
    etransitivity; [apply IH; exact Hk | apply Z.le_max_r]. }
  apply Z.le_antisymm; [apply Hub; exact Hle | apply Hlb; exact Hin].
Qed.

(** The score of a row of the score ranking is its user's best score. *)
Lemma ranked_row_is_best_score (d : db) (row : score_row * user_row) :
  keys_distinct d -> results_sound d ->
  In row (ranked ByScore d) ->
  best_score (user_of row) (scores d) = s_score (fst row).
Proof.
  intros Hkeys Hsound Hrow. destruct row as [s u].
  apply ranked_In in Hrow. destruct Hrow as (Hj & Hel & Hbest).
  apply joined_In in Hj. destruct Hj as (Hs & _). cbn [fst] in *.
  destruct (is_best_sound ByScore d s (proj1 Hkeys) Hs Hel Hbest) as (_ & _ & Hall).
  unfold best_score, user_of. cbn [fst].
  apply max_list_attained.
  - apply in_map. apply filter_In. split; [exact Hs | apply Z.eqb_refl].
  - intros x Hx. apply in_map_iff in Hx. destruct Hx as (r & <- & Hr).
    apply filter_In in Hr. destruct Hr as [Hr Hu]. apply Z.eqb_eq in Hu.
    specialize (Hall r Hr Hu eq_refl). unfold no_worse in Hall. cbn [key] in Hall. lia.
  - destruct (Hsound s Hs) as [(Hsc & _) _]. lia.
Qed.

Lemma filter_length_perm {A : Type} (p : A -> bool) (l k : list A) :
  Permutation l k -> List.length (filter p l) = List.length (filter p k).
Proof.
  induction 1 as [| x l k _ IH | x y l | l k m _ IH1 _ IH2]; cbn [filter].
  - reflexivity.
  - destruct (p x); cbn [List.length]; rewrite IH; reflexivity.
  - destruct (p x), (p y); reflexivity.
  - rewrite IH1. exact IH2.
Qed.

Lemma filter_length_map {A B : Type} (f : A -> B) (p : B -> bool) (l : list A) :
  List.length (filter p (map f l)) = List.length (filter (fun x => p (f x)) l).
Proof.
  induction l as [|x l IH]; [reflexivity|]. cbn [map filter].
  destruct (p (f x)); cbn [List.length]; rewrite IH; reflexivity.
Qed.

Lemma filter_none {A : Type} (p : A -> bool) (l : list A) :
  Forall (fun x => p x = false) l -> filter p l = [].
Proof.
  induction 1 as [|x l Hx _ IH]; [reflexivity|]. cbn [filter]. rewrite Hx. exact IH.
Qed.

Lemma filter_at_most {A : Type} (p : A -> bool) (l : list A) :
  (List.length (filter p l) <= List.length l)%nat.
Proof.
  induction l as [|x l IH]; [reflexivity|]. cbn [filter].
  destruct (p x); cbn [List.length]; lia.
Qed.

(** The rank of a profile, for a user of the score ranking, counts the rows
    of the ranking with a higher score. *)
Lemma profile_rank_on_board (d : db) (row : score_row * user_row) :
  keys_distinct d -> results_sound d ->
  In row (ranked ByScore d) ->
  profile_rank (user_of row) d
  = 1 + Z.of_nat (List.length
                    (filter (fun other => s_score (fst row) <? s_score (fst other))
                            (ranked ByScore d))).
Proof.
  intros Hkeys Hsound Hrow. unfold profile_rank. cbv zeta.
  rewrite (ranked_row_is_best_score d row Hkeys Hsound Hrow).
  assert (Hboard : ByScore <> ByAccuracy) by discriminate.
  rewrite <- (filter_length_perm _ _ _
                (ranking_covers_users ByScore d Hkeys Hsound Hboard)).
  rewrite filter_length_map.
  rewrite (filter_ext_in
             (fun x => s_score (fst row) <? best_score (user_of x) (scores d))
             (fun other => s_score (fst row) <? s_score (fst other))).
  - lia.
  - intros other Hother.
    rewrite (ranked_row_is_best_score d other Hkeys Hsound Hother). reflexivity.
Qed.

End ProfileRankProps.

Section ProfileRank.
Import Host Database Validation Scores Props Terms SortProps LeaderboardProps.
Import RankingProps ProfileRankProps.

(** X18.  The rank of a profile is at least 1 and at most one more than the
    [total] that the leaderboard reports, the number of users with a result;
    for a user with a result it is at most that number. *)
Theorem profile_rank_bounds (uid : Z) (q : leaderboard_query) (d : db) :
  1 <= profile_rank uid d <= total (leaderboardHandler q d) + 1
  /\ (In uid (map s_user_id (scores d)) ->
      profile_rank uid d <= total (leaderboardHandler q d)).
Proof.
  unfold leaderboardHandler. cbn [total]. unfold profile_rank. cbv zeta.
  set (own := best_score uid (scores d)).
  set (better := fun u => own <? best_score u (scores d)).
  pose proof (filter_at_most better (distinct_users (scores d))) as Hle.
  split; [lia|]. intros Hin.
  assert (Hmem : In uid (distinct_users (scores d)))
    by (unfold distinct_users; apply nodup_In; exact Hin).
  apply in_split in Hmem. destruct Hmem as (l1 & l2 & E). rewrite E.
  rewrite filter_app, !length_app. cbn [filter].
  assert (Hself : better uid = false) by (unfold better, own; apply Z.ltb_irrefl).
  rewrite Hself.
  pose proof (filter_at_most better l1). pose proof (filter_at_most better l2).
  cbn [List.length]. lia.
Qed.

(** X19.  The profile and the score leaderboard agree: the rank of the user of a
    leaderboard row is one more than the number of rows with a higher score,
    so it is never greater than the position of the row and equals it when
    no score occurs twice before it. *)
Theorem profile_rank_agrees_with_board
    (d : db) (i : nat) (row : score_row * user_row) :
  keys_distinct d ->
  results_sound d ->
  nth_error (ranked ByScore d) i = Some row ->
  profile_rank (user_of row) d
  = 1 + Z.of_nat (List.length
                    (filter (fun other => s_score (fst row) <? s_score (fst other))
                            (firstn i (ranked ByScore d))))
  /\ profile_rank (user_of row) d <= Z.of_nat i + 1.
Proof.
  intros Hkeys Hsound Hnth.
  assert (Hrow : In row (ranked ByScore d)) by (eapply nth_error_In; exact Hnth).
  rewrite (profile_rank_on_board d row Hkeys Hsound Hrow).
  set (higher := fun other : score_row * user_row =>
                   s_score (fst row) <? s_score (fst other)).
  assert (Htail : filter higher (skipn i (ranked ByScore d)) = []).
  { pose proof (StronglySorted_skipn _ i _ (ranked_descending ByScore d)) as Hs.
    apply nth_error_split in Hnth. destruct Hnth as (l1 & l2 & E & Hlen).
    rewrite E in Hs |- *. rewrite <- Hlen in Hs |- *.
    rewrite skipn_app, skipn_all, Nat.sub_diag in Hs |- *. cbn [skipn app] in Hs |- *.
    apply StronglySorted_inv in Hs. destruct Hs as [_ Hall].
    apply filter_none. constructor.
    - unfold higher. apply Z.ltb_irrefl.
    - eapply Forall_impl; [|exact Hall]. intros other Hk. cbn [key] in Hk.
      unfold higher. apply Z.ltb_ge. exact Hk. }
  assert (Hsplit : filter higher (ranked ByScore d)
                   = filter higher (firstn i (ranked ByScore d))).
  { rewrite <- (firstn_skipn i (ranked ByScore d)) at 1.
    rewrite filter_app, Htail. apply app_nil_r. }
  rewrite Hsplit. split; [reflexivity|].
  pose proof (filter_at_most higher (firstn i (ranked ByScore d))) as H1.
  pose proof (firstn_le_length i (ranked ByScore d)) as H2. lia.
Qed.

End ProfileRank.

Section ProfileRankExamples.
Import Host Database Validation Scores Props Terms.

Lemma profile_rank_agrees_with_board_witness :
  let row := ({| s_id := 1; s_user_id := 1; s_score := 100;
                 s_targets_hit := 10; s_shots_fired := 20; s_accuracy := 5000;
                 s_max_combo := 1; s_duration_ms := 60000;
                 s_game_mode := "endless"; s_created_at := 0 |},
              {| u_id := 1;
                 u_session_id := "123e4567-e89b-42d3-a456-426614174001";
                 u_username := None;
                 u_telegram_id := None;
                 u_created_at := 0;
                 u_updated_at := 0 |}) in
  keys_distinct two_users
  /\ results_sound two_users
  /\ nth_error (ranked ByScore two_users) 0 = Some row
  /\ (profile_rank (user_of row) two_users
      = 1 + Z.of_nat (List.length
                        (filter (fun other => s_score (fst row) <? s_score (fst other))
                                (firstn 0 (ranked ByScore two_users))))
      /\ profile_rank (user_of row) two_users <= Z.of_nat 0 + 1).
Proof.
  cbv zeta. split; [exact two_users_distinct|]. split; [exact two_users_sound|].
  split; [reflexivity|].
  exact (profile_rank_agrees_with_board two_users 0 _
           two_users_distinct two_users_sound eq_refl).
Defined.

End ProfileRankExamples.

(* ================================================================== *)
(** * Further properties: the constraints of the schema *)
(* ================================================================== *)

Module SchemaProps.
Import Host Database Props Terms.








Lemma after_uuid_consistent (d : db) :
  store_consistent d -> store_consistent (after_uuid d).
Proof. exact (fun H => H). Qed.







End SchemaProps.

Section SchemaConstraints.
Import Host Database Validation Scores Auth Props Terms SchemaProps.



End SchemaConstraints.

Section SchemaConstraintsExamples.
Import Host Database Validation Scores Auth Props Terms.




End SchemaConstraintsExamples.

(* ================================================================== *)
(** * Further properties: a stored result in the profile *)
(* ================================================================== *)

Module ProfileProps.
Import Host Database Validation Scores Props Terms Profiles.

Lemma max_list_snoc (l : list Z) (x : Z) :
  0 <= x -> max_list (l ++ [x]) = Z.max (max_list l) x.
Proof.
  intros Hx. unfold max_list. induction l as [|y l IH]; cbn [app fold_right]; [lia|].
  rewrite IH. lia.
Qed.

Lemma sum_list_snoc (l : list Z) (x : Z) : sum_list (l ++ [x]) = sum_list l + x.
Proof.
  unfold sum_list. induction l as [|y l IH]; cbn [app fold_right]; [lia|].
  rewrite IH. lia.
Qed.

Lemma scores_of_added (uid : Z) (d : db) (r : score_row) :
  s_user_id r = uid -> scores_of uid (add_score d r) = scores_of uid d ++ [r].
Proof.
  intros E. unfold scores_of, add_score. cbn [scores].
  rewrite filter_app. cbn [filter]. rewrite E, Z.eqb_refl. reflexivity.
Qed.

Lemma find_absent_no_collision (d : db) (sid : string) :
  find (has_session sid) (users d) = None -> collides d sid None = false.
Proof.
  intros Hfind. unfold collides.
  destruct (existsb _ (users d)) eqn:E; [|reflexivity].
  apply existsb_exists in E. destruct E as (u & Hin & Hu).
  rewrite orb_false_r in Hu.
  pose proof (find_none _ _ Hfind u Hin) as Hn. congruence.
Qed.

(** The store after an accepted submission under a session id: the row of
    the payload is appended for the user of that session, who is appended
    first when the session is new. *)
Lemma session_submission_store (b : game_result) (sid : string) (d : db) :
  validateGameResult b = Pass ->
  Validation.telegramId b = None ->
  Validation.sessionId b = Some sid ->
  exists owner d1,
    snd (postScores true b d) = add_score d1 (row_written b (u_id owner) d1)
    /\ find (has_session sid) (users d1) = Some owner
    /\ scores d1 = scores d
    /\ status (fst (postScores true b d)) = HTTP.CREATED.
Proof.
  intros Hv Htid Hsid.
  assert (Hne : is_empty sid = false).
  { destruct (accepted_facts b Hv) as ((Huuid & _) & _).
    specialize (Huuid sid Hsid). destruct sid; [discriminate | reflexivity]. }
  unfold postScores. cbn [negb]. rewrite Hv.
  unfold saveScore. rewrite Htid, Hsid, Hne. cbn [run exec].
  destruct (find (has_session sid) (users d)) as [u|] eqn:Hfind.
  - destruct (storeResult_runs b (u_id u) d) as (resp & Hrun & Hst).
    { eapply found_user_exists. exact Hfind. }
    rewrite Hrun. cbn [fst snd]. exists u, d. repeat split; assumption.
  - cbn [run exec].
    rewrite (uuid_fits sid (accepted_session_is_uuid b sid Hv Hsid)),
      (uuid_stored sid (accepted_session_is_uuid b sid Hv Hsid)).
    cbn [negb].
    rewrite (find_absent_no_collision d sid Hfind).
    set (d1 := add_user d sid None None).
    destruct (storeResult_runs b (next_user_id d) d1) as (resp & Hrun & Hst).
    { apply new_user_exists. }
    rewrite Hrun. cbn [fst snd].
    exists {| u_id := next_user_id d; u_session_id := sid; u_username := None;
              u_telegram_id := None; u_created_at := clock d;
              u_updated_at := clock d |}, d1.
    split; [reflexivity|]. split; [|split; [reflexivity | exact Hst]].
    unfold d1, add_user. cbn [users].
    apply find_appended; [exact Hfind|].
    unfold has_session. cbn [u_session_id]. apply String.eqb_refl.
Qed.

End ProfileProps.

Section ProfileAfterSubmission.
Import Host Database Validation Scores Props Terms Profiles ProfileProps.

(** X22.  A result stored under a session id shows in the profile of that
    session: after an accepted submission the profile exists, and against
    the results that its user had before it counts one game more, the score
    and the combo enter the two maxima, the hits and the duration the two
    sums. *)
Theorem stored_result_shows_in_profile (b : game_result) (sid : string) (d : db) :
  validateGameResult b = Pass ->
  Validation.telegramId b = None ->
  Validation.sessionId b = Some sid ->
  exists p owner,
    getUserBySession sid (snd (postScores true b d)) = Found p
    /\ find (has_session sid) (users (snd (postScores true b d))) = Some owner
    /\ totalGames (stats p) = totalGames (statistics (u_id owner) d) + 1
    /\ bestScore (stats p) = Z.max (bestScore (statistics (u_id owner) d)) (score b)
    /\ totalHits (stats p) = totalHits (statistics (u_id owner) d) + targetsHit b
    /\ bestCombo (stats p) = Z.max (bestCombo (statistics (u_id owner) d)) (maxCombo b)
    /\ totalPlaytimeMs (stats p)
       = totalPlaytimeMs (statistics (u_id owner) d) + durationMs b.
Proof.
  intros Hv Htid Hsid.
  destruct (session_submission_store b sid d Hv Htid Hsid)
    as (owner & d1 & Hstore & Hfind & Hscores & _).
  destruct (accepted_facts b Hv) as ((Huuid & _) & Hbounds & _).
  destruct Hbounds as (Hscore & _ & _ & Hcombo & _).
  rewrite Hstore. unfold getUserBySession.
  rewrite (Huuid sid Hsid). cbn [negb].
  assert (Husers : users (add_score d1 (row_written b (u_id owner) d1)) = users d1)
    by reflexivity.
  rewrite Husers, Hfind.
  eexists. exists owner. split; [reflexivity|]. split; [reflexivity|].
  cbn [stats]. unfold statistics.
  rewrite (scores_of_added (u_id owner) d1 (row_written b (u_id owner) d1) eq_refl).
  assert (Hsame : scores_of (u_id owner) d1 = scores_of (u_id owner) d)
    by (unfold scores_of; rewrite Hscores; reflexivity).
  rewrite Hsame.
  cbn [totalGames bestScore totalHits bestCombo totalPlaytimeMs].
  rewrite !map_app. cbn [map row_written s_score s_targets_hit s_max_combo s_duration_ms].
  rewrite length_app, !max_list_snoc, !sum_list_snoc by lia.
  cbn [List.length]. repeat split; lia.
Qed.

End ProfileAfterSubmission.

Section ProfileAfterSubmissionExamples.
Import Host Database Validation Scores Props Terms Profiles.

Lemma stored_result_shows_in_profile_witness :
  let b := sample_result 1200 12 20 30000 in
  let sid := "123e4567-e89b-42d3-a456-426614174000" in
  validateGameResult b = Pass
  /\ Validation.telegramId b = None
  /\ Validation.sessionId b = Some sid
  /\ exists p owner,
      getUserBySession sid (snd (postScores true b two_users)) = Found p
      /\ find (has_session sid) (users (snd (postScores true b two_users))) = Some owner
      /\ totalGames (stats p) = totalGames (statistics (u_id owner) two_users) + 1
      /\ bestScore (stats p)
         = Z.max (bestScore (statistics (u_id owner) two_users)) (score b)
      /\ totalHits (stats p)
         = totalHits (statistics (u_id owner) two_users) + targetsHit b
      /\ bestCombo (stats p)
         = Z.max (bestCombo (statistics (u_id owner) two_users)) (maxCombo b)
      /\ totalPlaytimeMs (stats p)
         = totalPlaytimeMs (statistics (u_id owner) two_users) + durationMs b.
Proof.
  cbv zeta.
  assert (Hv : validateGameResult (sample_result 1200 12 20 30000) = Pass)
    by (vm_compute; reflexivity).
  split; [exact Hv|]. split; [reflexivity|]. split; [reflexivity|].
  exact (stored_result_shows_in_profile (sample_result 1200 12 20 30000)
           "123e4567-e89b-42d3-a456-426614174000" two_users Hv eq_refl eq_refl).
Defined.

End ProfileAfterSubmissionExamples.

Section RecentGames.
Import Host Database Validation Scores Props Terms Profiles SortProps.

Lemma sorted_prefix_first {A : Type} (R : A -> A -> Prop) (a b : list A) :
  StronglySorted R (a ++ b) -> forall x y, In x a -> In y b -> R x y.
Proof.
  induction a as [|z a IH]; intros Hs x y Hx Hy; [destruct Hx|].
  cbn [app] in Hs. apply StronglySorted_inv in Hs. destruct Hs as [Hs Hz].
  destruct Hx as [<- | Hx]; [|exact (IH Hs x y Hx Hy)].
  rewrite Forall_forall in Hz. apply Hz. apply in_or_app. right. exact Hy.
Qed.

(** X23.  The recent games of a profile are at most five results of its user,
    newest first, and no result of that user that is left out is newer than
    one that is listed. *)
Theorem profile_lists_latest_games (sid : string) (d : db) (p : profile) :
  getUserBySession sid d = Found p ->
  exists user,
    find (has_session sid) (users d) = Some user
    /\ (List.length (recentGames p) <= 5)%nat
    /\ StronglySorted (fun a b => s_created_at b <= s_created_at a) (recentGames p)
    /\ (forall g, In g (recentGames p) ->
                  In g (scores d) /\ s_user_id g = u_id user)
    /\ (forall r g, In r (scores d) -> s_user_id r = u_id user ->
                    ~ In r (recentGames p) -> In g (recentGames p) ->
                    s_created_at r <= s_created_at g).
Proof.
  unfold getUserBySession. destruct (negb (isUUID4 sid)); [discriminate|].
  destruct (find (has_session sid) (users d)) as [user|]; [|discriminate].
  intros H. injection H as <-. exists user. split; [reflexivity|].
  cbn [recentGames]. unfold recent_games, order_by.
  set (newest := fun a b : score_row => s_created_at b - s_created_at a).
  set (mine := scores_of (u_id user) d).
  assert (Hsorted : StronglySorted (fun a b => s_created_at b <= s_created_at a)
                      (sort newest mine)).
  { eapply StronglySorted_weaken; [|apply (sort_sorted newest)].
    - intros a b Hab. unfold stands_before, newest in Hab. lia.
    - intros a b. unfold stands_before, newest. lia.
    - intros a b c. unfold stands_before, newest. lia. }
  assert (Hmine : forall g, In g (sort newest mine) ->
                            In g (scores d) /\ s_user_id g = u_id user).
  { intros g Hg. apply (Permutation_in _ (sort_perm newest mine)) in Hg.
    unfold mine, scores_of in Hg. apply filter_In in Hg.
    destruct Hg as [Hg Hu]. apply Z.eqb_eq in Hu. split; assumption. }
  split; [apply firstn_le_length|].
  split; [apply StronglySorted_firstn; exact Hsorted|].
  split; [intros g Hg; apply Hmine; eapply In_firstn; exact Hg|].
  intros r g Hr Hu Hout Hg.
  assert (Hin : In r (sort newest mine)).
  { apply (Permutation_in _ (Permutation_sym (sort_perm newest mine))).
    unfold mine, scores_of. apply filter_In. split; [exact Hr|].
    apply Z.eqb_eq. exact Hu. }
  rewrite <- (firstn_skipn 5 (sort newest mine)) in Hin, Hsorted.
  apply in_app_or in Hin. destruct Hin as [Hin | Hin]; [contradiction|].
  exact (sorted_prefix_first _ _ _ Hsorted g r Hg Hin).
Qed.

End RecentGames.

Section RecentGamesExamples.
Import Host Database Validation Scores Props Terms Profiles.

Lemma profile_lists_latest_games_witness :
  exists p,
    getUserBySession "123e4567-e89b-42d3-a456-426614174001" two_users = Found p
    /\ exists user,
        find (has_session "123e4567-e89b-42d3-a456-426614174001") (users two_users)
        = Some user
        /\ (List.length (recentGames p) <= 5)%nat
        /\ StronglySorted (fun a b => s_created_at b <= s_created_at a) (recentGames p)
        /\ (forall g, In g (recentGames p) ->
                      In g (scores two_users) /\ s_user_id g = u_id user)
        /\ (forall r g, In r (scores two_users) -> s_user_id r = u_id user ->
                        ~ In r (recentGames p) -> In g (recentGames p) ->
                        s_created_at r <= s_created_at g).
Proof.
  eexists. split; [reflexivity|].
  apply (profile_lists_latest_games
           "123e4567-e89b-42d3-a456-426614174001" two_users).
  reflexivity.
Defined.

End RecentGamesExamples.

(* ================================================================== *)
(** * Further properties: the configuration and the middleware *)
(* ================================================================== *)

Section StartupAndMiddleware.
Import Host TelegramAuth Auth Startup Props.
Context {L : Locale}.

Lemma env_is_eqb (v : option string) (s : string) :
  env_is v s = true <-> v = Some s.
Proof.
  unfold env_is. destruct v as [x|]; [|split; discriminate].
  rewrite String.eqb_eq. split; [intros ->; reflexivity | intros H; injection H as ->; reflexivity].
Qed.

Lemma env_is_false (v : option string) (s : string) :
  env_is v s = false <-> v <> Some s.
Proof.
  destruct (env_is v s) eqn:E.
  - apply env_is_eqb in E. split; [discriminate | intros H; contradiction].
  - split; [|reflexivity]. intros _ H. apply env_is_eqb in H.
    rewrite H in E. discriminate.
Qed.

(** X24.  The start-up check protects production only.  A server that has
    started answers some sign-in, [POST /api/auth/telegram], with the 500 of
    a missing bot token exactly when no token is set, the skip flag is not
    ['true'], and [NODE_ENV] is neither ['production'] (the check would have
    exited) nor ['development']; it then does so for every sign-in that
    carries a payload, and for no other. *)
Theorem started_without_token (env : environment) :
  ((validateProductionConfig env = Started
    /\ exists initData,
        postTelegram_gate env initData
        = Refuse HTTP.INTERNAL_ERROR "Bot token not configured")
   <-> (falsy (BOT_TOKEN env) = true
        /\ NODE_ENV env <> Some "production"
        /\ NODE_ENV env <> Some "development"
        /\ SKIP_TELEGRAM_VERIFY env <> Some "true"))
  /\ (forall initData,
        postTelegram_gate env initData
        = Refuse HTTP.INTERNAL_ERROR "Bot token not configured"
        <-> (falsy initData = false
             /\ falsy (BOT_TOKEN env) = true
             /\ NODE_ENV env <> Some "development"
             /\ SKIP_TELEGRAM_VERIFY env <> Some "true")).
Proof.
  pose proof (env_is_false (NODE_ENV env) "development") as Hdev.
  pose proof (env_is_false (SKIP_TELEGRAM_VERIFY env) "true") as Hskip.
  assert (Hgate : forall initData,
             postTelegram_gate env initData
             = Refuse HTTP.INTERNAL_ERROR "Bot token not configured"
             <-> falsy initData = false
                 /\ falsy (BOT_TOKEN env) = true
                 /\ NODE_ENV env <> Some "development"
                 /\ SKIP_TELEGRAM_VERIFY env <> Some "true").
  { intros initData. rewrite <- Hdev, <- Hskip.
    unfold postTelegram_gate. cbv zeta.
    destruct (falsy initData);
      [split; [discriminate | intros [H _]; discriminate H]|].
    destruct (env_is (NODE_ENV env) "development"); cbn [negb andb];
      [split; [destruct (extractTelegramUser initData); discriminate
              | intros (_ & _ & H & _); discriminate H]|].
    destruct (env_is (SKIP_TELEGRAM_VERIFY env) "true"); cbn [negb];
      [split; [destruct (extractTelegramUser initData); discriminate
              | intros (_ & _ & _ & H); discriminate H]|].
    destruct (falsy (BOT_TOKEN env)).
    - split; [intros _; repeat split | reflexivity].
    - split; [|intros (_ & H & _); discriminate H].
      destruct (negb (verifyTelegramWebAppData initData (BOT_TOKEN env)));
        [discriminate|].
      destruct (extractTelegramUser initData); discriminate. }
  assert (Hstart : falsy (BOT_TOKEN env) = true ->
                   (validateProductionConfig env = Started
                    <-> NODE_ENV env <> Some "production")).
  { intros Htok. unfold validateProductionConfig, config_errors, NODE_ENV_or_default.
    rewrite Htok. destruct (NODE_ENV env) as [v|]; cbn [falsy].
    - destruct v as [|c v]; cbn [is_empty];
        [split; [discriminate | reflexivity]|].
      destruct (String.eqb (String c v) "production") eqn:E.
      + apply String.eqb_eq in E. rewrite E. split; [discriminate | congruence].
      + apply String.eqb_neq in E. split; [congruence | reflexivity].
    - split; [discriminate | reflexivity]. }
  split; [|exact Hgate].
  split.
  - intros (Hs & initData & Hr).
    apply Hgate in Hr. destruct Hr as (_ & Ht & Hd & Hk).
    split; [exact Ht|]. split; [apply Hstart; assumption|].
    split; assumption.
  - intros (Ht & Hp & Hd & Hk). split; [apply Hstart; assumption|].
    exists (Some "x"). apply Hgate. split; [reflexivity|].
    split; [exact Ht|]. split; assumption.
Qed.

End StartupAndMiddleware.

(* ================================================================== *)
(** * Further properties: validation and the safe integers *)
(* ================================================================== *)

Section ValidatedQuery.
Import Host Validation Scores Props Terms.

(** X25.  After validation the safe integers change nothing within their ranges:
    a limit that passed validation is used as it was given, and so is an
    offset of at most 100000. *)
Theorem validated_paging_is_used (q : leaderboard_query) :
  validateLeaderboardQuery q = Pass ->
  (forall l, q_limit q = Some l -> parseInt l = Some (limit_of q))
  /\ (forall o v, q_offset q = Some o -> parseInt o = Some v ->
                  v <= 100000 -> offset_of q = v).
Proof.
  intros H. unfold validateLeaderboardQuery, handleValidationErrors in H.
  destruct (query_errors q) eqn:E; [clear H | discriminate H].
  unfold query_errors in E.
  apply app_nil_both in E. destruct E as [_ E].
  apply app_nil_both in E. destruct E as [Hl Ho].
  split.
  - intros l Hq. rewrite Hq in Hl. unfold limit_of, getSafeInt. rewrite Hq.
    destruct (isInt 1 (Some PAGINATION.MAX_LIMIT) l) eqn:Hint; [|discriminate].
    unfold isInt in Hint. apply andb_true_iff in Hint. destruct Hint as [_ Hint].
    destruct (parseInt l) as [v|]; [|discriminate].
    apply andb_true_iff in Hint. destruct Hint as [H1 H2].
    apply Z.leb_le in H1, H2.
    replace ((v <? 1) || (PAGINATION.MAX_LIMIT <? v)) with false; [reflexivity|].
    symmetry. apply orb_false_iff. split; apply Z.ltb_ge; lia.
  - intros o v Hq Hp Hv. rewrite Hq in Ho. unfold offset_of, getSafeInt.
    rewrite Hq, Hp.
    destruct (isInt 0 None o) eqn:Hint; [|discriminate].
    unfold isInt in Hint. apply andb_true_iff in Hint. destruct Hint as [_ Hint].
    rewrite Hp, andb_true_r in Hint. apply Z.leb_le in Hint.
    replace ((v <? 0) || (100000 <? v)) with false; [reflexivity|].
    symmetry. apply orb_false_iff. split; apply Z.ltb_ge; lia.
Qed.

End ValidatedQuery.

Section ValidatedQueryExamples.
Import Host Validation Scores Props Terms.

Lemma validated_paging_is_used_witness :
  let q := {| q_type := Some "hits"; q_limit := Some "007"; q_offset := Some "+050" |} in
  validateLeaderboardQuery q = Pass
  /\ (forall l, q_limit q = Some l -> parseInt l = Some (limit_of q))
  /\ (forall o v, q_offset q = Some o -> parseInt o = Some v ->
                  v <= 100000 -> offset_of q = v).
Proof.
  cbv zeta. split; [reflexivity|].
  exact (validated_paging_is_used
           {| q_type := Some "hits"; q_limit := Some "007"; q_offset := Some "+050" |}
           eq_refl).
Defined.

(** What the validation of the leaderboard query refuses. *)
Lemma leaderboard_refusals :
  let refused := fun q fields =>
    getLeaderboard q empty_db
    = inl (HTTP.BAD_REQUEST, "Ошибка валидации", fields) in
  refused {| q_type := None; q_limit := Some "0"; q_offset := None |} ["limit"]
  /\ refused {| q_type := None; q_limit := Some "101"; q_offset := None |} ["limit"]
  /\ refused {| q_type := None; q_limit := Some "ten"; q_offset := None |} ["limit"]
  /\ refused {| q_type := None; q_limit := Some EmptyString; q_offset := None |}
             ["limit"]
  /\ refused {| q_type := None; q_limit := None; q_offset := Some "-1" |} ["offset"]
  /\ refused {| q_type := None; q_limit := None; q_offset := Some "1.5" |} ["offset"]
  /\ refused {| q_type := Some "combo"; q_limit := Some "1000"; q_offset := None |}
             ["type"; "limit"].
Proof. cbv zeta beta. evaluate. Qed.

(** A limit written with leading zeros passes validation and is used. *)
Lemma leading_zeros_pass :
  let q := {| q_type := None; q_limit := Some "007"; q_offset := None |} in
  validateLeaderboardQuery q = Pass /\ limit_of q = 7.
Proof. split; reflexivity. Qed.

End ValidatedQueryExamples.

(* ================================================================== *)
(** * Further properties: the order of the signed fields *)
(* ================================================================== *)

Module FieldOrderProps.
Import Host TelegramAuth Props SortProps.

Lemma filter_perm {A : Type} (p : A -> bool) (l k : list A) :
  Permutation l k -> Permutation (filter p l) (filter p k).
Proof.
  induction 1 as [| x l k _ IH | x y l | l k m _ IH1 _ IH2]; cbn [filter].
  - constructor.
  - destruct (p x); [constructor|]; exact IH.
  - destruct (p x), (p y); try reflexivity. apply perm_swap.
  - etransitivity; eassumption.
Qed.

(** With distinct names, [get] finds a pair exactly when it is there. *)
Lemma get_In (params : list (string * string)) (k v : string) :
  NoDup (map fst params) -> (get params k = Some v <-> In (k, v) params).
Proof.
  induction params as [|[k' v'] r IH]; cbn [map get fst]; intros Hn.
  - split; [discriminate | intros []].
  - inversion Hn as [|? ? Hk Hr]; subst. destruct (String.eqb k' k) eqn:E.
    + apply String.eqb_eq in E. subst k'. split.
      * intros H. injection H as ->. left. reflexivity.
      * intros [H | H]; [injection H as ->; reflexivity|].
        exfalso. apply Hk. apply (in_map fst) in H. exact H.
    + apply String.eqb_neq in E. rewrite (IH Hr). split.
      * intros H. right. exact H.
      * intros [H | H]; [injection H as -> _; contradiction | exact H].
Qed.

Lemma get_perm (p1 p2 : list (string * string)) (k : string) :
  NoDup (map fst p1) -> Permutation p1 p2 -> get p1 k = get p2 k.
Proof.
  intros Hn Hp.
  assert (Hn2 : NoDup (map fst p2))
    by (eapply Permutation_NoDup; [apply Permutation_map; exact Hp | exact Hn]).
  destruct (get p1 k) as [v|] eqn:E1.
  - symmetry. apply (get_In p2 k v Hn2).
    apply (Permutation_in _ Hp). apply (get_In p1 k v Hn). exact E1.
  - destruct (get p2 k) as [v|] eqn:E2; [|reflexivity].
    apply (get_In p2 k v Hn2) in E2.
    apply (Permutation_in _ (Permutation_sym Hp)) in E2.
    apply (get_In p1 k v Hn) in E2. congruence.
Qed.

Section Sorted.
Context (cmp : string -> string -> Z) (names : list string).
Hypothesis cmp_antisym :
  forall a b, In a names -> In b names -> cmp a b <= 0 -> cmp b a <= 0 -> a = b.

Local Abbreviation by_key :=
  (fun a b : string * string => cmp (fst a) (fst b) <= 0).

(** Two sorted lists of pairs with distinct names and the same pairs are
    the same list, when the comparison tells the names apart. *)
Lemma sorted_pairs_unique (l1 l2 : list (string * string)) :
  incl (map fst l1) names ->
  StronglySorted by_key l1 -> StronglySorted by_key l2 ->
  NoDup (map fst l1) -> Permutation l1 l2 -> l1 = l2.
Proof.
  revert l2. induction l1 as [|x l1 IH]; intros l2 Hin H1 H2 Hn Hp.
  - apply Permutation_nil in Hp. symmetry. exact Hp.
  - destruct l2 as [|y l2];
      [apply Permutation_sym, Permutation_nil in Hp; discriminate|].
    apply StronglySorted_inv in H1, H2.
    destruct H1 as [H1 Hx], H2 as [H2 Hy].
    rewrite Forall_forall in Hx, Hy.
    inversion Hn as [|? ? Hk Hn']; subst.
    assert (Exy : x = y).
    { assert (Hxin : In x (y :: l2))
        by (apply (Permutation_in _ Hp); left; reflexivity).
      assert (Hyin : In y (x :: l1))
        by (apply (Permutation_in _ (Permutation_sym Hp)); left; reflexivity).
      destruct Hxin as [E | Hxin]; [symmetry; exact E|].
      destruct Hyin as [E | Hyin]; [exact E|].
      exfalso. apply Hk.
      rewrite (cmp_antisym (fst x) (fst y)
                 (Hin (fst x) (or_introl eq_refl))
                 (Hin (fst y) (or_intror (in_map fst l1 y Hyin)))
                 (Hx y Hyin) (Hy x Hxin)).
      apply in_map. exact Hyin. }
    subst y. f_equal. apply IH; try assumption.
    + intros k Hk'. apply Hin. right. exact Hk'.
    + eapply Permutation_cons_inv. exact Hp.
Qed.

End Sorted.

End FieldOrderProps.

Section FieldOrder.
Import Host TelegramAuth Props SortProps VerifierProps FieldOrderProps.
Context {L : Locale}.

(** X26.  The order of the fields does not matter.  Under a comparison that is
    total and transitive and that holds no two names of the payload for
    equal (the comparison of a locale may hold two different texts for
    equal), two initialisation strings with the same pairs, in any order,
    and no name twice, get the same verdict. *)
Theorem field_order_is_immaterial (d1 d2 : string) (botToken : option string) :
  (forall a b : string, localeCompare a b <= 0 \/ localeCompare b a <= 0) ->
  (forall a b c : string,
      localeCompare a b <= 0 -> localeCompare b c <= 0 -> localeCompare a c <= 0) ->
  (forall a b : string,
      In a (map fst (URLSearchParams d1)) -> In b (map fst (URLSearchParams d1)) ->
      localeCompare a b <= 0 -> localeCompare b a <= 0 -> a = b) ->
  NoDup (map fst (URLSearchParams d1)) ->
  Permutation (URLSearchParams d1) (URLSearchParams d2) ->
  verifyTelegramWebAppData (Some d1) botToken
  = verifyTelegramWebAppData (Some d2) botToken.
Proof.
  intros Htotal Htrans Hanti Hn Hp.
  set (cmp := fun a b : string * string => localeCompare (fst a) (fst b)).
  assert (Hhash : get (URLSearchParams d1) "hash" = get (URLSearchParams d2) "hash")
    by (apply get_perm; assumption).
  assert (Hsorted : sort cmp (delete (URLSearchParams d1) "hash")
                    = sort cmp (delete (URLSearchParams d2) "hash")).
  { apply (sorted_pairs_unique localeCompare (map fst (URLSearchParams d1)) Hanti).
    - intros k Hk. apply in_map_iff in Hk. destruct Hk as (kv & <- & Hkv).
      apply (Permutation_in _ (sort_perm cmp _)) in Hkv.
      unfold delete in Hkv. apply filter_In in Hkv.
      apply in_map. apply Hkv.
    - apply (sort_sorted cmp); [intros a b; apply Htotal | intros a b c; apply Htrans].
    - apply (sort_sorted cmp); [intros a b; apply Htotal | intros a b c; apply Htrans].
    - eapply Permutation_NoDup.
      + apply Permutation_map. symmetry. apply sort_perm.
      + apply filter_keeps_distinct. exact Hn.
    - rewrite (sort_perm cmp (delete (URLSearchParams d1) "hash")).
      rewrite (sort_perm cmp (delete (URLSearchParams d2) "hash")).
      apply filter_perm. exact Hp. }
  assert (Htry : forall t, verify_try d1 t = verify_try d2 t).
  { intros t. unfold verify_try. rewrite Hhash. fold cmp. rewrite Hsorted.
    reflexivity. }
  destruct botToken as [t|]; [|reflexivity].
  rewrite !verify_present.
  destruct (is_empty t); [rewrite !orb_true_r; reflexivity|].
  rewrite !orb_false_r, <- Htry.
  assert (Hempty : forall d, is_empty d = true -> verify_try d t = Ok false).
  { intros d Hd. destruct d; [reflexivity | discriminate]. }
  destruct (is_empty d1) eqn:E1, (is_empty d2) eqn:E2; try reflexivity.
  - rewrite (Hempty d1 E1). reflexivity.
  - rewrite Htry, (Hempty d2 E2). reflexivity.
Qed.

End FieldOrder.

Section FieldOrderExamples.
Import Host TelegramAuth Props FieldOrderProps.

Lemma byte_of_ascii_inj (x y : ascii) :
  byte_of_ascii x = byte_of_ascii y -> x = y.
Proof.
  unfold byte_of_ascii. intros H. apply N2Z.inj in H.
  rewrite <- (ascii_N_embedding x), <- (ascii_N_embedding y), H. reflexivity.
Qed.

Lemma code_units_total (a b : string) :
  compare_code_units a b <= 0 \/ compare_code_units b a <= 0.
Proof.
  revert b. induction a as [|x a IH]; intros [|y b]; cbn [compare_code_units];
    try lia.
  rewrite (Ascii.eqb_sym y x). destruct (Ascii.eqb x y); [apply IH | lia].
Qed.

Lemma code_units_antisym (a b : string) :
  compare_code_units a b <= 0 -> compare_code_units b a <= 0 -> a = b.
Proof.
  revert b. induction a as [|x a IH]; intros [|y b]; cbn [compare_code_units];
    try lia; [reflexivity|].
  rewrite (Ascii.eqb_sym y x). destruct (Ascii.eqb x y) eqn:E.
  - apply Ascii.eqb_eq in E. subst y. intros H1 H2. f_equal. exact (IH b H1 H2).
  - intros H1 H2. apply Ascii.eqb_neq in E. exfalso. apply E.
    apply byte_of_ascii_inj. lia.
Qed.

Lemma code_units_trans (a b c : string) :
  compare_code_units a b <= 0 -> compare_code_units b c <= 0 ->
  compare_code_units a c <= 0.
Proof.
  revert b c. induction a as [|x a IH]; intros [|y b] [|z c];
    cbn [compare_code_units]; try lia;
    try (destruct (Ascii.eqb x y); lia);
    try (destruct (Ascii.eqb y z); lia).
  destruct (Ascii.eqb x y) eqn:Exy.
  - apply Ascii.eqb_eq in Exy. subst y.
    destruct (Ascii.eqb x z); [apply IH | lia].
  - apply Ascii.eqb_neq in Exy.
    assert (Hxy : byte_of_ascii x <> byte_of_ascii y)
      by (intros H; apply Exy, byte_of_ascii_inj, H).
    destruct (Ascii.eqb y z) eqn:Eyz.
    + apply Ascii.eqb_eq in Eyz. subst z.
      rewrite (proj2 (Ascii.eqb_neq x y) Exy). lia.
    + apply Ascii.eqb_neq in Eyz.
      assert (Hyz : byte_of_ascii y <> byte_of_ascii z)
        by (intros H; apply Eyz, byte_of_ascii_inj, H).
      destruct (Ascii.eqb x z) eqn:Exz.
      * apply Ascii.eqb_eq in Exz. subst z. lia.
      * lia.
Qed.

Lemma field_order_is_immaterial_witness :
  let d1 := "auth_date=1700000000&query_id=AAH&hash=00ff" in
  let d2 := "hash=00ff&query_id=AAH&auth_date=1700000000" in
  (forall a b : string, case_blind_order a b <= 0 \/ case_blind_order b a <= 0)
  /\ (forall a b c : string,
         case_blind_order a b <= 0 -> case_blind_order b c <= 0 ->
         case_blind_order a c <= 0)
  /\ (case_blind_order "Hash" "hash" <= 0 /\ case_blind_order "hash" "Hash" <= 0)
  /\ (forall a b : string,
         In a (map fst (URLSearchParams d1)) -> In b (map fst (URLSearchParams d1)) ->
         case_blind_order a b <= 0 -> case_blind_order b a <= 0 -> a = b)
  /\ NoDup (map fst (URLSearchParams d1))
  /\ Permutation (URLSearchParams d1) (URLSearchParams d2)
  /\ verifyTelegramWebAppData (L := case_blind_order) (Some d1) (Some "123456:ABC")
     = verifyTelegramWebAppData (L := case_blind_order) (Some d2) (Some "123456:ABC").
Proof.
  cbv zeta.
  assert (Hn : NoDup (map fst (URLSearchParams
                                 "auth_date=1700000000&query_id=AAH&hash=00ff"))).
  { cbn. repeat constructor; cbn; intuition discriminate. }
  assert (Hp : Permutation
                 (URLSearchParams "auth_date=1700000000&query_id=AAH&hash=00ff")
                 (URLSearchParams "hash=00ff&query_id=AAH&auth_date=1700000000")).
  { cbn. etransitivity; [apply perm_skip, perm_swap|].
    etransitivity; [apply perm_swap|]. apply perm_skip, perm_swap. }
  assert (Htotal : forall a b : string,
             case_blind_order a b <= 0 \/ case_blind_order b a <= 0)
    by (intros a b; apply code_units_total).
  assert (Htrans : forall a b c : string,
             case_blind_order a b <= 0 -> case_blind_order b c <= 0 ->
             case_blind_order a c <= 0)
    by (intros a b c; apply code_units_trans).
  assert (Hanti : forall a b : string,
             In a (map fst (URLSearchParams
                              "auth_date=1700000000&query_id=AAH&hash=00ff")) ->
             In b (map fst (URLSearchParams
                              "auth_date=1700000000&query_id=AAH&hash=00ff")) ->
             case_blind_order a b <= 0 -> case_blind_order b a <= 0 -> a = b).
  { intros a b Ha Hb.
    assert (Hnames : map fst (URLSearchParams
                                "auth_date=1700000000&query_id=AAH&hash=00ff")
                     = ["auth_date"; "query_id"; "hash"]) by (vm_compute; reflexivity).
    rewrite Hnames in Ha, Hb.
    destruct Ha as [<- | [<- | [<- | []]]];
      destruct Hb as [<- | [<- | [<- | []]]];
      try (intros _ _; reflexivity);
      vm_compute; intros H1 H2; exfalso;
      first [apply H1; reflexivity | apply H2; reflexivity]. }
  split; [exact Htotal|]. split; [exact Htrans|].
  split; [split; vm_compute; discriminate|].
  split; [exact Hanti|]. split; [exact Hn|]. split; [exact Hp|].
  exact (field_order_is_immaterial (L := case_blind_order) _ _ (Some "123456:ABC")
           Htotal Htrans Hanti Hn Hp).
Defined.

End FieldOrderExamples.

(* ================================================================== *)
(** * Further properties: the two gates for a signed payload *)
(* ================================================================== *)

Section TwoGates.
Import Host TelegramAuth Auth Props.
Context {L : Locale}.

(** X27.  The sign-in route and the blocking middleware admit the same payloads
    with the same identity: [POST /api/auth/telegram] goes on to the store
    with an identity exactly when the middleware would call [next()] with
    that identity attached. *)
Theorem sign_in_gate_agrees_with_middleware
    (env : environment) (initData sessionId : option string) (u : telegram_user) :
  postTelegram_gate env initData = Proceed u
  <-> telegramAuthMiddleware env initData sessionId
      = Next {| req_telegramUser := Some u;
                req_sessionId := None;
                req_authMethod := Some ViaTelegram |}.
Proof.
  unfold postTelegram_gate, telegramAuthMiddleware.
  destruct (falsy initData); cbn [negb].
  - split; [discriminate|].
    destruct (negb (falsy sessionId));
      [destruct (negb _)|]; discriminate.
  - destruct (negb (env_is (NODE_ENV env) "development")
              && negb (env_is (SKIP_TELEGRAM_VERIFY env) "true")).
    + destruct (falsy (BOT_TOKEN env)); [split; discriminate|].
      destruct (negb (verifyTelegramWebAppData initData (BOT_TOKEN env)));
        [split; discriminate|].
      destruct (extractTelegramUser initData) as [v|]; [|split; discriminate].
      split; intros H; injection H as ->; reflexivity.
    + destruct (extractTelegramUser initData) as [v|]; [|split; discriminate].
      split; intros H; injection H as ->; reflexivity.
Qed.

End TwoGates.

(* ================================================================== *)
(** * Further properties: a known user is reused *)
(* ================================================================== *)

Section KnownUser.
Import Host Database Validation Scores Auth Props Terms.


(** X29.  The route never looks at the signed payload: the answer and the store
    after a submission are the same whatever the [initData] field holds, or
    whether it is there at all. *)
Theorem submission_ignores_payload
    (limiter_allows : bool) (b : game_result) (payload : option string) (d : db) :
  postScores limiter_allows (with_initData b payload) d
  = postScores limiter_allows b d.
Proof.
  assert (Hv : validateGameResult (with_initData b payload) = validateGameResult b)
    by reflexivity.
  assert (Hs : saveScore (with_initData b payload) = saveScore b) by reflexivity.
  unfold postScores. rewrite Hv, Hs. reflexivity.
Qed.

End KnownUser.

Section KnownUserExamples.
Import Host Database Validation Scores Auth Props Terms.


End KnownUserExamples.

(* ================================================================== *)
(** * Further properties: the origins that CORS allows *)
(* ================================================================== *)

Module CorsProps.
Import Host Sanitizing Security Terms SanitizingProps.

Lemma units_eqb_eq (a b : list Z) : units_eqb a b = true -> a = b.
Proof.
  revert b. induction a as [|x a IH]; intros [|y b]; cbn [units_eqb];
    try discriminate; [reflexivity|].
  intros H. apply andb_true_iff in H. destruct H as [Hx Hr].
  apply Z.eqb_eq in Hx. subst y. f_equal. exact (IH b Hr).
Qed.

(** No piece of a split holds the separator. *)
Lemma split_units_free (sep : Z) (s piece : list Z) :
  In piece (split_units sep s) -> ~ In sep piece.
Proof.
  revert piece. induction s as [|u r IH]; intros piece; cbn [split_units].
  - intros [<- | []] [].
  - destruct (u =? sep) eqn:E.
    + intros [<- | H]; [intros [] | exact (IH piece H)].
    + apply Z.eqb_neq in E. destruct (split_units sep r) as [|h t].
      * intros [<- | []] [H | []]. contradiction.
      * intros [<- | H].
        -- intros [Hu | Hh]; [contradiction|].
           exact (IH h (or_introl eq_refl) Hh).
        -- exact (IH piece (or_intror H)).
Qed.

Lemma trimStart_snoc (a : list Z) (u : Z) :
  is_white u = false -> trimStart (a ++ [u]) = trimStart a ++ [u].
Proof.
  intros Hu. induction a as [|x a IH]; cbn [app trimStart].
  - rewrite Hu. reflexivity.
  - destruct (is_white x); [exact IH | reflexivity].
Qed.

Lemma trimStart_head (s : list Z) :
  match trimStart s with u :: _ => is_white u = false | [] => True end.
Proof.
  induction s as [|x s IH]; cbn [trimStart]; [exact I|].
  destruct (is_white x) eqn:E; [exact IH | exact E].
Qed.

(** What [trim] returns has no white space at either end. *)
Lemma trim_edges (s : list Z) : edges_kept (trim s).
Proof.
  unfold edges_kept, trim, trimEnd. rewrite rev_involutive.
  split; [|apply trimStart_head].
  pose proof (trimStart_head s) as Hhead.
  destruct (trimStart s) as [|u r]; [exact I|].
  cbn [rev]. rewrite (trimStart_snoc (rev r) u Hhead), rev_app_distr.
  cbn [rev app]. exact Hhead.
Qed.

End CorsProps.

Section CorsTheorems.
Import Host TelegramAuth Sanitizing Security Terms SanitizingProps CorsProps.

(** X30.  Outside development the origin header is only ever set to the origin
    of the request itself, and only when that origin is an entry of the
    configured list after trimming: a non-empty string without a comma and
    without white space at either end. *)
Theorem cors_allows_listed_origins_only
    (ALLOWED_ORIGINS : option (list Z)) (NODE_ENV : option string)
    (origin : option (list Z)) (method : string) (o : list Z) :
  NODE_ENV <> Some "development" ->
  allow_origin (setupCors ALLOWED_ORIGINS NODE_ENV origin method) = Some o ->
  origin = Some o
  /\ o <> []
  /\ In o (allowedOrigins ALLOWED_ORIGINS)
  /\ ~ In 44 o
  /\ edges_kept o.
Proof.
  intros Hdev. unfold setupCors. cbn [allow_origin].
  destruct (env_is NODE_ENV "development") eqn:E.
  { exfalso. apply Hdev. unfold env_is in E.
    destruct NODE_ENV as [v|]; [|discriminate].
    apply String.eqb_eq in E. rewrite E. reflexivity. }
  destruct origin as [[|u r]|]; try discriminate.
  destruct (existsb _ (allowedOrigins ALLOWED_ORIGINS)) eqn:Hex; [|discriminate].
  intros H. injection H as <-.
  apply existsb_exists in Hex. destruct Hex as (entry & Hin & Heq).
  apply units_eqb_eq in Heq. subst entry.
  split; [reflexivity|]. split; [discriminate|]. split; [exact Hin|].
  unfold allowedOrigins in Hin. apply in_map_iff in Hin.
  destruct Hin as (piece & Htrim & Hpiece). rewrite <- Htrim. split.
  - intros Hc. apply trim_In in Hc.
    exact (split_units_free 44 _ piece Hpiece Hc).
  - apply trim_edges.
Qed.

End CorsTheorems.

Section CorsExamples.
Import Host TelegramAuth Sanitizing Security Terms.

Lemma cors_allows_listed_origins_only_witness :
  let listed := units "https://a.example , https://b.example" in
  let o := units "https://b.example" in
  Some "production" <> Some "development"
  /\ allow_origin (setupCors (Some listed) (Some "production") (Some o) "GET") = Some o
  /\ (Some o = Some o
      /\ o <> []
      /\ In o (allowedOrigins (Some listed))
      /\ ~ In 44 o
      /\ edges_kept o).
Proof.
  cbv zeta.
  assert (Hdev : Some "production" <> Some "development") by discriminate.
  assert (Hset : allow_origin
                   (setupCors (Some (units "https://a.example , https://b.example"))
                      (Some "production") (Some (units "https://b.example")) "GET")
                 = Some (units "https://b.example")) by (vm_compute; reflexivity).
  split; [exact Hdev|]. split; [exact Hset|].
  exact (cors_allows_listed_origins_only _ _ _ _ _ Hdev Hset).
Defined.

End CorsExamples.
